(** * The Snowflake table resource: statement builder, diff suppression and
      composite identifiers

    A shallow embedding of the Go package [snowflake] (the [TableBuilder]) and of
    the package [resources] (the table resource of the Terraform provider),
    together with the parts of Go's standard library they call.

    Go strings are immutable byte sequences, so a string is a [list byte] here;
    runes are integers in [Z]. *)

From Stdlib Require Import ZArith List Bool Lia.
From Stdlib Require Import Strings.Byte.
Import ListNotations.

Set Implicit Arguments.

(* ================================================================== *)
(** * Go strings *)

Definition gostring := list byte.

(** String literals for Go strings: ["abc"] is the list of its bytes. *)
Inductive literal := lit_nil | lit_cons (b : byte) (r : literal).

Fixpoint literal_of_bytes (l : list byte) : literal :=
  match l with
  | [] => lit_nil
  | b :: r => lit_cons b (literal_of_bytes r)
  end.

Fixpoint bytes_of_literal (l : literal) : list byte :=
  match l with
  | lit_nil => []
  | lit_cons b r => b :: bytes_of_literal r
  end.

Declare Scope go_scope.
Delimit Scope go_scope with go.
#[warnings="-via-type-remapping,-via-type-mismatch"]
String Notation gostring literal_of_bytes bytes_of_literal
  (via literal mapping [[nil] => lit_nil, [cons] => lit_cons]) : go_scope.
Bind Scope go_scope with gostring.
Open Scope go_scope.
Open Scope list_scope.
Open Scope Z_scope.

(** The double quote character. *)
Abbreviation dq := x22 (only parsing).

(** The numeric value of a byte. *)
Definition byte_val (b : byte) : Z := Z.of_N (Byte.to_N b).

(** [s == t] on strings. *)
Fixpoint str_eqb (s t : gostring) : bool :=
  match s, t with
  | [], [] => true
  | a :: s', b :: t' => Byte.eqb a b && str_eqb s' t'
  | _, _ => false
  end.

(** A Go [error] value: [None] is [nil], [Some msg] an error whose [Error()]
    is [msg]. *)
Definition error := option gostring.

(* ================================================================== *)
(** * State passing *)

(** A computation that returns a value of type [A] and may update a state of
    type [S]: the receiver behind a pointer, or the resource data and the
    database connection of a callback. *)
Definition State (S A : Type) := S -> A * S.

Definition ret {S A} (a : A) : State S A := fun st => (a, st).

Definition bind {S A B} (m : State S A) (k : A -> State S B) : State S B :=
  fun st => let (a, st') := m st in k a st'.

Notation "x <- m ;; k" := (bind m (fun x => k))
  (at level 61, m at next level, right associativity).
Notation "' p <- m ;; k" := (bind m (fun x => let p := x in k))
  (at level 61, p pattern, m at next level, right associativity).
Notation "m ;;; k" := (bind m (fun _ => k))
  (at level 61, right associativity).

(** The value a computation returns, and the state it leaves behind. *)
Definition returned {S A} (m : State S A) (st : S) : A := fst (m st).
Definition after {S A} (m : State S A) (st : S) : S := snd (m st).

(* ================================================================== *)
(** * Package fmt *)

Module fmt.

(** What [Sprintf] appends for operands no verb consumed. *)
Fixpoint extra_operands (a : list gostring) : gostring :=
  match a with
  | [] => []
  | [x] => "string=" ++ x
  | x :: a' => "string=" ++ x ++ ", " ++ extra_operands a'
  end.

(** [fmt.Sprintf] for string operands.  Every format of this program uses the
    verb [%v] only, which prints a string operand as it is.  A [%v] with no
    operand left prints [%!v(MISSING)], and operands left over are reported
    at the end; any other byte of the format is copied. *)
Fixpoint Sprintf (format : gostring) (a : list gostring) : gostring :=
  match format with
  | [] =>
      match a with
      | [] => []
      | _ => "%!(EXTRA " ++ extra_operands a ++ ")"
      end
  | c :: rest =>
      match c, rest with
      | "%"%byte, "v"%byte :: rest' =>
          match a with
          | arg :: a' => arg ++ Sprintf rest' a'
          | [] => "%!v(MISSING)" ++ Sprintf rest' []
          end
      | _, _ => c :: Sprintf rest a
      end
  end.

(** [fmt.Errorf]: an error whose message is the formatted text. *)
Definition Errorf (format : gostring) (a : list gostring) : error :=
  Some (Sprintf format a).

End fmt.

(* ================================================================== *)
(** * Package unicode/utf8 *)

Module utf8.

Definition rune := Z.

Definition RuneError : rune := 0xFFFD.
Definition RuneSelf : Z := 0x80.
Definition UTFMax : Z := 4.

Definition maskx : Z := 0x3F.
Definition mask2 : Z := 0x1F.
Definition mask3 : Z := 0x0F.
Definition mask4 : Z := 0x07.

Definition locb : Z := 0x80.
Definition hicb : Z := 0xBF.

(** The entries of the table [first]: the kind of a leading byte. *)
Definition xx : Z := 0xF1.
Definition as_ : Z := 0xF0.
Definition s1 : Z := 0x02.
Definition s2 : Z := 0x13.
Definition s3 : Z := 0x03.
Definition s4 : Z := 0x23.
Definition s5 : Z := 0x34.
Definition s6 : Z := 0x04.
Definition s7 : Z := 0x44.

(** [first[b]], the table of 256 entries, by its rows. *)
Definition first (b : Z) : Z :=
  if b <? 0x80 then as_
  else if b <? 0xC2 then xx
  else if b <? 0xE0 then s1
  else if b =? 0xE0 then s2
  else if b <? 0xED then s3
  else if b =? 0xED then s4
  else if b <? 0xF0 then s3
  else if b =? 0xF0 then s5
  else if b <? 0xF4 then s6
  else if b =? 0xF4 then s7
  else xx.

(** [acceptRanges[i]], as the pair (lo, hi); the entries past the fifth are
    zero. *)
Definition acceptRanges (i : Z) : Z * Z :=
  if i =? 0 then (locb, hicb)
  else if i =? 1 then (0xA0, hicb)
  else if i =? 2 then (locb, 0x9F)
  else if i =? 3 then (0x90, hicb)
  else if i =? 4 then (locb, 0x8F)
  else (0, 0).

(** The value of a 32-bit signed integer after wrap-around. *)
Definition int32 (z : Z) : Z := (z + 2 ^ 31) mod 2 ^ 32 - 2 ^ 31.

(** [s[i]], read where the code has checked that [i] is in range. *)
Definition at_ (s : gostring) (i : nat) : Z := byte_val (nth i s x00).

(** [len(s)]. *)
Definition len (s : gostring) : Z := Z.of_nat (length s).

(** [s[lo:hi]] and [s[lo:]]. *)
Definition slice (s : gostring) (lo hi : Z) : gostring :=
  firstn (Z.to_nat (hi - lo)) (skipn (Z.to_nat lo) s).
Definition slice_from (s : gostring) (lo : Z) : gostring :=
  skipn (Z.to_nat lo) s.

(** [DecodeRuneInString] unpacks the first UTF-8 encoding in [s] and returns
    the rune and its width in bytes; (RuneError, 0) for the empty string and
    (RuneError, 1) for an invalid encoding. *)
Definition DecodeRuneInString (s : gostring) : rune * Z :=
  let n := len s in
  if n <? 1 then (RuneError, 0) else
  let s0 := at_ s 0 in
  let x := first s0 in
  if as_ <=? x then
    let mask := Z.shiftr (int32 (Z.shiftl x 31)) 31 in
    (Z.lor (Z.ldiff s0 mask) (Z.land RuneError mask), 1)
  else
  let sz := Z.land x 7 in
  let accept := acceptRanges (Z.shiftr x 4) in
  if n <? sz then (RuneError, 1) else
  let s1 := at_ s 1 in
  if (s1 <? fst accept) || (snd accept <? s1) then (RuneError, 1) else
  if sz <=? 2 then
    (Z.lor (Z.shiftl (Z.land s0 mask2) 6) (Z.land s1 maskx), 2)
  else
  let s2 := at_ s 2 in
  if (s2 <? locb) || (hicb <? s2) then (RuneError, 1) else
  if sz <=? 3 then
    (Z.lor (Z.lor (Z.shiftl (Z.land s0 mask3) 12) (Z.shiftl (Z.land s1 maskx) 6))
           (Z.land s2 maskx), 3)
  else
  let s3 := at_ s 3 in
  if (s3 <? locb) || (hicb <? s3) then (RuneError, 1) else
  (Z.lor (Z.lor (Z.lor (Z.shiftl (Z.land s0 mask4) 18) (Z.shiftl (Z.land s1 maskx) 12))
                (Z.shiftl (Z.land s2 maskx) 6))
         (Z.land s3 maskx), 4).

(** [RuneStart] reports whether the byte could be the first byte of an
    encoded rune: continuation bytes are [10xxxxxx]. *)
Definition RuneStart (b : Z) : bool := negb (Z.land b 0xC0 =? 0x80).

(** The loop [for start--; start >= lim; start-- { if RuneStart(s[start]) { break } }]
    of [DecodeLastRuneInString], by the number [k] of positions left to try. *)
Fixpoint back_up (k : nat) (s : gostring) (start : Z) : Z :=
  match k with
  | O => start
  | S k' =>
      if RuneStart (at_ s (Z.to_nat start)) then start
      else back_up k' s (start - 1)
  end.

(** [DecodeLastRuneInString] unpacks the last UTF-8 encoding in [s]. *)
Definition DecodeLastRuneInString (s : gostring) : rune * Z :=
  let end_ := len s in
  if end_ =? 0 then (RuneError, 0) else
  let start := end_ - 1 in
  let r := at_ s (Z.to_nat start) in
  if r <? RuneSelf then (r, 1) else
  let lim := end_ - UTFMax in
  let lim := if lim <? 0 then 0 else lim in
  let start := start - 1 in
  let start := back_up (Z.to_nat (start - lim + 1)) s start in
  let start := if start <? 0 then 0 else start in
  let '(r, size) := DecodeRuneInString (slice s start end_) in
  if negb (start + size =? end_) then (RuneError, 1) else (r, size).

End utf8.

(* ================================================================== *)
(** * Package unicode *)

Module unicode.

Definition MaxLatin1 : Z := 0xFF.

(** A range of 16-bit code points from [Lo] to [Hi] in steps of [Stride]. *)
Record Range16 := mkRange16 { Lo : Z; Hi : Z; Stride : Z }.

(** A table of ranges; the first [LatinOffset] of them end in Latin-1.  (The
    table of this program has no 32-bit ranges.) *)
Record RangeTable := mkRangeTable { R16 : list Range16; LatinOffset : nat }.

(** The table of the code points with Unicode's property White_Space. *)
Definition White_Space : RangeTable :=
  mkRangeTable
    [ mkRange16 0x0009 0x000d 1;
      mkRange16 0x0020 0x0085 101;
      mkRange16 0x00a0 0x1680 5600;
      mkRange16 0x2000 0x200a 1;
      mkRange16 0x2028 0x2029 1;
      mkRange16 0x202f 0x205f 48;
      mkRange16 0x3000 0x3000 1 ]
    2.

Definition uint16 (z : Z) : Z := z mod 2 ^ 16.
Definition uint32 (z : Z) : Z := z mod 2 ^ 32.

(** [is16]: the search of a short table, range after range. *)
Fixpoint is16 (ranges : list Range16) (r : Z) : bool :=
  match ranges with
  | [] => false
  | range_ :: ranges' =>
      if r <? Lo range_ then false
      else if r <=? Hi range_ then
        (Stride range_ =? 1) || ((r - Lo range_) mod Stride range_ =? 0)
      else is16 ranges' r
  end.

(** [isExcludingLatin]: membership in the ranges past the Latin-1 ones. *)
Definition isExcludingLatin (rangeTab : RangeTable) (r : utf8.rune) : bool :=
  let r16 := R16 rangeTab in
  let off := LatinOffset rangeTab in
  if (off <? length r16)%nat && (r <=? Hi (last r16 (mkRange16 0 0 1))) then
    is16 (skipn off r16) (uint16 r)
  else false.

(** [IsSpace] reports whether the rune is a space character as defined by
    Unicode's White Space property. *)
Definition IsSpace (r : utf8.rune) : bool :=
  if uint32 r <=? MaxLatin1 then
    (r =? 0x09) || (r =? 0x0A) || (r =? 0x0B) || (r =? 0x0C) || (r =? 0x0D)
    || (r =? 0x20) || (r =? 0x85) || (r =? 0xA0)
  else isExcludingLatin White_Space r.

End unicode.

(* ================================================================== *)
(** * Package strings *)

Module strings.

Import utf8.

(** [HasPrefix] tests whether [s] begins with [prefix]. *)
Fixpoint HasPrefix (s prefix : gostring) {struct prefix} : bool :=
  match prefix, s with
  | [], _ => true
  | p :: prefix', b :: s' => Byte.eqb b p && HasPrefix s' prefix'
  | _ :: _, [] => false
  end.

(** [Index] returns the index of the first instance of [substr] in [s], or
    -1 if [substr] is not present in [s]. *)
Fixpoint Index (s substr : gostring) : Z :=
  if HasPrefix s substr then 0
  else match s with
       | [] => -1
       | _ :: s' => let i := Index s' substr in if i <? 0 then -1 else i + 1
       end.

(** [utf8.RuneCountInString], which [Count] and [explode] use for an empty
    separator: one per decoded rune, an invalid byte counting as one. *)
Fixpoint rune_count_loop (fuel : nat) (s : gostring) : Z :=
  match fuel, s with
  | S k, _ :: _ =>
      let '(_, size) := DecodeRuneInString s in
      1 + rune_count_loop k (slice_from s size)
  | _, _ => 0
  end.
Definition RuneCountInString (s : gostring) : Z := rune_count_loop (length s) s.

(** The loop of [Count]: [i := Index(s, substr)], stop at -1, else count one
    and go on with [s[i+len(substr):]].  A round drops at least one byte when
    [substr] is not empty, so [len(s)] rounds are enough. *)
Fixpoint count_loop (fuel : nat) (s substr : gostring) : Z :=
  match fuel with
  | O => 0
  | S k =>
      let i := Index s substr in
      if i =? -1 then 0
      else 1 + count_loop k (slice_from s (i + len substr)) substr
  end.

(** [Count] counts the number of non-overlapping instances of [substr] in
    [s]; for the empty [substr] it is 1 + the number of runes of [s]. *)
Definition Count (s substr : gostring) : Z :=
  match substr with
  | [] => RuneCountInString s + 1
  | _ => count_loop (length s) s substr
  end.

(** [explode] splits [s] into its UTF-8 sequences, one string each; an
    invalid byte becomes the encoding of U+FFFD.  [k] counts the [n-1] rounds
    of its loop. *)
Fixpoint explode_loop (k : nat) (s : gostring) : list gostring :=
  match k with
  | O => [s]
  | S k' =>
      let '(ch, size) := DecodeRuneInString s in
      (if ch =? RuneError then [xef; xbf; xbd] else slice s 0 size)
        :: explode_loop k' (slice_from s size)
  end.
Definition explode (s : gostring) : list gostring :=
  let n := RuneCountInString s in
  if 0 <? n then explode_loop (Z.to_nat (n - 1)) s else [].

(** The loop of [genSplit], by the number [n] of cuts left to make. *)
Fixpoint genSplit_loop (n : nat) (s sep : gostring) : list gostring :=
  match n with
  | O => [s]
  | S n' =>
      let m := Index s sep in
      if m <? 0 then [s]
      else slice s 0 m :: genSplit_loop n' (slice_from s (m + len sep)) sep
  end.

(** [Split] slices [s] into all substrings separated by [sep]:
    [genSplit(s, sep, 0, -1)]. *)
Definition Split (s sep : gostring) : list gostring :=
  match sep with
  | [] => explode s
  | _ => genSplit_loop (Z.to_nat (Count s sep)) s sep
  end.

Section Trim.
Variable f : rune -> bool.

(** [indexFunc] returns the index of the first rune [r] of [s] with
    [f(r) == truth], or -1: the loop [for i, r := range s], which decodes a
    rune at [i] and goes on after it.  Each round takes a rune, so [len(s)]
    rounds are enough. *)
Fixpoint indexFunc_loop (fuel : nat) (s : gostring) (i : Z) (truth : bool) : Z :=
  match fuel with
  | O => -1
  | S k =>
      if i <? len s then
        let '(r, wid) := DecodeRuneInString (slice_from s i) in
        if Bool.eqb (f r) truth then i else indexFunc_loop k s (i + wid) truth
      else -1
  end.
Definition indexFunc (s : gostring) (truth : bool) : Z :=
  indexFunc_loop (length s) s 0 truth.

(** [lastIndexFunc] is the same as [indexFunc] but from the end of the
    string: the loop [for i := len(s); i > 0; ] decodes the last rune of
    [s[0:i]] and goes on before it. *)
Fixpoint lastIndexFunc_loop (fuel : nat) (s : gostring) (i : Z) (truth : bool) : Z :=
  match fuel with
  | O => -1
  | S k =>
      if 0 <? i then
        let '(r, size) := DecodeLastRuneInString (slice s 0 i) in
        let i := i - size in
        if Bool.eqb (f r) truth then i else lastIndexFunc_loop k s i truth
      else -1
  end.
Definition lastIndexFunc (s : gostring) (truth : bool) : Z :=
  lastIndexFunc_loop (length s) s (len s) truth.

(** [TrimLeftFunc] returns a slice of [s] with all leading runes satisfying
    [f] removed. *)
Definition TrimLeftFunc (s : gostring) : gostring :=
  let i := indexFunc s false in
  if i =? -1 then [] else slice_from s i.

(** [TrimRightFunc] returns a slice of [s] with all trailing runes
    satisfying [f] removed: it ends after the last rune that does not
    satisfy [f], which is decoded again, forwards, for its width. *)
Definition TrimRightFunc (s : gostring) : gostring :=
  let i := lastIndexFunc s false in
  let i :=
    if (0 <=? i) && (RuneSelf <=? at_ s (Z.to_nat i)) then
      let '(_, wid) := DecodeRuneInString (slice_from s i) in i + wid
    else i + 1 in
  slice s 0 i.

(** [TrimFunc] returns a slice of [s] with all leading and trailing runes
    satisfying [f] removed. *)
Definition TrimFunc (s : gostring) : gostring := TrimRightFunc (TrimLeftFunc s).

End Trim.

(** [TrimSpace] returns a slice of [s] with all leading and trailing white
    space removed, as defined by Unicode.  (Its fast path for ASCII returns
    the same slice as [TrimFunc(s, unicode.IsSpace)].) *)
Definition TrimSpace (s : gostring) : gostring := TrimFunc unicode.IsSpace s.

Section Fold.

(** [unicode.SimpleFold], the table of Unicode's simple case folding orbits:
    the next rune of the orbit of [r], wrapping around to the smallest. *)
Variable SimpleFold : rune -> rune.

(** [for r != sr && r < tr { r = unicode.SimpleFold(r) }].  An orbit is
    visited in increasing order, so the loop ends before [tr] steps. *)
Fixpoint fold_loop (fuel : nat) (sr tr r : rune) : rune :=
  match fuel with
  | O => r
  | S k =>
      if negb (r =? sr) && (r <? tr) then fold_loop k sr tr (SimpleFold r) else r
  end.

(** Extract the first rune of a non-empty string, with the rest. *)
Definition first_rune (s : gostring) : rune * gostring :=
  if at_ s 0 <? RuneSelf then (at_ s 0, slice_from s 1)
  else let '(r, size) := DecodeRuneInString s in (r, slice_from s size).

(** The loop of [EqualFold]; every round takes a rune off both strings, so
    [len(s)] rounds are enough and [s] is empty when they are used up. *)
Fixpoint equal_fold_loop (fuel : nat) (s t : gostring) : bool :=
  match fuel, s, t with
  | S k, _ :: _, _ :: _ =>
      let '(sr, s') := first_rune s in
      let '(tr, t') := first_rune t in
      if tr =? sr then equal_fold_loop k s' t'
      else
        let '(sr, tr) := if tr <? sr then (tr, sr) else (sr, tr) in
        if tr <? RuneSelf then
          if (0x41 <=? sr) && (sr <=? 0x5A) && (tr =? sr + 0x61 - 0x41)
          then equal_fold_loop k s' t'
          else false
        else
          let r := fold_loop (Z.to_nat tr) sr tr (SimpleFold sr) in
          if r =? tr then equal_fold_loop k s' t' else false
  | _, _, _ => str_eqb s t
  end.

(** [EqualFold] reports whether [s] and [t], interpreted as UTF-8 strings,
    are equal under Unicode case-folding. *)
Definition EqualFold (s t : gostring) : bool := equal_fold_loop (length s) s t.

End Fold.

End strings.

(* ================================================================== *)
(** * Package regexp *)

Module regexp.

(** The expressions this program compiles: one or more characters of a
    class of ASCII characters. *)
Inductive Regexp := one_or_more (class : byte -> bool).

(** The Perl class [\s]: tab, newline, form feed, carriage return, space. *)
Definition perl_space (b : byte) : bool :=
  match b with
  | x09 | x0a | x0c | x0d | x20 => true
  | _ => false
  end.

(** Replace every match of [class+] by [repl]: matches are leftmost and
    greedy, so they are the maximal runs of bytes of the class.  [in_match]
    tells that the bytes just before belong to a match already replaced.
    The bytes of an ASCII class are never part of a longer UTF-8 sequence. *)
Fixpoint replace_runs (class : byte -> bool) (repl : gostring) (in_match : bool)
  (src : gostring) : gostring :=
  match src with
  | [] => []
  | b :: src' =>
      if class b then
        if in_match then replace_runs class repl true src'
        else repl ++ replace_runs class repl true src'
      else b :: replace_runs class repl false src'
  end.

(** [ReplaceAllString] returns a copy of [src], replacing matches of the
    expression with [repl]; [repl] holds no [$] in this program, so it is
    taken as it is. *)
Definition ReplaceAllString (re : Regexp) (src repl : gostring) : gostring :=
  match re with
  | one_or_more class => replace_runs class repl false src
  end.

End regexp.

(* ================================================================== *)
(** * Package snowflake: the table builder *)

Module snowflake.

(** [TableBuilder] abstracts the creation of SQL queries for a table. *)
Record TableBuilder := mkTableBuilder {
  name : gostring;
  db : gostring;
  schema : gostring;
  comment : gostring
}.

(** A method with a pointer receiver [vb *TableBuilder]: it returns a value
    and leaves the builder in a (possibly new) state. *)
Definition Method (A : Type) := State TableBuilder A.

(** Reading a field of the receiver. *)
Definition field {A} (f : TableBuilder -> A) : Method A := fun vb => (f vb, vb).

(** The assignment [vb.name = n]. *)
Definition assign_name (n : gostring) : Method unit :=
  fun vb => (tt, mkTableBuilder n (db vb) (schema vb) (comment vb)).

(** [QualifiedName] prepends the db and schema if set.  The local
    [strings.Builder] is the accumulator [n]. *)
Definition QualifiedName : Method gostring :=
  vb_db <- field db ;;
  vb_schema <- field schema ;;
  vb_name <- field name ;;
  let n : gostring := [] in
  let n :=
    if negb (str_eqb vb_db []) && negb (str_eqb vb_schema [])
    then n ++ fmt.Sprintf ([dq] ++ "%v" ++ [dq] ++ "." ++ [dq] ++ "%v" ++ [dq] ++ ".")
                          [vb_db; vb_schema]
    else n in
  let n :=
    if negb (str_eqb vb_db []) && str_eqb vb_schema []
    then n ++ fmt.Sprintf ([dq] ++ "%v" ++ [dq] ++ "..") [vb_db]
    else n in
  let n :=
    if str_eqb vb_db [] && negb (str_eqb vb_schema [])
    then n ++ fmt.Sprintf ([dq] ++ "%v" ++ [dq] ++ ".") [vb_schema]
    else n in
  let n := n ++ fmt.Sprintf ([dq] ++ "%v" ++ [dq]) [vb_name] in
  ret n.

(** [WithComment], [WithDB] and [WithSchema] set a field and return the
    receiver itself, so a chain of them is a chain of updates of one builder. *)
Definition WithComment (c : gostring) (vb : TableBuilder) : TableBuilder :=
  mkTableBuilder (name vb) (db vb) (schema vb) c.

Definition WithDB (d : gostring) (vb : TableBuilder) : TableBuilder :=
  mkTableBuilder (name vb) d (schema vb) (comment vb).

Definition WithSchema (s : gostring) (vb : TableBuilder) : TableBuilder :=
  mkTableBuilder (name vb) (db vb) s (comment vb).

(** [Table] returns a builder that holds the name only. *)
Definition Table (n : gostring) : TableBuilder := mkTableBuilder n [] [] [].

(** [Create] returns the SQL query that will create a new table. *)
Definition Create : Method gostring :=
  let q : gostring := [] in
  let q := q ++ "CREATE OR REPLACE" in
  qn <- QualifiedName ;;
  let q := q ++ fmt.Sprintf " TABLE %v(placeholder varchar(100))" [qn] in
  vb_comment <- field comment ;;
  let q :=
    if negb (str_eqb vb_comment [])
    then q ++ fmt.Sprintf " COMMENT = '%v'" [vb_comment]
    else q in
  ret q.

(** [Rename] returns the SQL query that will rename the table. *)
Definition Rename (newName : gostring) : Method gostring :=
  oldName <- QualifiedName ;;
  assign_name newName ;;;
  newQualified <- QualifiedName ;;
  ret (fmt.Sprintf "ALTER TABLE %v RENAME TO %v" [oldName; newQualified]).

(** [ChangeComment] returns the SQL query that will update the comment. *)
Definition ChangeComment (c : gostring) : Method gostring :=
  qn <- QualifiedName ;;
  ret (fmt.Sprintf "ALTER TABLE %v SET COMMENT = '%v'" [qn; c]).

(** [RemoveComment] returns the SQL query that will remove the comment. *)
Definition RemoveComment : Method gostring :=
  qn <- QualifiedName ;;
  ret (fmt.Sprintf "ALTER TABLE %v UNSET COMMENT" [qn]).

(** [Show] returns the SQL query that will show the row of this table. *)
Definition Show : Method gostring :=
  vb_db <- field db ;;
  vb_name <- field name ;;
  if str_eqb vb_db []
  then ret (fmt.Sprintf "SHOW TABLES LIKE '%v'" [vb_name])
  else ret (fmt.Sprintf ("SHOW TABLES LIKE '%v' IN DATABASE " ++ [dq] ++ "%v" ++ [dq])
                        [vb_name; vb_db]).

(** [Drop] returns the SQL query that will drop the table. *)
Definition Drop : Method gostring :=
  qn <- QualifiedName ;;
  ret (fmt.Sprintf "DROP TABLE %v" [qn]).

(** A nullable string of [database/sql]. *)
Record NullString := mkNullString { String : gostring; Valid : bool }.

(** A row of [SHOW TABLES]. *)
Record table := mkTable {
  Comment : NullString;
  Name : NullString;
  SchemaName : NullString;
  DatabaseName : NullString
}.

(** An [sqlx.Row], by what [StructScan] does with the struct it is given:
    the struct after the scan, and the error. *)
Record Row := mkRow { StructScan : table -> table * error }.

(** [ScanTable] scans a row into a fresh [table]. *)
Definition ScanTable (row : Row) : table * error :=
  let r := mkTable (mkNullString [] false) (mkNullString [] false)
                   (mkNullString [] false) (mkNullString [] false) in
  let '(r, err) := StructScan row r in
  (r, err).

(** The statements and queries sent over the connection so far, in order. *)
Record Sent := mkSent { execs : list gostring; queries : list gostring }.

(** The connection [*sql.DB]: the warehouse behind it answers a statement or
    a query, given what was sent before. *)
Record DB := mkDB {
  answer_exec : Sent -> gostring -> error;
  answer_query : Sent -> gostring -> Row
}.

(** Modelled from the spec: [snowflake.Exec] and [snowflake.QueryRow] are
    called by the resource but are not among the sources.  The spec says the
    adapter "executes SQL synchronously over the shared connection" and
    "trusts the underlying driver": [Exec] runs one statement and returns
    the driver's error, [QueryRow] runs one query and returns its row. *)
Definition Exec (db : DB) (query : gostring) : State Sent error :=
  fun sent => (answer_exec db sent query,
               mkSent (execs sent ++ [query]) (queries sent)).

Definition QueryRow (db : DB) (stmt : gostring) : State Sent Row :=
  fun sent => (answer_query db sent stmt,
               mkSent (execs sent) (queries sent ++ [stmt])).

End snowflake.

(* ================================================================== *)
(** * Package helper/schema of the plugin SDK: resource data *)

Module tfschema.

(** [ResourceData]: the identifier, the attributes of the prior state, the
    attributes planned by the configuration and its diff, the attributes the
    callback has set, and the partial-state bookkeeping.  Every attribute of
    the table resource is a string, whose zero value is the empty string. *)
Record ResourceData := mkResourceData {
  id : gostring;
  prior : gostring -> gostring;
  planned : gostring -> gostring;
  was_set : list (gostring * gostring);
  partial : bool;
  partial_keys : list gostring
}.

Fixpoint lookup (key : gostring) (l : list (gostring * gostring)) : option gostring :=
  match l with
  | [] => None
  | (k, v) :: l' => if str_eqb k key then Some v else lookup key l'
  end.

Definition Id : State ResourceData gostring := fun d => (id d, d).

Definition SetId (v : gostring) : State ResourceData unit :=
  fun d => (tt, mkResourceData v (prior d) (planned d) (was_set d) (partial d)
                               (partial_keys d)).

(** [Get] reads an attribute: what the callback has set, else the plan. *)
Definition Get (key : gostring) : State ResourceData gostring :=
  fun d => (match lookup key (was_set d) with
            | Some v => v
            | None => planned d key
            end, d).

(** [GetOk] also tells whether the attribute is set to a non-zero value. *)
Definition GetOk (key : gostring) : State ResourceData (gostring * bool) :=
  v <- Get key ;; ret (v, negb (str_eqb v [])).

(** [GetChange] returns the old and the new value of an attribute. *)
Definition GetChange (key : gostring) : State ResourceData (gostring * gostring) :=
  fun d => ((prior d key, planned d key), d).

(** [HasChange] tells whether the two values differ. *)
Definition HasChange (key : gostring) : State ResourceData bool :=
  '(o, n) <- GetChange key ;; ret (negb (str_eqb o n)).

(** [Set] stores an attribute; for a string attribute of the resource's
    schema it does not fail. *)
Definition Set_ (key value : gostring) : State ResourceData error :=
  fun d => (None, mkResourceData (id d) (prior d) (planned d)
                                 ((key, value) :: was_set d) (partial d)
                                 (partial_keys d)).

Definition Partial (on : bool) : State ResourceData unit :=
  fun d => (tt, mkResourceData (id d) (prior d) (planned d) (was_set d) on
                               (partial_keys d)).

Definition SetPartial (key : gostring) : State ResourceData unit :=
  fun d => (tt, mkResourceData (id d) (prior d) (planned d) (was_set d)
                               (partial d) (key :: partial_keys d)).

End tfschema.

(* ================================================================== *)
(** * Package database/sql: the rows of a query *)

Module sql.

(** [*sql.Rows], the result of a query: the rows not read yet, and whether
    the result set is closed. *)
Record Rows := mkRows { unread : list snowflake.Row; closed : bool }.

(** [Next] prepares the next row for reading: it returns true when there is
    one, and closes the rows when there is none. *)
Definition Next : State Rows bool :=
  fun rows =>
    if closed rows then (false, rows)
    else match unread rows with
         | [] => (false, mkRows [] true)
         | _ :: rest => (true, mkRows rest false)
         end.

(** [Close] closes the rows; it is idempotent. *)
Definition Close : State Rows error :=
  fun rows => (None, mkRows (unread rows) true).

(** [db.Query] runs one query that returns rows.  What the warehouse
    answers, given the connection and what was sent before, is
    [answer_rows]: the rows, or the error. *)
Definition Query (answer_rows : snowflake.DB -> snowflake.Sent -> gostring -> Rows * error)
  (db : snowflake.DB) (query : gostring) : State snowflake.Sent (Rows * error) :=
  fun sent => (answer_rows db sent query,
               snowflake.mkSent (snowflake.execs sent)
                                (snowflake.queries sent ++ [query])).

End sql.

(* ================================================================== *)
(** * Package resources: the table resource *)

Module resources.

(** [tableSpace = regexp.MustCompile(`\s+`)]. *)
Definition tableSpace : regexp.Regexp := regexp.one_or_more regexp.perl_space.

Definition tableNormalizeQuery (str : gostring) : gostring :=
  strings.TrimSpace (regexp.ReplaceAllString tableSpace str " ").

(** [tableDiffSuppressStatement] suppresses diffs between statements that
    differ only in case or in runs of whitespace.  Its first argument and the
    resource data are not used; [SimpleFold] is the table
    [unicode.SimpleFold] that [strings.EqualFold] consults. *)
Definition tableDiffSuppressStatement (SimpleFold : utf8.rune -> utf8.rune)
  (_ old new : gostring) (d : tfschema.ResourceData) : bool :=
  strings.EqualFold SimpleFold (tableNormalizeQuery old) (tableNormalizeQuery new).

(** [splitTableID] takes the [<database_name>|<schema_name>|<table_name>] ID
    and returns the database name, schema name and table name. *)
Definition splitTableID (v : gostring) : gostring * gostring * gostring * error :=
  let arr := strings.Split v "|" in
  if negb (Z.of_nat (length arr) =? 3) then
    ([], [], [], fmt.Errorf "ID %v is invalid" [v])
  else
    (nth 0 arr [], nth 1 arr [], nth 2 arr [], None).

(** [errors.Wrapf] annotates an error with a formatted message. *)
Definition Wrapf (err : gostring) (format : gostring) (a : list gostring) : error :=
  Some (fmt.Sprintf format a ++ ": " ++ err).

(** What a callback works on: the resource data behind its pointer, what has
    been sent over the connection, and the lines written to the log. *)
Record Run := mkRun {
  data : tfschema.ResourceData;
  sent : snowflake.Sent;
  logged : list gostring
}.

Definition Callback (A : Type) := State Run A.

(** A call on the resource data. *)
Definition on_data {A} (m : State tfschema.ResourceData A) : Callback A :=
  fun r => let (a, d) := m (data r) in (a, mkRun d (sent r) (logged r)).

(** A call on the connection. *)
Definition on_db {A} (m : State snowflake.Sent A) : Callback A :=
  fun r => let (a, s) := m (sent r) in (a, mkRun (data r) s (logged r)).

(** [log.Print] of string operands writes them one after the other. *)
Definition log_Print (a : list gostring) : Callback unit :=
  fun r => (tt, mkRun (data r) (sent r) (logged r ++ [concat a])).

(** [ReadTable] implements schema.ReadFunc. *)
Definition ReadTable (meta : snowflake.DB) : Callback error :=
  let db := meta in
  id0 <- on_data tfschema.Id ;;
  let '(dbName, schema, table, err) := splitTableID id0 in
  match err with
  | Some _ => ret err
  | None =>
  let q := returned snowflake.Show
             (snowflake.WithSchema schema
                (snowflake.WithDB dbName (snowflake.Table table))) in
  row <- on_db (snowflake.QueryRow db q) ;;
  let '(v, err) := snowflake.ScanTable row in
  match err with
  | Some _ => ret err
  | None =>
  err <- on_data (tfschema.Set_ "name" (snowflake.String (snowflake.Name v))) ;;
  match err with
  | Some _ => ret err
  | None =>
  err <- on_data (tfschema.Set_ "schema"
                    (snowflake.String (snowflake.SchemaName v))) ;;
  match err with
  | Some _ => ret err
  | None =>
  on_data (tfschema.Set_ "database" (snowflake.String (snowflake.DatabaseName v)))
  end end end end.

(** [CreateTable] implements schema.CreateFunc. *)
Definition CreateTable (meta : snowflake.DB) : Callback error :=
  let db := meta in
  name <- on_data (tfschema.Get "name") ;;
  schema <- on_data (tfschema.Get "schema") ;;
  database <- on_data (tfschema.Get "database") ;;
  let builder :=
    snowflake.WithSchema schema (snowflake.WithDB database (snowflake.Table name)) in
  '(v, ok) <- on_data (tfschema.GetOk "comment") ;;
  let builder := if ok then snowflake.WithComment v builder else builder in
  '(v, ok) <- on_data (tfschema.GetOk "schema") ;;
  let builder := if ok then snowflake.WithSchema v builder else builder in
  let '(q, builder) := snowflake.Create builder in
  log_Print ["[DEBUG] xxx "; q] ;;;
  err <- on_db (snowflake.Exec db q) ;;
  match err with
  | Some e => ret (Wrapf e "error creating table %v" [name])
  | None =>
  on_data (tfschema.SetId (fmt.Sprintf "%v|%v|%v" [database; schema; name])) ;;;
  ReadTable meta
  end.

(** The two blocks of [UpdateTable] either return from the callback early
    with an error or go on with the builder. *)
Inductive flow (A : Type) := returns (err : error) | goes_on (a : A).
Arguments returns {A} err.
Arguments goes_on {A} a.

(** [UpdateTable] implements schema.UpdateFunc. *)
Definition UpdateTable (meta : snowflake.DB) : Callback error :=
  on_data (tfschema.Partial true) ;;;
  id0 <- on_data tfschema.Id ;;
  let '(dbName, schema, table, err) := splitTableID id0 in
  match err with
  | Some _ => ret err
  | None =>
  let builder :=
    snowflake.WithSchema schema (snowflake.WithDB dbName (snowflake.Table table)) in
  let db := meta in
  changed <- on_data (tfschema.HasChange "name") ;;
  renamed <-
    (if changed then
       '(_, name) <- on_data (tfschema.GetChange "name") ;;
       let '(q, builder) := snowflake.Rename name builder in
       err <- on_db (snowflake.Exec db q) ;;
       match err with
       | Some e =>
           id1 <- on_data tfschema.Id ;;
           ret (returns (Wrapf e "error renaming table %v" [id1]))
       | None =>
           on_data (tfschema.SetId (fmt.Sprintf "%v|%v|%v" [dbName; schema; name])) ;;;
           on_data (tfschema.SetPartial "name") ;;;
           ret (goes_on builder)
       end
     else ret (goes_on builder)) ;;
  match renamed with
  | returns err => ret err
  | goes_on builder =>
  changed <- on_data (tfschema.HasChange "comment") ;;
  commented <-
    (if changed then
       '(_, comment) <- on_data (tfschema.GetChange "comment") ;;
       let c := comment in
       if str_eqb c [] then
         let '(q, builder) := snowflake.RemoveComment builder in
         err <- on_db (snowflake.Exec db q) ;;
         match err with
         | Some e =>
             id1 <- on_data tfschema.Id ;;
             ret (returns (Wrapf e "error unsetting comment for table %v" [id1]))
         | None =>
             on_data (tfschema.SetPartial "comment") ;;;
             ret (goes_on builder)
         end
       else
         let '(q, builder) := snowflake.ChangeComment c builder in
         err <- on_db (snowflake.Exec db q) ;;
         match err with
         | Some e =>
             id1 <- on_data tfschema.Id ;;
             ret (returns (Wrapf e "error updating comment for table %v" [id1]))
         | None =>
             on_data (tfschema.SetPartial "comment") ;;;
             ret (goes_on builder)
         end
     else ret (goes_on builder)) ;;
  match commented with
  | returns err => ret err
  | goes_on _ => ReadTable meta
  end
  end
  end.

(** [DeleteTable] implements schema.DeleteFunc. *)
Definition DeleteTable (meta : snowflake.DB) : Callback error :=
  let db := meta in
  id0 <- on_data tfschema.Id ;;
  let '(dbName, schema, table, err) := splitTableID id0 in
  match err with
  | Some _ => ret err
  | None =>
  let q := returned snowflake.Drop
             (snowflake.WithSchema schema
                (snowflake.WithDB dbName (snowflake.Table table))) in
  err <- on_db (snowflake.Exec db q) ;;
  match err with
  | Some e =>
      id1 <- on_data tfschema.Id ;;
      ret (Wrapf e "error deleting table %v" [id1])
  | None =>
      on_data (tfschema.SetId []) ;;;
      ret None
  end
  end.

(** [TableExists] implements schema.ExistsFunc.  The deferred [rows.Close()]
    runs when the function returns. *)
Definition TableExists
  (answer_rows : snowflake.DB -> snowflake.Sent -> gostring -> sql.Rows * error)
  (meta : snowflake.DB) : Callback (bool * error) :=
  let db := meta in
  id0 <- on_data tfschema.Id ;;
  let '(dbName, schema, table, err) := splitTableID id0 in
  match err with
  | Some _ => ret (false, err)
  | None =>
  let q := returned snowflake.Show
             (snowflake.WithSchema schema
                (snowflake.WithDB dbName (snowflake.Table table))) in
  '(rows, err) <- on_db (sql.Query answer_rows db q) ;;
  match err with
  | Some _ => ret (false, err)
  | None =>
  let '(more, rows) := sql.Next rows in
  let '(_, rows) := sql.Close rows in
  if more then ret (true, None) else ret (false, None)
  end
  end.

End resources.

(* ================================================================== *)
(** * The vocabulary of the statements *)

(** [quoted s] is [s] between double quotes. *)
Definition quoted (s : gostring) : gostring := [dq] ++ s ++ [dq].

(** Builders that differ in the name only. *)
Definition renamed_to (n : gostring) (vb : snowflake.TableBuilder) :
  snowflake.TableBuilder :=
  snowflake.mkTableBuilder n (snowflake.db vb) (snowflake.schema vb)
                           (snowflake.comment vb).

(** The number of bytes of [s] equal to [c]. *)
Fixpoint occurrences (c : byte) (s : gostring) : nat :=
  match s with
  | [] => O
  | b :: s' => ((if Byte.eqb b c then 1 else 0) + occurrences c s')%nat
  end.

(** The pieces put together again, with [c] between them. *)
Fixpoint joined (c : byte) (pieces : list gostring) : gostring :=
  match pieces with
  | [] => []
  | [p] => p
  | p :: rest => p ++ c :: joined c rest
  end.

(** [s] without its leading runes that satisfy [f], taken off one by one;
    [fuel] bounds their number. *)
Fixpoint without_leading (f : utf8.rune -> bool) (fuel : nat) (s : gostring) :
  gostring :=
  match fuel, s with
  | S k, _ :: _ =>
      let '(r, wid) := utf8.DecodeRuneInString s in
      if f r then without_leading f k (utf8.slice_from s wid) else s
  | _, _ => s
  end.

(** [s] without its trailing runes that satisfy [f], taken off one by one
    from the end. *)
Fixpoint without_trailing (f : utf8.rune -> bool) (fuel : nat) (s : gostring) :
  gostring :=
  match fuel, s with
  | S k, _ :: _ =>
      let '(r, size) := utf8.DecodeLastRuneInString s in
      if f r then without_trailing f k (utf8.slice s 0 (utf8.len s - size)) else s
  | _, _ => s
  end.

(** A continuation byte: [10xxxxxx]. *)
Definition continuation (v : Z) : bool := (0x80 <=? v) && (v <=? 0xBF).

(** [rest] does not begin with a continuation byte. *)
Definition starts_afresh (rest : gostring) : Prop :=
  match rest with
  | [] => True
  | c :: _ => continuation (byte_val c) = false
  end.

(** [s] begins, or ends, with no rune that satisfies [f]. *)
Definition left_trimmed (f : utf8.rune -> bool) (s : gostring) : Prop :=
  s = [] \/ f (fst (utf8.DecodeRuneInString s)) = false.
Definition right_trimmed (f : utf8.rune -> bool) (s : gostring) : Prop :=
  s = [] \/ f (fst (utf8.DecodeLastRuneInString s)) = false.

(** Every byte of the class [\s] in [s] is a space and stands alone: no
    other byte of the class comes just before it ([after_space] tells
    whether one comes just before [s]). *)
Fixpoint single_spaced (after_space : bool) (s : gostring) : bool :=
  match s with
  | [] => true
  | b :: s' =>
      if regexp.perl_space b
      then Byte.eqb b x20 && negb after_space && single_spaced true s'
      else single_spaced false s'
  end.

(** The capital of an ASCII small letter; any other byte as it is. *)
Definition upper_ascii (b : byte) : byte :=
  match b with
  | x61 => x41 | x62 => x42 | x63 => x43 | x64 => x44 | x65 => x45 | x66 => x46
  | x67 => x47 | x68 => x48 | x69 => x49 | x6a => x4a | x6b => x4b | x6c => x4c
  | x6d => x4d | x6e => x4e | x6f => x4f | x70 => x50 | x71 => x51 | x72 => x52
  | x73 => x53 | x74 => x54 | x75 => x55 | x76 => x56 | x77 => x57 | x78 => x58
  | x79 => x59 | x7a => x5a
  | _ => b
  end.

(** The attributes of a table resource, by their keys. *)
Definition attributes (name database schema comment : gostring) (key : gostring) :
  gostring :=
  if str_eqb key "name" then name
  else if str_eqb key "database" then database
  else if str_eqb key "schema" then schema
  else if str_eqb key "comment" then comment
  else [].

(** The creation of a resource: no prior state, no identifier yet, nothing
    sent over the connection. *)
Definition creation (name database schema comment : gostring) : resources.Run :=
  resources.mkRun
    (tfschema.mkResourceData [] (attributes [] [] [] [])
       (attributes name database schema comment) [] false [])
    (snowflake.mkSent [] []) [].

(** The update of the scenario: the comment of D|PUBLIC|T goes from [old]
    to [new], and nothing else changes. *)
Definition comment_change (old new : gostring) : resources.Run :=
  resources.mkRun
    (tfschema.mkResourceData "D|PUBLIC|T" (attributes "T" "D" "PUBLIC" old)
       (attributes "T" "D" "PUBLIC" new) [] false [])
    (snowflake.mkSent [] []) [].

(** A warehouse that accepts every statement and answers every query with
    the row of table T. *)
Definition obliging_db : snowflake.DB :=
  snowflake.mkDB
    (fun _ _ => None)
    (fun _ _ =>
       snowflake.mkRow
         (fun _ =>
            (snowflake.mkTable (snowflake.mkNullString [] false)
                               (snowflake.mkNullString "T" true)
                               (snowflake.mkNullString "PUBLIC" true)
                               (snowflake.mkNullString "D" true), None))).

(** A call of one of the setters of the builder. *)
Inductive setter :=
| with_db (d : gostring)
| with_schema (s : gostring)
| with_comment (c : gostring).

Definition call (x : setter) (vb : snowflake.TableBuilder) : snowflake.TableBuilder :=
  match x with
  | with_db d => snowflake.WithDB d vb
  | with_schema s => snowflake.WithSchema s vb
  | with_comment c => snowflake.WithComment c vb
  end.

(** A chain of calls [vb.WithDB(d).WithSchema(s)...] on one builder, the first
    call first. *)
Fixpoint chain (calls : list setter) (vb : snowflake.TableBuilder) :
  snowflake.TableBuilder :=
  match calls with
  | [] => vb
  | x :: rest => chain rest (call x vb)
  end.

(** What a call gives for the database, for the schema, for the comment. *)
Definition db_given (x : setter) : option gostring :=
  match x with with_db d => Some d | _ => None end.
Definition schema_given (x : setter) : option gostring :=
  match x with with_schema s => Some s | _ => None end.
Definition comment_given (x : setter) : option gostring :=
  match x with with_comment c => Some c | _ => None end.

(** The value that the last call of a kind gives, or [start] when the chain
    holds no call of the kind. *)
Fixpoint last_given (kind : setter -> option gostring) (calls : list setter)
  (start : gostring) : gostring :=
  match calls with
  | [] => start
  | x :: rest =>
      last_given kind rest (match kind x with Some v => v | None => start end)
  end.

(** A warehouse that refuses every statement. *)
Definition refusing_db : snowflake.DB :=
  snowflake.mkDB (fun _ _ => Some "denied") (snowflake.answer_query obliging_db).

(** The update of the table [name] of the schema PUBLIC of the database D:
    to the name [name'], and from the comment [c] to the comment [c']. *)
Definition update (name name' c c' : gostring) : resources.Run :=
  resources.mkRun
    (tfschema.mkResourceData ("D|PUBLIC|" ++ name) (attributes name "D" "PUBLIC" c)
       (attributes name' "D" "PUBLIC" c') [] false [])
    (snowflake.mkSent [] []) [].

(** A result of one row, read by [db.Query]. *)
Definition one_row (_ : snowflake.DB) (_ : snowflake.Sent) (_ : gostring) :
  sql.Rows * error :=
  (sql.mkRows [snowflake.answer_query obliging_db (snowflake.mkSent [] []) []] false,
   None).

(** A byte of ASCII. *)
Definition is_ascii (b : byte) : bool := byte_val b <? utf8.RuneSelf.

(** The whitespace of the regular expression, the class [\s], as a class of
    runes. *)
Definition perl_space_rune (r : utf8.rune) : bool :=
  (r =? 0x09) || (r =? 0x0A) || (r =? 0x0C) || (r =? 0x0D) || (r =? 0x20).

(** Collapse every run of characters of a class to a single space, rune by
    rune; [in_run] tells that the characters just before belong to a run
    already collapsed, and [fuel] bounds the number of runes. *)
Fixpoint collapse_runs (class : utf8.rune -> bool) (fuel : nat) (in_run : bool)
  (s : gostring) : gostring :=
  match fuel, s with
  | S k, _ :: _ =>
      let '(r, wid) := utf8.DecodeRuneInString s in
      if class r then
        (if in_run then [] else " ")
        ++ collapse_runs class k true (utf8.slice_from s wid)
      else
        utf8.slice s 0 wid ++ collapse_runs class k false (utf8.slice_from s wid)
  | _, _ => []
  end.

(** Trim the leading and the trailing characters of a class. *)
Definition trim_runs (class : utf8.rune -> bool) (s : gostring) : gostring :=
  let t := without_leading class (length s) s in
  without_trailing class (length t) t.

(** [normalize] in the words of the specification: collapse any run of
    whitespace characters to a single space, then trim leading and trailing
    whitespace.  [collapsed] and [trimmed] are the classes of characters
    taken for whitespace in the two steps; the specification has one word
    for both. *)
Definition normalize_as_specified (collapsed trimmed : utf8.rune -> bool)
  (s : gostring) : gostring :=
  trim_runs trimmed (collapse_runs collapsed (length s) false s).

(* ================================================================== *)
(** * Tactics *)

(** Flatten nested concatenations so that both sides of an equation between
    statements read the same. *)
Ltac flatten_app :=
  unfold quoted; repeat (rewrite <- ?app_assoc; simpl); try reflexivity.

(** Case analysis on the condition of a conditional of the goal. *)
Ltac case_if :=
  match goal with
  | |- context [if ?c then _ else _] => destruct c eqn:?
  end.

(* ================================================================== *)
(** * Facts about strings *)

Lemma str_eqb_refl (s : gostring) : str_eqb s s = true.
Proof.
  induction s as [|a s IH]; simpl; [reflexivity|].
  rewrite IH, andb_true_r. now destruct a.
Qed.

(* ================================================================== *)
(** * The statements of the table builder *)

Lemma str_eqb_nil_l (s : gostring) : str_eqb s [] = true <-> s = [].
Proof. destruct s; simpl; split; congruence. Qed.

Section Builder.

Import snowflake.

Variable vb : TableBuilder.

Lemma QualifiedName_after : after QualifiedName vb = vb.
Proof. reflexivity. Qed.

(** The qualified name, by the emptiness of the database and of the schema. *)
Lemma QualifiedName_returned :
  returned QualifiedName vb =
  match db vb, schema vb with
  | _ :: _, _ :: _ => quoted (db vb) ++ "." ++ quoted (schema vb) ++ "." ++ quoted (name vb)
  | _ :: _, [] => quoted (db vb) ++ ".." ++ quoted (name vb)
  | [], _ :: _ => quoted (schema vb) ++ "." ++ quoted (name vb)
  | [], [] => quoted (name vb)
  end.
Proof.
  destruct vb as [n d s c]; unfold returned; simpl.
  destruct d, s; simpl; flatten_app.
Qed.

End Builder.

(** C1: [QualifiedName] returns one of four shapes, chosen by which of the
    database and the schema are not empty: ["db"."schema"."name"] when both
    are set, ["db".."name"] when only the database is, ["schema"."name"]
    when only the schema is (a single dot), and ["name"] when neither is. *)
Theorem QualifiedName_four_shapes (vb : snowflake.TableBuilder) :
  let d := snowflake.db vb in
  let s := snowflake.schema vb in
  let n := snowflake.name vb in
  let q := returned snowflake.QualifiedName vb in
  (d <> [] -> s <> [] -> q = quoted d ++ "." ++ quoted s ++ "." ++ quoted n) /\
  (d <> [] -> s = [] -> q = quoted d ++ ".." ++ quoted n) /\
  (d = [] -> s <> [] -> q = quoted s ++ "." ++ quoted n) /\
  (d = [] -> s = [] -> q = quoted n).
Proof.
  intros d s n q. subst q. rewrite QualifiedName_returned.
  fold d s n.
  destruct d, s; (split; [|split; [|split]]); intros; congruence.
Qed.

(** The four shapes on the builders for table T, database D, schema S. *)
Lemma QualifiedName_four_shapes_witness :
  returned snowflake.QualifiedName (snowflake.mkTableBuilder "T" "D" "S" [])
    = quoted "D" ++ "." ++ quoted "S" ++ "." ++ quoted "T" /\
  returned snowflake.QualifiedName (snowflake.mkTableBuilder "T" "D" [] [])
    = quoted "D" ++ ".." ++ quoted "T" /\
  returned snowflake.QualifiedName (snowflake.mkTableBuilder "T" [] "S" [])
    = quoted "S" ++ "." ++ quoted "T" /\
  returned snowflake.QualifiedName (snowflake.mkTableBuilder "T" [] [] [])
    = quoted "T".
Proof.
  split; [|split; [|split]].
  - apply (QualifiedName_four_shapes (snowflake.mkTableBuilder "T" "D" "S" []));
      simpl; discriminate.
  - apply (QualifiedName_four_shapes (snowflake.mkTableBuilder "T" "D" [] []));
      simpl; [discriminate | reflexivity].
  - apply (QualifiedName_four_shapes (snowflake.mkTableBuilder "T" [] "S" []));
      simpl; [reflexivity | discriminate].
  - apply (QualifiedName_four_shapes (snowflake.mkTableBuilder "T" [] [] []));
      reflexivity.
Defined.

(** C4: [Create] returns [CREATE OR REPLACE TABLE], the qualified name and
    the placeholder column, followed by [ COMMENT = '<c>'] exactly when the
    comment of the builder is not empty. *)
Theorem Create_statement (vb : snowflake.TableBuilder) :
  let c := snowflake.comment vb in
  let base := "CREATE OR REPLACE TABLE " ++ returned snowflake.QualifiedName vb
              ++ "(placeholder varchar(100))" in
  (c <> [] -> returned snowflake.Create vb = base ++ " COMMENT = '" ++ c ++ "'") /\
  (c = [] -> returned snowflake.Create vb = base).
Proof.
  intros c base. subst c base.
  destruct vb as [n d s c]; unfold returned; simpl.
  destruct c as [|b c]; (split; [intros H | intros H]); try congruence; simpl.
  - flatten_app.
  - flatten_app.
Qed.

(** [Create] with the comment [hi] and with no comment. *)
Lemma Create_statement_witness :
  returned snowflake.Create (snowflake.mkTableBuilder "T" "D" "PUBLIC" "hi")
    = "CREATE OR REPLACE TABLE " ++ quoted "D" ++ "." ++ quoted "PUBLIC" ++ "."
      ++ quoted "T" ++ "(placeholder varchar(100)) COMMENT = 'hi'" /\
  returned snowflake.Create (snowflake.mkTableBuilder "T" "D" "PUBLIC" [])
    = "CREATE OR REPLACE TABLE " ++ quoted "D" ++ "." ++ quoted "PUBLIC" ++ "."
      ++ quoted "T" ++ "(placeholder varchar(100))".
Proof.
  split.
  - apply (proj1 (Create_statement (snowflake.mkTableBuilder "T" "D" "PUBLIC" "hi"))).
    simpl; discriminate.
  - apply (proj2 (Create_statement (snowflake.mkTableBuilder "T" "D" "PUBLIC" []))).
    reflexivity.
Defined.

(** C5: [Rename] returns [ALTER TABLE <old> RENAME TO <new>], where [<old>]
    is the qualified name under the name held before the call and [<new>]
    the one under [newName]; afterwards the builder holds [newName], and
    every later call of [QualifiedName] on it returns the new qualified
    name. *)
Theorem Rename_statement (vb : snowflake.TableBuilder) (newName : gostring) :
  returned (snowflake.Rename newName) vb
    = "ALTER TABLE " ++ returned snowflake.QualifiedName vb ++ " RENAME TO "
      ++ returned snowflake.QualifiedName (renamed_to newName vb) /\
  snowflake.name (after (snowflake.Rename newName) vb) = newName /\
  forall k : nat,
    returned snowflake.QualifiedName
      (Nat.iter k (after snowflake.QualifiedName) (after (snowflake.Rename newName) vb))
    = returned snowflake.QualifiedName (renamed_to newName vb).
Proof.
  split; [|split].
  - destruct vb as [n d s c]; unfold returned, renamed_to; simpl.
    rewrite app_nil_r. reflexivity.
  - reflexivity.
  - intros k. induction k as [|k IH]; simpl.
    + reflexivity.
    + rewrite QualifiedName_after. exact IH.
Qed.

(** C6: [Show] returns [SHOW TABLES LIKE '<name>'] when the database is
    empty and adds [ IN DATABASE "<database>"] otherwise; the schema of the
    builder has no part in it. *)
Theorem Show_statement (vb : snowflake.TableBuilder) :
  let d := snowflake.db vb in
  let n := snowflake.name vb in
  (d = [] -> returned snowflake.Show vb = "SHOW TABLES LIKE '" ++ n ++ "'") /\
  (d <> [] -> returned snowflake.Show vb
              = "SHOW TABLES LIKE '" ++ n ++ "' IN DATABASE " ++ quoted d) /\
  (forall s : gostring,
     returned snowflake.Show (snowflake.WithSchema s vb) = returned snowflake.Show vb).
Proof.
  intros d n. subst d n.
  destruct vb as [n d s c]; unfold returned; simpl.
  split; [|split].
  - intros ->. reflexivity.
  - intros H. destruct d as [|b d]; [congruence|]. simpl. flatten_app.
  - intros s'. destruct d; reflexivity.
Qed.

(** [Show] without and with a database. *)
Lemma Show_statement_witness :
  returned snowflake.Show (snowflake.mkTableBuilder "T" [] "S" [])
    = "SHOW TABLES LIKE 'T'" /\
  returned snowflake.Show (snowflake.mkTableBuilder "T" "D" "S" [])
    = "SHOW TABLES LIKE 'T' IN DATABASE " ++ quoted "D".
Proof.
  split.
  - apply (proj1 (Show_statement (snowflake.mkTableBuilder "T" [] "S" []))).
    reflexivity.
  - apply (proj1 (proj2 (Show_statement (snowflake.mkTableBuilder "T" "D" "S" [])))).
    simpl; discriminate.
Defined.

(** C10: among the operations of the builder, [Rename] alone changes the
    builder, and it changes the name only: the database, the schema and the
    comment are as before; [QualifiedName], [Create], [ChangeComment],
    [RemoveComment], [Show] and [Drop] leave the builder as it was. *)
Theorem only_Rename_mutates (vb : snowflake.TableBuilder) (newName c : gostring) :
  after (snowflake.Rename newName) vb
    = snowflake.mkTableBuilder newName (snowflake.db vb) (snowflake.schema vb)
                               (snowflake.comment vb) /\
  after snowflake.QualifiedName vb = vb /\
  after snowflake.Create vb = vb /\
  after (snowflake.ChangeComment c) vb = vb /\
  after snowflake.RemoveComment vb = vb /\
  after snowflake.Show vb = vb /\
  after snowflake.Drop vb = vb.
Proof.
  destruct vb as [n d s c0].
  split; [reflexivity|].
  split; [reflexivity|].
  split; [reflexivity|].
  split; [reflexivity|].
  split; [reflexivity|].
  split; [|reflexivity].
  unfold after; simpl. destruct d; reflexivity.
Qed.

(* ================================================================== *)
(** * Splitting at a one-byte separator *)

Lemma byte_eqb_refl (b : byte) : Byte.eqb b b = true.
Proof. now apply byte_dec_lb. Qed.

Lemma slice_prefix (s : gostring) (k : nat) :
  utf8.slice s 0 (Z.of_nat k) = firstn k s.
Proof.
  unfold utf8.slice. rewrite Z.sub_0_r, Nat2Z.id. reflexivity.
Qed.

Lemma slice_from_suffix (s : gostring) (k : nat) :
  utf8.slice_from s (Z.of_nat k) = skipn k s.
Proof. unfold utf8.slice_from. now rewrite Nat2Z.id. Qed.

Section OneByteSeparator.

Variable c : byte.

Lemma occurrences_app (s t : gostring) :
  occurrences c (s ++ t) = (occurrences c s + occurrences c t)%nat.
Proof. induction s as [|b s IH]; simpl; [reflexivity | rewrite IH; lia]. Qed.

Lemma occurrences_le_length (s : gostring) : (occurrences c s <= length s)%nat.
Proof. induction s as [|b s IH]; simpl; [lia | destruct (Byte.eqb b c); lia]. Qed.

Lemma Index_cons (b : byte) (s : gostring) :
  strings.Index (b :: s) [c] =
  if Byte.eqb b c then 0
  else if strings.Index s [c] <? 0 then -1 else strings.Index s [c] + 1.
Proof. simpl. rewrite andb_true_r. reflexivity. Qed.

(** [Index] finds the first [c]: the bytes before it hold none. *)
Lemma Index_first (s : gostring) :
  (occurrences c s = O /\ strings.Index s [c] = -1) \/
  (exists pre post, s = pre ++ c :: post /\ occurrences c pre = O /\
                    strings.Index s [c] = Z.of_nat (length pre)).
Proof.
  induction s as [|b s IH].
  - left. split; reflexivity.
  - rewrite Index_cons. simpl occurrences.
    destruct (Byte.eqb b c) eqn:Hb.
    + right. exists [], s. apply byte_dec_bl in Hb. subst b.
      repeat split.
    + destruct IH as [[H0 Hi] | (pre & post & Hs & H0 & Hi)].
      * left. rewrite Hi. split; [exact H0 | reflexivity].
      * right. exists (b :: pre), post. rewrite Hi. subst s. simpl. rewrite Hb.
        split; [reflexivity | split; [exact H0 |]].
        destruct (Z.of_nat (length pre) <? 0) eqn:E; lia.
Qed.

Lemma skipn_past (pre post : gostring) :
  skipn (length pre + 1) (pre ++ c :: post) = post.
Proof.
  rewrite skipn_app, skipn_all2 by lia.
  replace (length pre + 1 - length pre)%nat with 1%nat by lia. reflexivity.
Qed.

Lemma count_loop_S (fuel : nat) (s : gostring) :
  strings.count_loop (S fuel) s [c] =
  if strings.Index s [c] =? -1 then 0
  else 1 + strings.count_loop fuel
             (utf8.slice_from s (strings.Index s [c] + utf8.len [c])) [c].
Proof. reflexivity. Qed.

(** [Count] of a one-byte separator is the number of its occurrences. *)
Lemma count_loop_occurrences (fuel : nat) (s : gostring) :
  (length s <= fuel)%nat ->
  strings.count_loop fuel s [c] = Z.of_nat (occurrences c s).
Proof.
  revert s. induction fuel as [|fuel IH]; intros s Hlen.
  - destruct s; [reflexivity | simpl in Hlen; lia].
  - rewrite count_loop_S.
    destruct (Index_first s) as [[H0 Hi] | (pre & post & Hs & H0 & Hi)].
    + rewrite Hi, H0. reflexivity.
    + rewrite Hi.
      replace (Z.of_nat (length pre) =? -1) with false by (symmetry; lia).
      replace (Z.of_nat (length pre) + utf8.len [c]) with (Z.of_nat (length pre + 1))
        by (unfold utf8.len; simpl length; lia).
      rewrite slice_from_suffix. subst s. rewrite skipn_past.
      rewrite length_app in Hlen. simpl in Hlen.
      rewrite IH by lia.
      rewrite occurrences_app, H0. simpl occurrences. rewrite byte_eqb_refl. lia.
Qed.

Lemma Count_occurrences (s : gostring) :
  strings.Count s [c] = Z.of_nat (occurrences c s).
Proof. unfold strings.Count. now apply count_loop_occurrences. Qed.

(** Cutting [s] at its [n] occurrences of [c] gives [n + 1] pieces that hold
    no [c] and that make up [s] when joined with [c]. *)
Lemma genSplit_loop_pieces (n : nat) (s : gostring) :
  occurrences c s = n ->
  let pieces := strings.genSplit_loop n s [c] in
  length pieces = S n /\ joined c pieces = s /\
  Forall (fun p => occurrences c p = O) pieces.
Proof.
  revert s. induction n as [|n IH]; intros s Hn; cbn [strings.genSplit_loop].
  - split; [reflexivity | split; [reflexivity|]].
    constructor; [exact Hn | constructor].
  - destruct (Index_first s) as [[H0 Hi] | (pre & post & Hs & H0 & Hi)];
      [lia|].
    rewrite Hi.
    replace (Z.of_nat (length pre) <? 0) with false by (symmetry; lia).
    replace (Z.of_nat (length pre) + utf8.len [c]) with (Z.of_nat (length pre + 1))
      by (unfold utf8.len; simpl length; lia).
    rewrite slice_prefix, slice_from_suffix. subst s. rewrite skipn_past.
    rewrite firstn_app, firstn_all, Nat.sub_diag, app_nil_r.
    rewrite occurrences_app, H0 in Hn. simpl in Hn. rewrite byte_eqb_refl in Hn.
    destruct (IH post ltac:(lia)) as (Hlen & Hjoin & Hall).
    split; [simpl; now rewrite Hlen|].
    split; [|constructor; assumption].
    cbn [joined].
    destruct (strings.genSplit_loop n post [c]) eqn:E; [discriminate|].
    now rewrite Hjoin.
Qed.

Lemma Split_pieces (s : gostring) :
  let pieces := strings.Split s [c] in
  length pieces = S (occurrences c s) /\ joined c pieces = s /\
  Forall (fun p => occurrences c p = O) pieces.
Proof.
  unfold strings.Split. rewrite Count_occurrences, Nat2Z.id.
  now apply genSplit_loop_pieces.
Qed.

End OneByteSeparator.

(* ================================================================== *)
(** * Composite identifiers *)

Lemma splitTableID_Split (v : gostring) :
  resources.splitTableID v =
  match strings.Split v "|" with
  | [a; b; c] => (a, b, c, None)
  | _ => ([], [], [], fmt.Errorf "ID %v is invalid" [v])
  end.
Proof.
  unfold resources.splitTableID.
  destruct (strings.Split v "|") as [|a [|b [|c [|d l]]]]; try reflexivity.
  cbn [length].
  replace (Z.of_nat (S (S (S (S (length l))))) =? 3) with false
    by (symmetry; apply Z.eqb_neq; lia).
  reflexivity.
Qed.

(** C3: the identifier [D|S|T] that [CreateTable] builds for the database D,
    the schema S and the table T is decoded by [splitTableID] to exactly
    (D, S, T) with no error; and [splitTableID] returns an error for every
    string that does not hold exactly two [|]. *)
Theorem splitTableID_round_trip :
  fmt.Sprintf "%v|%v|%v" ["D"; "S"; "T"] = "D|S|T" /\
  tfschema.id (resources.data
                 (after (resources.CreateTable obliging_db) (creation "T" "D" "S" [])))
    = "D|S|T" /\
  resources.splitTableID (fmt.Sprintf "%v|%v|%v" ["D"; "S"; "T"])
    = ("D", "S", "T", None) /\
  forall v : gostring,
    occurrences "|" v <> 2%nat ->
    resources.splitTableID v = ([], [], [], fmt.Errorf "ID %v is invalid" [v]) /\
    fmt.Errorf "ID %v is invalid" [v] <> None.
Proof.
  split; [reflexivity | split; [reflexivity | split; [reflexivity|]]].
  intros v Hv. split; [|discriminate].
  rewrite splitTableID_Split.
  destruct (Split_pieces "|" v) as (Hlen & _ & _).
  destruct (strings.Split v "|") as [|a [|b [|c [|d l]]]]; try reflexivity.
  simpl in Hlen. congruence.
Qed.

(** Identifiers with one and with three separators are refused. *)
Lemma splitTableID_round_trip_witness :
  resources.splitTableID "D|S" = ([], [], [], Some "ID D|S is invalid") /\
  resources.splitTableID "D|S|T|U" = ([], [], [], Some "ID D|S|T|U is invalid").
Proof.
  split.
  - apply (proj2 (proj2 (proj2 splitTableID_round_trip)) "D|S"). simpl. lia.
  - apply (proj2 (proj2 (proj2 splitTableID_round_trip)) "D|S|T|U"). simpl. lia.
Defined.

(** C9: [splitTableID] checks the number of segments and nothing else: a
    string with exactly two [|] is decoded without error to the three
    segments between them as they are, empty or not; [||] is decoded to
    three empty strings. *)
Theorem splitTableID_checks_count_only :
  (forall v : gostring,
     occurrences "|" v = 2%nat ->
     exists a b c : gostring,
       v = a ++ "|" ++ b ++ "|" ++ c /\
       occurrences "|" a = O /\ occurrences "|" b = O /\ occurrences "|" c = O /\
       resources.splitTableID v = (a, b, c, None)) /\
  resources.splitTableID "||" = ([], [], [], None).
Proof.
  split; [|reflexivity].
  intros v Hv. rewrite splitTableID_Split.
  destruct (Split_pieces "|" v) as (Hlen & Hjoin & Hall).
  rewrite Hv in Hlen.
  destruct (strings.Split v "|") as [|a [|b [|c [|d l]]]]; try discriminate.
  exists a, b, c.
  inversion Hall as [|? ? Ha Hall1]; subst.
  inversion Hall1 as [|? ? Hb Hall2]; subst.
  inversion Hall2 as [|? ? Hc _]; subst.
  repeat (split; [assumption || reflexivity|]).
  reflexivity.
Qed.

(** Identifiers whose segments are partly or all empty are accepted. *)
Lemma splitTableID_checks_count_only_witness :
  (exists a b c : gostring,
     "|PUBLIC|" = a ++ "|" ++ b ++ "|" ++ c /\
     occurrences "|" a = O /\ occurrences "|" b = O /\ occurrences "|" c = O /\
     resources.splitTableID "|PUBLIC|" = (a, b, c, None)) /\
  resources.splitTableID "|PUBLIC|" = ([], "PUBLIC", [], None).
Proof.
  split.
  - apply (proj1 splitTableID_checks_count_only "|PUBLIC|"). reflexivity.
  - reflexivity.
Defined.

(* ================================================================== *)
(** * The update callback *)

Lemma str_eqb_eq (s t : gostring) : str_eqb s t = true <-> s = t.
Proof.
  split; [|intros ->; apply str_eqb_refl].
  revert t. induction s as [|a s IH]; intros [|b t]; simpl; try discriminate.
  - reflexivity.
  - intros H. apply andb_prop in H. destruct H as [Hab Hst].
    apply byte_dec_bl in Hab. apply IH in Hst. congruence.
Qed.

Lemma str_eqb_neq (s t : gostring) : s <> t -> str_eqb s t = false.
Proof.
  intros H. destruct (str_eqb s t) eqn:E; [|reflexivity].
  apply str_eqb_eq in E. contradiction.
Qed.

(** [ReadTable] sends a query at most; it runs no statement. *)
Lemma ReadTable_runs_no_statement (meta : snowflake.DB) (run : resources.Run) :
  snowflake.execs (resources.sent (after (resources.ReadTable meta) run))
  = snowflake.execs (resources.sent run).
Proof.
  destruct run as [d snt lg].
  unfold after, resources.ReadTable, bind, resources.on_data, resources.on_db,
    tfschema.Id, snowflake.QueryRow, ret. cbn [resources.data resources.sent
    resources.logged].
  destruct (resources.splitTableID (tfschema.id d)) as [[[dbName sch] tbl] [e|]];
    [reflexivity|].
  cbn [resources.data resources.sent resources.logged snowflake.execs].
  destruct (snowflake.ScanTable _) as [v [e|]]; [reflexivity|].
  reflexivity.
Qed.

(** The creation of table T in database D and schema PUBLIC with the comment
    [hi]: one statement is executed, and the resource gets the identifier
    D|PUBLIC|T. *)
Example CreateTable_scenario :
  let done := after (resources.CreateTable obliging_db) (creation "T" "D" "PUBLIC" "hi") in
  snowflake.execs (resources.sent done)
    = ["CREATE OR REPLACE TABLE " ++ quoted "D" ++ "." ++ quoted "PUBLIC" ++ "."
       ++ quoted "T" ++ "(placeholder varchar(100)) COMMENT = 'hi'"] /\
  tfschema.id (resources.data done) = "D|PUBLIC|T".
Proof. split; reflexivity. Qed.

Lemma splitTableID_D_PUBLIC_T :
  resources.splitTableID "D|PUBLIC|T" = ("D", "PUBLIC", "T", None).
Proof. reflexivity. Qed.

(** C8: when [UpdateTable] runs on the resource D|PUBLIC|T with the name
    unchanged and the comment changed, it executes exactly one statement and
    no rename: [ALTER TABLE "D"."PUBLIC"."T" UNSET COMMENT] when the new
    comment is empty (as from [hi] to the empty string), and the matching
    [SET COMMENT] statement when it is not. *)
Theorem UpdateTable_comment_only (meta : snowflake.DB) (run : resources.Run) :
  let d := resources.data run in
  let c := tfschema.planned d "comment" in
  let executed :=
    snowflake.execs (resources.sent (after (resources.UpdateTable meta) run)) in
  tfschema.id d = "D|PUBLIC|T" ->
  tfschema.prior d "name" = tfschema.planned d "name" ->
  tfschema.prior d "comment" <> c ->
  (c = [] ->
   executed = snowflake.execs (resources.sent run)
     ++ ["ALTER TABLE " ++ quoted "D" ++ "." ++ quoted "PUBLIC" ++ "." ++ quoted "T"
         ++ " UNSET COMMENT"]) /\
  (c <> [] ->
   executed = snowflake.execs (resources.sent run)
     ++ ["ALTER TABLE " ++ quoted "D" ++ "." ++ quoted "PUBLIC" ++ "." ++ quoted "T"
         ++ " SET COMMENT = '" ++ c ++ "'"]).
Proof.
  intros d c executed Hid Hname Hcomment. subst executed c d.
  destruct run as [d snt lg]. destruct d as [i pr pl ws pa pk].
  cbn [resources.data tfschema.id tfschema.prior tfschema.planned] in *. subst i.
  unfold after, resources.UpdateTable, bind, resources.on_data, resources.on_db,
    ret, tfschema.Partial, tfschema.Id, tfschema.HasChange, tfschema.GetChange,
    tfschema.SetPartial, snowflake.Exec, bind, ret.
  cbn [resources.data resources.sent resources.logged tfschema.id tfschema.prior
       tfschema.planned fst snd].
  rewrite splitTableID_D_PUBLIC_T.
  cbn [resources.data resources.sent resources.logged tfschema.id tfschema.prior
       tfschema.planned fst snd].
  rewrite Hname, str_eqb_refl. cbn [negb].
  cbn [resources.data resources.sent resources.logged tfschema.id tfschema.prior
       tfschema.planned fst snd].
  rewrite (str_eqb_neq Hcomment). cbn [negb].
  cbn [resources.data resources.sent resources.logged tfschema.id tfschema.prior
       tfschema.planned fst snd].
  pose proof (ReadTable_runs_no_statement meta) as Hread. unfold after in Hread.
  split; intros Hc.
  - rewrite Hc. cbn -[resources.ReadTable].
    destruct (snowflake.answer_exec meta snt _) as [e|].
    + reflexivity.
    + rewrite Hread. reflexivity.
  - destruct (pl "comment") as [|b c] eqn:Epl; [congruence|].
    cbn -[resources.ReadTable].
    destruct (snowflake.answer_exec meta snt _) as [e|].
    + cbn. reflexivity.
    + rewrite Hread. cbn. reflexivity.
Qed.

(** The scenario itself: from [hi] to the empty comment, and from [hi] to
    [ho]. *)
Lemma UpdateTable_comment_only_witness :
  snowflake.execs
    (resources.sent (after (resources.UpdateTable obliging_db) (comment_change "hi" [])))
  = ["ALTER TABLE " ++ quoted "D" ++ "." ++ quoted "PUBLIC" ++ "." ++ quoted "T"
     ++ " UNSET COMMENT"] /\
  snowflake.execs
    (resources.sent (after (resources.UpdateTable obliging_db) (comment_change "hi" "ho")))
  = ["ALTER TABLE " ++ quoted "D" ++ "." ++ quoted "PUBLIC" ++ "." ++ quoted "T"
     ++ " SET COMMENT = 'ho'"].
Proof.
  split.
  - apply (UpdateTable_comment_only obliging_db (comment_change "hi" []));
      [reflexivity | reflexivity | simpl; discriminate | reflexivity].
  - apply (UpdateTable_comment_only obliging_db (comment_change "hi" "ho"));
      [reflexivity | reflexivity | simpl; discriminate | simpl; discriminate].
Defined.

(* ================================================================== *)
(** * Decoding runes *)

Lemma IsSpace_RuneError : unicode.IsSpace utf8.RuneError = false.
Proof. reflexivity. Qed.

Lemma len_nonneg (s : gostring) : 0 <= utf8.len s.
Proof. unfold utf8.len. lia. Qed.

Lemma len_app (s t : gostring) : utf8.len (s ++ t) = utf8.len s + utf8.len t.
Proof. unfold utf8.len. rewrite length_app. lia. Qed.

Lemma len_cons (b : byte) (s : gostring) : utf8.len (b :: s) = 1 + utf8.len s.
Proof. unfold utf8.len. simpl length. lia. Qed.

Lemma at_app (u v : gostring) (i : nat) :
  Z.of_nat i < utf8.len u -> utf8.at_ (u ++ v) i = utf8.at_ u i.
Proof.
  unfold utf8.len, utf8.at_. intros H. rewrite app_nth1 by lia. reflexivity.
Qed.

(** A leading byte that is neither ASCII nor invalid announces an encoding
    of two to four bytes. *)
Lemma first_size (b : Z) :
  (utf8.as_ <=? utf8.first b) = false -> 2 <= Z.land (utf8.first b) 7 <= 4.
Proof.
  unfold utf8.first. repeat case_if; vm_compute; intuition congruence.
Qed.

(** A decoded rune takes at least one byte of a string that is not empty. *)
Lemma DecodeRuneInString_size (s : gostring) :
  s <> [] -> 1 <= snd (utf8.DecodeRuneInString s) <= 4.
Proof.
  intros Hs. unfold utf8.DecodeRuneInString. cbv zeta.
  destruct (utf8.len s <? 1) eqn:E.
  - destruct s; [congruence | rewrite len_cons in E].
    pose proof (len_nonneg s). lia.
  - repeat case_if; cbn [snd]; lia.
Qed.

Section DecodeFacts.

Import utf8.

(** What [DecodeRuneInString] returns for [u] is an error, or it is what it
    returns for every string that begins with [u]. *)
Lemma DecodeRuneInString_prefix (u v : gostring) :
  DecodeRuneInString u = (RuneError, 0) \/
  DecodeRuneInString u = (RuneError, 1) \/
  DecodeRuneInString (u ++ v) = DecodeRuneInString u.
Proof.
  pose proof (len_nonneg v) as Hv. pose proof (len_app u v) as Hlen.
  pose proof (at_app u v) as Hat.
  unfold DecodeRuneInString. cbv zeta.
  destruct (len u <? 1) eqn:E1; [left; reflexivity|]. right.
  replace (len (u ++ v) <? 1) with false by (symmetry; lia).
  rewrite (Hat 0%nat) by lia.
  destruct (as_ <=? first (at_ u 0)) eqn:E2; [right; reflexivity|].
  pose proof (first_size _ E2) as Hsz.
  destruct (len u <? Z.land (first (at_ u 0)) 7) eqn:E3; [left; reflexivity|].
  replace (len (u ++ v) <? Z.land (first (at_ u 0)) 7) with false
    by (symmetry; lia).
  rewrite (Hat 1%nat) by lia.
  case_if; [left; reflexivity|].
  case_if; [right; reflexivity|].
  rewrite (Hat 2%nat) by lia.
  case_if; [left; reflexivity|].
  case_if; [right; reflexivity|].
  rewrite (Hat 3%nat) by lia.
  case_if; [left; reflexivity|].
  right; reflexivity.
Qed.

(** A white space rune is decoded from a valid encoding, which bytes after
    it do not change. *)
Lemma DecodeRuneInString_app (u v : gostring) :
  unicode.IsSpace (fst (utf8.DecodeRuneInString u)) = true ->
  utf8.DecodeRuneInString (u ++ v) = utf8.DecodeRuneInString u.
Proof.
  intros H.
  destruct (DecodeRuneInString_prefix u v) as [E | [E | E]]; [| | exact E];
    rewrite E in H; cbn [fst] in H; rewrite IsSpace_RuneError in H; discriminate.
Qed.

Lemma back_up_le (k : nat) (s : gostring) (start : Z) :
  utf8.back_up k s start <= start.
Proof.
  revert start. induction k as [|k IH]; intros start; simpl; [lia|].
  case_if; [lia|]. specialize (IH (start - 1)). lia.
Qed.

(** The last rune takes at least one byte, and no more than there are. *)
Lemma DecodeLastRuneInString_bounds (s : gostring) :
  s <> [] -> 1 <= snd (DecodeLastRuneInString s) <= len s.
Proof.
  intros Hs. unfold DecodeLastRuneInString. cbv zeta.
  assert (Hlen : 1 <= len s).
  { destruct s; [congruence|]. rewrite len_cons. pose proof (len_nonneg s). lia. }
  replace (len s =? 0) with false by (symmetry; lia).
  case_if; [cbn [snd]; lia|].
  match goal with
  | |- context [back_up ?k s ?st] =>
      pose proof (back_up_le k s st) as Hback; set (start := back_up k s st) in *
  end.
  destruct (DecodeRuneInString _) as [r size].
  destruct (negb _) eqn:E; cbn [snd]; [lia|].
  apply negb_false_iff, Z.eqb_eq in E.
  destruct (start <? 0) eqn:E0; lia.
Qed.

Lemma lead_accept (b : Z) :
  (as_ <=? first b) = false ->
  0x80 <= fst (acceptRanges (Z.shiftr (first b) 4)) /\
  snd (acceptRanges (Z.shiftr (first b) 4)) <= 0xBF.
Proof.
  unfold first. repeat case_if; vm_compute; intuition congruence.
Qed.

Lemma first_continuation (v : Z) : continuation v = true -> first v = xx.
Proof.
  unfold continuation, first. intros H. apply andb_prop in H. destruct H as [H1 H2].
  replace (v <? 0x80) with false by (symmetry; lia).
  replace (v <? 0xC2) with true by (symmetry; lia). reflexivity.
Qed.

Lemma DecodeRuneInString_continuation (s : gostring) :
  s <> [] -> continuation (at_ s 0) = true ->
  DecodeRuneInString s = (RuneError, 1).
Proof.
  intros Hs Hc. unfold DecodeRuneInString. cbv zeta.
  replace (len s <? 1) with false.
  2:{ destruct s; [congruence|]. rewrite len_cons. pose proof (len_nonneg s). lia. }
  rewrite (first_continuation _ Hc).
  change (as_ <=? xx) with true. cbv iota.
  change (Z.shiftr (int32 (Z.shiftl xx 31)) 31) with (-1).
  rewrite Z.ldiff_m1_r. reflexivity.
Qed.

Lemma DecodeRuneInString_ascii (s : gostring) :
  s <> [] -> (at_ s 0 <? RuneSelf) = true ->
  DecodeRuneInString s = (at_ s 0, 1).
Proof.
  intros Hs Hc. unfold DecodeRuneInString. cbv zeta.
  replace (len s <? 1) with false.
  2:{ destruct s; [congruence|]. rewrite len_cons. pose proof (len_nonneg s). lia. }
  unfold first. unfold RuneSelf in Hc. rewrite Hc.
  change (as_ <=? as_) with true. cbv iota.
  change (Z.shiftr (int32 (Z.shiftl as_ 31)) 31) with 0.
  rewrite Z.ldiff_0_r. change (Z.land RuneError 0) with 0. now rewrite Z.lor_0_r.
Qed.

(** A byte past ASCII that no continuation byte follows is decoded alone. *)
Lemma DecodeRuneInString_lone (b : byte) (rest : gostring) :
  (byte_val b <? RuneSelf) = false -> starts_afresh rest ->
  snd (DecodeRuneInString (b :: rest)) = 1.
Proof.
  intros Hb Hrest. unfold DecodeRuneInString. cbv zeta.
  rewrite len_cons. pose proof (len_nonneg rest) as Hlen.
  replace (1 + len rest <? 1) with false by (symmetry; lia).
  change (at_ (b :: rest) 0) with (byte_val b).
  destruct (as_ <=? first (byte_val b)) eqn:E; [reflexivity|].
  pose proof (first_size _ E) as Hsz. pose proof (lead_accept _ E) as [Hlo Hhi].
  case_if; [reflexivity|].
  destruct rest as [|c rest']; [unfold len in *; simpl in *; lia|].
  change (at_ (b :: c :: rest') 1) with (byte_val c).
  cbn [starts_afresh] in Hrest. unfold continuation in Hrest.
  apply andb_false_iff in Hrest.
  replace ((byte_val c <? fst (acceptRanges (Z.shiftr (first (byte_val b)) 4)))
           || (snd (acceptRanges (Z.shiftr (first (byte_val b)) 4)) <? byte_val c))
    with true; [reflexivity|].
  symmetry. apply orb_true_iff. destruct Hrest as [H | H]; [left | right]; lia.
Qed.

Lemma slice_to_end (u : gostring) (start : Z) :
  0 <= start -> slice u start (len u) = skipn (Z.to_nat start) u.
Proof.
  intros H. unfold slice, len. apply firstn_all2. rewrite length_skipn. lia.
Qed.

Lemma at_skipn (u : gostring) (k i : nat) :
  at_ (skipn k u) i = at_ u (k + i).
Proof. unfold at_. now rewrite nth_skipn. Qed.

Lemma skipn_one_left (u : gostring) (k : nat) :
  (S k = length u)%nat -> skipn k u = [nth k u x00].
Proof.
  revert u. induction k as [|k IH]; intros u H.
  - destruct u as [|b [|c u]]; try discriminate. reflexivity.
  - destruct u as [|b u]; [discriminate|]. simpl in H. cbn [skipn nth].
    apply IH. lia.
Qed.

Lemma len_pos (u : gostring) : u <> [] -> 1 <= len u.
Proof.
  destruct u; [congruence|]. intros _. rewrite len_cons.
  pose proof (len_nonneg u). lia.
Qed.

(** [DecodeLastRuneInString], by its three ways out: the last byte is ASCII;
    or the bytes from [start] on decode to one rune that ends with the
    string; or they do not, and the last byte stands alone. *)
Lemma DecodeLastRuneInString_cases (u : gostring) :
  u <> [] ->
  let last := Z.to_nat (len u - 1) in
  ((at_ u last <? RuneSelf) = true /\
   DecodeLastRuneInString u = (at_ u last, 1)) \/
  ((at_ u last <? RuneSelf) = false /\
   DecodeLastRuneInString u = (RuneError, 1)) \/
  ((at_ u last <? RuneSelf) = false /\
   exists start : Z,
     0 <= start < len u /\
     DecodeLastRuneInString u = DecodeRuneInString (skipn (Z.to_nat start) u) /\
     start + snd (DecodeLastRuneInString u) = len u).
Proof.
  intros Hu last. pose proof (len_pos Hu) as Hlen.
  unfold DecodeLastRuneInString. cbv zeta.
  replace (len u =? 0) with false by (symmetry; lia).
  fold last. destruct (at_ u last <? RuneSelf) eqn:Elast; [left; split; reflexivity|].
  right.
  match goal with
  | |- context [back_up ?k u ?st] =>
      pose proof (back_up_le k u st) as Hback; set (b := back_up k u st) in *
  end.
  set (start := if b <? 0 then 0 else b).
  assert (Hstart : 0 <= start < len u) by (subst start; destruct (b <? 0) eqn:E; lia).
  rewrite (slice_to_end u) by lia.
  destruct (DecodeRuneInString (skipn (Z.to_nat start) u)) as [r size] eqn:Edec.
  destruct (negb (start + size =? len u)) eqn:Em; [left; split; reflexivity|].
  right. split; [reflexivity|]. exists start. cbn [snd].
  apply negb_false_iff, Z.eqb_eq in Em.
  split; [exact Hstart | split; [symmetry; exact Edec | exact Em]].
Qed.

(** Decoding forwards the rune that [DecodeLastRuneInString] found gives its
    width again, whatever follows [u], as long as no continuation byte does. *)
Lemma DecodeLastRuneInString_again (u rest : gostring) :
  u <> [] -> starts_afresh rest ->
  let size := snd (DecodeLastRuneInString u) in
  let i := Z.to_nat (len u - size) in
  ((at_ u i <? RuneSelf) = true -> size = 1) /\
  ((at_ u i <? RuneSelf) = false ->
   snd (DecodeRuneInString (skipn i u ++ rest)) = size).
Proof.
  intros Hu Hrest size i. subst size i. pose proof (len_pos Hu) as Hlen.
  assert (Hlone : (at_ u (Z.to_nat (len u - 1)) <? RuneSelf) = false ->
                  snd (DecodeRuneInString (skipn (Z.to_nat (len u - 1)) u ++ rest)) = 1).
  { intros H. rewrite (@skipn_one_left u (Z.to_nat (len u - 1)))
      by (unfold len in *; lia).
    apply DecodeRuneInString_lone; assumption. }
  destruct (DecodeLastRuneInString_cases Hu)
    as [[Ha Hd] | [[Ha Hd] | [Ha (start & Hstart & Hd & Hsum)]]].
  - rewrite Hd. cbn [snd]. split; [reflexivity|]. congruence.
  - rewrite Hd. cbn [snd]. split; [reflexivity | exact Hlone].
  - replace (len u - snd (DecodeLastRuneInString u)) with start by lia.
    rewrite Hd in *.
    set (x := skipn (Z.to_nat start) u) in *.
    assert (Hx : x <> []).
    { intros E. apply (f_equal (@length _)) in E. subst x.
      rewrite length_skipn in E. unfold len in *. simpl in E. lia. }
    assert (Hx0 : at_ x 0 = at_ u (Z.to_nat start)).
    { subst x. rewrite at_skipn. f_equal. lia. }
    assert (Hxlen : len x = len u - start).
    { subst x. unfold len. rewrite length_skipn. unfold len in *. lia. }
    split; intros H0; rewrite <- Hx0 in H0.
    + now rewrite (DecodeRuneInString_ascii Hx H0).
    + destruct (DecodeRuneInString_prefix x rest) as [E | [E | E]].
      * pose proof (DecodeRuneInString_size Hx) as Hs. rewrite E in Hs.
        cbn [snd] in Hs. lia.
      * rewrite E in *. cbn [snd] in *.
        assert (Hone : x = [nth (Z.to_nat start) u x00]).
        { subst x. apply skipn_one_left. unfold len in *. lia. }
        rewrite Hone in *. apply DecodeRuneInString_lone; [|exact Hrest].
        exact H0.
      * now rewrite E.
Qed.

(** A white space rune found by [DecodeLastRuneInString] begins with no
    continuation byte. *)
Lemma DecodeLastRuneInString_space (u : gostring) :
  u <> [] ->
  unicode.IsSpace (fst (DecodeLastRuneInString u)) = true ->
  starts_afresh
    (skipn (Z.to_nat (len u - snd (DecodeLastRuneInString u))) u).
Proof.
  intros Hu Hspace. pose proof (len_pos Hu) as Hlen.
  destruct (DecodeLastRuneInString_cases Hu)
    as [[Ha Hd] | [[Ha Hd] | [Ha (start & Hstart & Hd & Hsum)]]].
  - rewrite Hd. cbn [snd].
    rewrite (@skipn_one_left u (Z.to_nat (len u - 1))) by (unfold len in *; lia).
    cbn [starts_afresh]. unfold continuation. unfold at_, RuneSelf in Ha.
    apply andb_false_iff. left. lia.
  - rewrite Hd in Hspace. cbn [fst] in Hspace. rewrite IsSpace_RuneError in Hspace.
    discriminate.
  - replace (len u - snd (DecodeLastRuneInString u)) with start by lia.
    rewrite Hd in Hspace.
    destruct (skipn (Z.to_nat start) u) as [|c x] eqn:Ex.
    + exact I.
    + cbn [starts_afresh].
      destruct (continuation (byte_val c)) eqn:Ec; [|reflexivity].
      rewrite (@DecodeRuneInString_continuation (c :: x)) in Hspace;
        [| discriminate | exact Ec].
      cbn [fst] in Hspace. rewrite IsSpace_RuneError in Hspace. discriminate.
Qed.

End DecodeFacts.

(* ================================================================== *)
(** * Trimming *)

Section TrimFacts.

Import utf8.

Section StripFacts.

Variable f : utf8.rune -> bool.

Lemma without_leading_suffix (fuel : nat) (s : gostring) :
  exists k : nat, without_leading f fuel s = skipn k s.
Proof.
  revert s. induction fuel as [|fuel IH]; intros s.
  - exists O. destruct s; reflexivity.
  - destruct s as [|b s']; [exists O; reflexivity|].
    cbn [without_leading].
    destruct (utf8.DecodeRuneInString (b :: s')) as [r wid].
    destruct (f r); [|exists O; reflexivity].
    destruct (IH (utf8.slice_from (b :: s') wid)) as [k Hk].
    exists (k + Z.to_nat wid)%nat. rewrite Hk. unfold utf8.slice_from.
    apply skipn_skipn.
Qed.

Lemma without_trailing_prefix (fuel : nat) (s : gostring) :
  exists k : nat, without_trailing f fuel s = firstn k s.
Proof.
  revert s. induction fuel as [|fuel IH]; intros s.
  - exists (length s). now rewrite firstn_all.
  - destruct s as [|b s']; [exists O; reflexivity|].
    cbn [without_trailing].
    destruct (utf8.DecodeLastRuneInString (b :: s')) as [r size].
    destruct (f r); [|exists (length (b :: s')); now rewrite firstn_all].
    destruct (IH (utf8.slice (b :: s') 0 (utf8.len (b :: s') - size))) as [k Hk].
    rewrite Hk. unfold utf8.slice. cbn [Z.to_nat skipn].
    rewrite firstn_firstn. eexists. reflexivity.
Qed.

Lemma without_leading_left_trimmed (s : gostring) :
  left_trimmed f (without_leading f (length s) s).
Proof.
  assert (H : forall fuel s, (length s <= fuel)%nat ->
                left_trimmed f (without_leading f fuel s)).
  { clear s. induction fuel as [|fuel IH]; intros s Hlen.
    - left. destruct s; [reflexivity | simpl in Hlen; lia].
    - destruct s as [|b s']; [left; reflexivity|].
      cbn [without_leading].
      pose proof (@DecodeRuneInString_size (b :: s') ltac:(discriminate)) as Hsize.
      destruct (utf8.DecodeRuneInString (b :: s')) as [r wid] eqn:E.
      destruct (f r) eqn:Ef.
      + apply IH. unfold utf8.slice_from. rewrite length_skipn.
        cbn [snd] in Hsize. simpl length in *. lia.
      + right. rewrite E. exact Ef. }
  now apply H.
Qed.

Lemma without_trailing_right_trimmed (s : gostring) :
  right_trimmed f (without_trailing f (length s) s).
Proof.
  assert (H : forall fuel s, (length s <= fuel)%nat ->
                right_trimmed f (without_trailing f fuel s)).
  { clear s. induction fuel as [|fuel IH]; intros s Hlen.
    - left. destruct s; [reflexivity | simpl in Hlen; lia].
    - destruct s as [|b s']; [left; reflexivity|].
      cbn [without_trailing].
      pose proof (@DecodeLastRuneInString_bounds (b :: s') ltac:(discriminate)) as Hsize.
      destruct (utf8.DecodeLastRuneInString (b :: s')) as [r size] eqn:E.
      destruct (f r) eqn:Ef.
      + apply IH. unfold utf8.slice, utf8.len. cbn [Z.to_nat skipn].
        rewrite length_firstn. cbn [snd] in Hsize. simpl length in *. lia.
      + right. rewrite E. exact Ef. }
  now apply H.
Qed.

Lemma without_leading_fixed (s : gostring) :
  left_trimmed f s -> without_leading f (length s) s = s.
Proof.
  intros [-> | H]; [reflexivity|].
  destruct s as [|b s']; [reflexivity|].
  cbn [length without_leading].
  destruct (utf8.DecodeRuneInString (b :: s')) as [r wid].
  cbn [fst] in H. now rewrite H.
Qed.

Lemma without_trailing_fixed (s : gostring) :
  right_trimmed f s -> without_trailing f (length s) s = s.
Proof.
  intros [-> | H]; [reflexivity|].
  destruct s as [|b s']; [reflexivity|].
  cbn [length without_trailing].
  destruct (utf8.DecodeLastRuneInString (b :: s')) as [r size].
  cbn [fst] in H. now rewrite H.
Qed.


(** The index that [indexFunc] finds, by what is left when the leading runes
    that satisfy [f] are taken off one by one. *)
Lemma indexFunc_loop_strip (fuel : nat) (s : gostring) (i : Z) :
  0 <= i -> (length (skipn (Z.to_nat i) s) <= fuel)%nat ->
  without_leading f fuel (skipn (Z.to_nat i) s)
  = (if strings.indexFunc_loop f fuel s i false =? -1 then []
     else slice_from s (strings.indexFunc_loop f fuel s i false)).
Proof.
  revert i. induction fuel as [|fuel IH]; intros i Hi Hlen.
  - destruct (skipn (Z.to_nat i) s); [reflexivity | simpl in Hlen; lia].
  - cbn [strings.indexFunc_loop].
    destruct (i <? len s) eqn:E.
    + change (slice_from s i) with (skipn (Z.to_nat i) s).
      destruct (skipn (Z.to_nat i) s) as [|b x] eqn:Ex.
      { apply (f_equal (@length _)) in Ex. rewrite length_skipn in Ex.
        unfold len in E. simpl in Ex. lia. }
      cbn [without_leading].
      pose proof (@DecodeRuneInString_size (b :: x) ltac:(discriminate)) as Hsize.
      destruct (DecodeRuneInString (b :: x)) as [r wid]. cbn [snd] in Hsize.
      destruct (f r) eqn:Ef; cbn [Bool.eqb].
      * specialize (IH (i + wid) ltac:(lia)).
        replace (skipn (Z.to_nat (i + wid)) s) with (slice_from (b :: x) wid) in IH.
        2:{ unfold slice_from. rewrite <- Ex, skipn_skipn. f_equal. lia. }
        apply IH. unfold slice_from. rewrite length_skipn. cbn [length] in *. lia.
      * replace (i =? -1) with false by (symmetry; lia).
        unfold slice_from. now rewrite Ex.
    + rewrite skipn_all2; [reflexivity|]. unfold len in E. lia.
Qed.

(** [TrimLeftFunc] returns what is left when the leading runes that satisfy
    [f] are taken off one by one. *)
Lemma TrimLeftFunc_strip (s : gostring) :
  strings.TrimLeftFunc f s = without_leading f (length s) s.
Proof.
  unfold strings.TrimLeftFunc, strings.indexFunc. cbv zeta.
  pose proof (@indexFunc_loop_strip (length s) s 0 ltac:(lia)) as H.
  cbn [Z.to_nat skipn] in H. rewrite H; [reflexivity | lia].
Qed.

End StripFacts.

Lemma starts_afresh_app (l m : gostring) :
  l <> [] -> starts_afresh l -> starts_afresh (l ++ m).
Proof. destruct l; [congruence | trivial]. Qed.

Lemma skipn_firstn_app (s : gostring) (j i : nat) :
  (j <= i)%nat -> (i <= length s)%nat ->
  skipn j s = skipn j (firstn i s) ++ skipn i s.
Proof.
  intros Hji Hi. rewrite <- (firstn_skipn i s) at 1.
  rewrite skipn_app, length_firstn.
  replace (j - Nat.min i (length s))%nat with O by lia. reflexivity.
Qed.

Lemma slice_0 (x : gostring) (z : Z) : slice x 0 z = firstn (Z.to_nat z) x.
Proof. unfold slice. now rewrite Z.sub_0_r. Qed.

Lemma without_trailing_S (f : rune -> bool) (fuel : nat) (x : gostring) :
  x <> [] ->
  without_trailing f (S fuel) x
  = (let '(r, size) := DecodeLastRuneInString x in
     if f r then without_trailing f fuel (slice x 0 (len x - size)) else x).
Proof. destruct x; [congruence | reflexivity]. Qed.

(** The index that [lastIndexFunc] finds, by what is left when the trailing
    white space runes are taken off one by one. *)
Lemma lastIndexFunc_loop_strip (fuel : nat) (s : gostring) (i : Z) :
  0 <= i <= len s -> (Z.to_nat i <= fuel)%nat ->
  starts_afresh (skipn (Z.to_nat i) s) ->
  let u := without_trailing unicode.IsSpace fuel (firstn (Z.to_nat i) s) in
  let r := strings.lastIndexFunc_loop unicode.IsSpace fuel s i false in
  u = firstn (length u) s /\ starts_afresh (skipn (length u) s) /\
  ((u = [] /\ r = -1) \/
   (u <> [] /\ unicode.IsSpace (fst (DecodeLastRuneInString u)) = false /\
    r = len u - snd (DecodeLastRuneInString u))).
Proof.
  revert i. induction fuel as [|fuel IH]; intros i Hi Hfuel Hrest.
  - replace (Z.to_nat i) with O in * by lia. cbn.
    split; [reflexivity | split; [exact Hrest | left; split; reflexivity]].
  - cbn [strings.lastIndexFunc_loop]. cbv zeta.
    destruct (0 <? i) eqn:E.
    + rewrite slice_0.
      remember (firstn (Z.to_nat i) s) as x eqn:Ex.
      assert (Hxlen : len x = i).
      { subst x. unfold len in *. rewrite length_firstn. lia. }
      assert (Hx : x <> []).
      { intros E0. rewrite E0 in Hxlen. unfold len in Hxlen. simpl in Hxlen. lia. }
      pose proof (DecodeLastRuneInString_bounds Hx) as Hsize.
      pose proof (@DecodeLastRuneInString_space x Hx) as Hspace.
      rewrite (without_trailing_S _ _ Hx).
      destruct (DecodeLastRuneInString x) as [r size] eqn:Ed.
      cbn [fst snd] in *.
      destruct (unicode.IsSpace r) eqn:Er; cbn [Bool.eqb].
      * specialize (IH (i - size) ltac:(lia) ltac:(lia)).
        assert (Hcut : slice x 0 (len x - size) = firstn (Z.to_nat (i - size)) s).
        { rewrite slice_0, Hxlen, Ex, firstn_firstn. f_equal. lia. }
        rewrite Hcut. apply IH.
        rewrite (@skipn_firstn_app s (Z.to_nat (i - size)) (Z.to_nat i))
          by (unfold len in *; lia).
        rewrite <- Ex. apply starts_afresh_app.
        -- intros E0. apply (f_equal (@length _)) in E0.
           rewrite length_skipn in E0. unfold len in *. simpl in E0. lia.
        -- rewrite <- Hxlen. apply Hspace. reflexivity.
      * assert (Hlx : length x = Z.to_nat i) by (unfold len in *; lia).
        rewrite Hlx, <- Ex.
        split; [reflexivity | split; [exact Hrest|]].
        right. split; [exact Hx|]. rewrite Ed. cbn [fst snd].
        split; [exact Er | lia].
    + replace (Z.to_nat i) with O in * by lia. cbn.
      split; [reflexivity | split; [exact Hrest | left; split; reflexivity]].
Qed.


(** For white space, [TrimRightFunc] returns what is left when the trailing
    white space runes are taken off one by one. *)
Lemma TrimRightFunc_strip (s : gostring) :
  strings.TrimRightFunc unicode.IsSpace s
  = without_trailing unicode.IsSpace (length s) s.
Proof.
  pose proof (@lastIndexFunc_loop_strip (length s) s (len s)) as H.
  replace (Z.to_nat (len s)) with (length s) in H by (unfold len; lia).
  rewrite firstn_all, skipn_all in H.
  specialize (H ltac:(unfold len; lia) ltac:(lia) I). cbv zeta in H.
  set (u := without_trailing unicode.IsSpace (length s) s) in *.
  destruct H as (Hu & Hrest & H).
  unfold strings.TrimRightFunc, strings.lastIndexFunc. cbv zeta.
  destruct H as [[Hnil Hr] | (Hne & Hspace & Hr)].
  - rewrite Hr, Hnil. reflexivity.
  - rewrite Hr.
    pose proof (DecodeLastRuneInString_bounds Hne) as Hsize.
    destruct (@DecodeLastRuneInString_again u _ Hne Hrest) as [Hascii Hmore].
    set (size := snd (DecodeLastRuneInString u)) in *.
    set (i := len u - size) in *.
    assert (Hat : at_ s (Z.to_nat i) = at_ u (Z.to_nat i)).
    { unfold at_. rewrite Hu at 1. rewrite nth_firstn.
      replace (Z.to_nat i <? length u)%nat with true; [reflexivity|].
      symmetry. apply Nat.ltb_lt. unfold len in *. lia. }
    replace (0 <=? i) with true by (symmetry; lia). cbn [andb].
    rewrite Hat.
    assert (Hend : slice s 0 (len u) = u).
    { rewrite slice_0. unfold len. rewrite Nat2Z.id. now rewrite <- Hu. }
    destruct (at_ u (Z.to_nat i) <? RuneSelf) eqn:E.
    + replace (RuneSelf <=? at_ u (Z.to_nat i)) with false by (symmetry; lia).
      specialize (Hascii eq_refl). replace (i + 1) with (len u) by lia. exact Hend.
    + replace (RuneSelf <=? at_ u (Z.to_nat i)) with true by (symmetry; lia).
      specialize (Hmore eq_refl).
      assert (Hs : slice_from s i = skipn (Z.to_nat i) u ++ skipn (length u) s).
      { unfold slice_from.
        rewrite (@skipn_firstn_app s (Z.to_nat i) (length u)).
        - now rewrite <- Hu.
        - unfold len in *. lia.
        - rewrite Hu, length_firstn. lia. }
      rewrite Hs.
      destruct (DecodeRuneInString (skipn (Z.to_nat i) u ++ skipn (length u) s))
        as [r wid].
      cbn [snd] in Hmore. subst wid. replace (i + size) with (len u) by lia.
      exact Hend.
Qed.

End TrimFacts.

Lemma TrimSpace_strip (s : gostring) :
  strings.TrimSpace s
  = let t := without_leading unicode.IsSpace (length s) s in
    without_trailing unicode.IsSpace (length t) t.
Proof.
  unfold strings.TrimSpace, strings.TrimFunc.
  now rewrite TrimRightFunc_strip, TrimLeftFunc_strip.
Qed.

(** [TrimSpace] returns a slice of its argument. *)
Lemma TrimSpace_slice (s : gostring) :
  exists i j : nat, strings.TrimSpace s = firstn j (skipn i s).
Proof.
  rewrite TrimSpace_strip. cbv zeta.
  destruct (without_leading_suffix unicode.IsSpace (length s) s) as [i Hi].
  rewrite Hi.
  destruct (without_trailing_prefix unicode.IsSpace (length (skipn i s)) (skipn i s))
    as [j Hj].
  exists i, j. exact Hj.
Qed.

(** What [TrimSpace] returns has no white space left at either end. *)
Lemma TrimSpace_trimmed (s : gostring) :
  left_trimmed unicode.IsSpace (strings.TrimSpace s) /\
  right_trimmed unicode.IsSpace (strings.TrimSpace s).
Proof.
  rewrite TrimSpace_strip. cbv zeta.
  set (t := without_leading unicode.IsSpace (length s) s).
  assert (Ht : left_trimmed unicode.IsSpace t)
    by apply without_leading_left_trimmed.
  split; [|apply without_trailing_right_trimmed].
  destruct (without_trailing_prefix unicode.IsSpace (length t) t) as [k Hk].
  destruct (without_trailing unicode.IsSpace (length t) t) as [|b u'];
    [left; reflexivity|]. right.
  destruct (unicode.IsSpace (fst (utf8.DecodeRuneInString (b :: u')))) eqn:E;
    [|reflexivity].
  exfalso.
  pose proof (DecodeRuneInString_app (b :: u') (skipn k t) E) as Happ.
  rewrite Hk, firstn_skipn in Happ. rewrite Hk in E.
  destruct Ht as [Ht | Ht].
  - rewrite Ht, firstn_nil in Hk. discriminate.
  - rewrite Happ in Ht. congruence.
Qed.

(** Trimming again changes nothing. *)
Lemma TrimSpace_idempotent (s : gostring) :
  strings.TrimSpace (strings.TrimSpace s) = strings.TrimSpace s.
Proof.
  destruct (TrimSpace_trimmed s) as [Hleft Hright].
  rewrite (TrimSpace_strip (strings.TrimSpace s)). cbv zeta.
  rewrite (without_leading_fixed Hleft). now apply without_trailing_fixed.
Qed.

(* ================================================================== *)
(** * Collapsing runs of whitespace *)

Lemma replace_runs_single_spaced (s : gostring) (m : bool) :
  single_spaced m (regexp.replace_runs regexp.perl_space " " m s) = true.
Proof.
  revert m. induction s as [|b s IH]; intros m; [reflexivity|].
  cbn [regexp.replace_runs]. destruct (regexp.perl_space b) eqn:Hb.
  - destruct m; [apply IH|]. cbn. apply IH.
  - cbn [single_spaced]. rewrite Hb. apply IH.
Qed.

Lemma single_spaced_fixed (s : gostring) (m : bool) :
  single_spaced m s = true ->
  regexp.replace_runs regexp.perl_space " " m s = s.
Proof.
  revert m. induction s as [|b s IH]; intros m H; [reflexivity|].
  cbn [regexp.replace_runs single_spaced] in *.
  destruct (regexp.perl_space b).
  - apply andb_prop in H. destruct H as [H Hs].
    apply andb_prop in H. destruct H as [Hb Hm].
    apply byte_dec_bl in Hb. subst b. destruct m; [discriminate|].
    cbn. now rewrite IH.
  - now rewrite IH.
Qed.

Lemma single_spaced_weaken (s : gostring) (m : bool) :
  single_spaced m s = true -> single_spaced false s = true.
Proof.
  destruct m; [|trivial]. destruct s as [|b s]; [trivial|].
  cbn [single_spaced]. destruct (regexp.perl_space b); [|trivial].
  rewrite andb_false_r. discriminate.
Qed.

Lemma single_spaced_skipn (k : nat) (s : gostring) (m : bool) :
  single_spaced m s = true -> single_spaced false (skipn k s) = true.
Proof.
  revert s m. induction k as [|k IH]; intros s m H.
  - now apply single_spaced_weaken with m.
  - destruct s as [|b s]; [reflexivity|]. cbn [skipn single_spaced] in *.
    destruct (regexp.perl_space b).
    + apply andb_prop in H. destruct H as [_ H]. now apply IH with true.
    + now apply IH with false.
Qed.

Lemma single_spaced_firstn (k : nat) (s : gostring) (m : bool) :
  single_spaced m s = true -> single_spaced m (firstn k s) = true.
Proof.
  revert s m. induction k as [|k IH]; intros s m H; [reflexivity|].
  destruct s as [|b s]; [reflexivity|]. cbn [firstn single_spaced] in *.
  destruct (regexp.perl_space b).
  - apply andb_prop in H. destruct H as [H Hs]. rewrite H. now apply IH.
  - now apply IH.
Qed.

(** The replacement, run by run: a run of whitespace that no whitespace
    follows becomes one space, whatever its length, and the bytes of a word
    stay as they are. *)
Lemma replace_runs_skips_run (ws t : gostring) :
  forallb regexp.perl_space ws = true ->
  regexp.replace_runs regexp.perl_space " " true (ws ++ t)
  = regexp.replace_runs regexp.perl_space " " true t.
Proof.
  induction ws as [|b ws IH]; intros H; [reflexivity|].
  cbn [forallb] in H. apply andb_prop in H. destruct H as [Hb Hws].
  cbn [app regexp.replace_runs]. rewrite Hb. now apply IH.
Qed.

Lemma replace_runs_after_run (t : gostring) :
  match t with [] => True | b :: _ => regexp.perl_space b = false end ->
  regexp.replace_runs regexp.perl_space " " true t
  = regexp.replace_runs regexp.perl_space " " false t.
Proof.
  destruct t as [|b t]; [reflexivity|]. intros Hb.
  cbn [regexp.replace_runs]. now rewrite Hb.
Qed.

Lemma ReplaceAllString_run (ws t : gostring) :
  ws <> [] -> forallb regexp.perl_space ws = true ->
  match t with [] => True | b :: _ => regexp.perl_space b = false end ->
  regexp.ReplaceAllString resources.tableSpace (ws ++ t) " "
  = " " ++ regexp.ReplaceAllString resources.tableSpace t " ".
Proof.
  intros Hne Hws Ht. unfold regexp.ReplaceAllString, resources.tableSpace.
  destruct ws as [|b ws]; [congruence|].
  cbn [forallb] in Hws. apply andb_prop in Hws. destruct Hws as [Hb Hws].
  cbn [app regexp.replace_runs]. rewrite Hb.
  rewrite (replace_runs_skips_run _ _ Hws). now rewrite replace_runs_after_run.
Qed.

Lemma ReplaceAllString_word (w t : gostring) :
  forallb (fun b => negb (regexp.perl_space b)) w = true ->
  regexp.ReplaceAllString resources.tableSpace (w ++ t) " "
  = w ++ regexp.ReplaceAllString resources.tableSpace t " ".
Proof.
  unfold regexp.ReplaceAllString, resources.tableSpace.
  assert (H : forall m,
             forallb (fun b => negb (regexp.perl_space b)) w = true ->
             regexp.replace_runs regexp.perl_space " " m (w ++ t)
             = w ++ regexp.replace_runs regexp.perl_space " "
                      (match w with [] => m | _ => false end) t).
  { induction w as [|b w IH]; intros m Hw; [reflexivity|].
    cbn [forallb] in Hw. apply andb_prop in Hw. destruct Hw as [Hb Hw].
    apply negb_true_iff in Hb.
    cbn [app regexp.replace_runs]. rewrite Hb. rewrite (IH false Hw).
    now destruct w. }
  intros Hw. rewrite (H false Hw). now destruct w.
Qed.

(** C7: [tableNormalizeQuery] is idempotent: a normalised string holds
    single spaces only where it holds whitespace of the class [\s] and has
    no white space at its ends, so that neither the replacement of the runs
    nor the trimming changes it. *)
Theorem tableNormalizeQuery_idempotent (s : gostring) :
  resources.tableNormalizeQuery (resources.tableNormalizeQuery s)
  = resources.tableNormalizeQuery s.
Proof.
  unfold resources.tableNormalizeQuery, resources.tableSpace,
    regexp.ReplaceAllString.
  set (c := regexp.replace_runs regexp.perl_space " " false s).
  destruct (TrimSpace_slice c) as (i & j & Hslice).
  rewrite single_spaced_fixed.
  - apply TrimSpace_idempotent.
  - rewrite Hslice. apply single_spaced_firstn.
    apply single_spaced_skipn with false. apply replace_runs_single_spaced.
Qed.

(* ================================================================== *)
(** * The case of ASCII letters *)

(** A byte is left as it is, or it is a small letter and moves 32 down. *)
Lemma upper_ascii_cases (b : byte) :
  upper_ascii b = b \/
  (0x61 <= byte_val b <= 0x7A /\ byte_val (upper_ascii b) = byte_val b - 32).
Proof.
  destruct b; try (left; reflexivity); right; vm_compute; intuition congruence.
Qed.

Lemma upper_ascii_high (b : byte) :
  (byte_val b <? 0x80) = false -> upper_ascii b = b.
Proof. destruct b; cbv; congruence. Qed.

Lemma upper_ascii_low (b : byte) :
  (byte_val b <? 0x80) = true -> (byte_val (upper_ascii b) <? 0x80) = true.
Proof. destruct b; cbv; congruence. Qed.

Lemma at_map_upper (s : gostring) (i : nat) :
  utf8.at_ (map upper_ascii s) i = byte_val (upper_ascii (nth i s x00)).
Proof.
  unfold utf8.at_. change x00 with (upper_ascii x00) at 1. now rewrite map_nth.
Qed.

Lemma len_map_upper (s : gostring) : utf8.len (map upper_ascii s) = utf8.len s.
Proof. unfold utf8.len. now rewrite length_map. Qed.

(** No letter is a continuation byte. *)
Lemma accept_range_no_letter (lo hi v : Z) (b : byte) :
  0x80 <= lo \/ hi = 0 ->
  v = byte_val b ->
  ((byte_val (upper_ascii b) <? lo) || (hi <? byte_val (upper_ascii b)))
  = ((v <? lo) || (hi <? v)) /\
  (((v <? lo) || (hi <? v)) = false -> upper_ascii b = b).
Proof.
  intros Hr ->. destruct (upper_ascii_cases b) as [-> | [Hb Hu]].
  - split; [reflexivity | trivial].
  - rewrite Hu.
    assert (((byte_val b <? lo) || (hi <? byte_val b)) = true) as ->.
    { apply orb_true_iff. destruct Hr; [left | right]; apply Z.ltb_lt; lia. }
    split; [|discriminate].
    apply orb_true_iff. destruct Hr; [left | right]; apply Z.ltb_lt; lia.
Qed.

Lemma acceptRanges_bounds (i : Z) :
  0x80 <= fst (utf8.acceptRanges i) \/ snd (utf8.acceptRanges i) = 0.
Proof.
  unfold utf8.acceptRanges.
  repeat case_if; cbv [fst snd utf8.locb utf8.hicb]; (left; lia) || (right; reflexivity).
Qed.

(** Past ASCII, the case of the letters that follow does not change what
    is decoded: a letter ends the encoding either way. *)
Lemma DecodeRuneInString_upper (s : gostring) :
  (utf8.at_ s 0 <? utf8.RuneSelf) = false ->
  utf8.DecodeRuneInString (map upper_ascii s) = utf8.DecodeRuneInString s.
Proof.
  intros H0. unfold utf8.DecodeRuneInString. cbv zeta.
  rewrite len_map_upper, !at_map_upper.
  assert (E0 : upper_ascii (nth 0 s x00) = nth 0 s x00)
    by (apply upper_ascii_high; exact H0).
  rewrite E0. fold (utf8.at_ s 0).
  case_if; [reflexivity|]. case_if; [reflexivity|]. case_if; [reflexivity|].
  destruct (@accept_range_no_letter _ _ _ (nth 1 s x00)
              (acceptRanges_bounds (Z.shiftr (utf8.first (utf8.at_ s 0)) 4)) eq_refl)
    as [E1 U1].
  rewrite E1. fold (utf8.at_ s 1).
  destruct (_ || _) eqn:C1 in |- *; [reflexivity|]. rewrite (U1 C1).
  fold (utf8.at_ s 1).
  case_if; [reflexivity|].
  destruct (@accept_range_no_letter utf8.locb utf8.hicb _ (nth 2 s x00)
              ltac:(left; unfold utf8.locb; lia) eq_refl) as [E2 U2].
  rewrite E2. fold (utf8.at_ s 2).
  destruct (_ || _) eqn:C2 in |- *; [reflexivity|]. rewrite (U2 C2).
  fold (utf8.at_ s 2).
  case_if; [reflexivity|].
  destruct (@accept_range_no_letter utf8.locb utf8.hicb _ (nth 3 s x00)
              ltac:(left; unfold utf8.locb; lia) eq_refl) as [E3 U3].
  rewrite E3. fold (utf8.at_ s 3).
  destruct (_ || _) eqn:C3 in |- *; [reflexivity|]. rewrite (U3 C3). reflexivity.
Qed.

(** Strings that differ in the case of ASCII letters only are equal under
    [EqualFold]. *)
Section AsciiCase.
Variable SimpleFold : utf8.rune -> utf8.rune.

Lemma equal_fold_loop_ascii_case (fuel : nat) (s t : gostring) :
  (length s <= fuel)%nat ->
  map upper_ascii s = map upper_ascii t ->
  strings.equal_fold_loop SimpleFold fuel s t = true.
Proof.
  revert s t. induction fuel as [|fuel IH]; intros s t Hlen Hst.
  - destruct s; [|simpl in Hlen; lia]. destruct t; [reflexivity | discriminate].
  - destruct s as [|a s'], t as [|b t']; try discriminate; [reflexivity|].
    injection Hst as Hab Hst. simpl in Hlen.
    cbn [strings.equal_fold_loop]. unfold strings.first_rune.
    change (utf8.at_ (a :: s') 0) with (byte_val a).
    change (utf8.at_ (b :: t') 0) with (byte_val b).
    change (utf8.slice_from (a :: s') 1) with s'.
    change (utf8.slice_from (b :: t') 1) with t'.
    destruct (byte_val a <? utf8.RuneSelf) eqn:Ea.
    + assert (Eb : (byte_val b <? utf8.RuneSelf) = true).
      { destruct (byte_val b <? utf8.RuneSelf) eqn:Eb; [reflexivity|].
        pose proof (@upper_ascii_low _ Ea) as Ea'.
        rewrite Hab, (@upper_ascii_high _ Eb) in Ea'.
        unfold utf8.RuneSelf in Eb. congruence. }
      rewrite Eb.
      destruct (byte_val b =? byte_val a) eqn:E; [apply IH; [lia | exact Hst]|].
      apply Z.eqb_neq in E. apply Z.ltb_lt in Ea, Eb. unfold utf8.RuneSelf in *.
      assert (Hcase : (byte_val a + 32 = byte_val b /\ 0x41 <= byte_val a <= 0x5A) \/
                      (byte_val b + 32 = byte_val a /\ 0x41 <= byte_val b <= 0x5A)).
      { destruct (upper_ascii_cases a) as [Ha | [Ha Ha']],
                 (upper_ascii_cases b) as [Hb | [Hb Hb']].
        - congruence.
        - left. rewrite <- Hab, Ha in Hb'. lia.
        - right. rewrite Hab, Hb in Ha'. lia.
        - rewrite Hab in Ha'. lia. }
      destruct Hcase as [[H1 H2] | [H1 H2]].
      * replace (byte_val b <? byte_val a) with false by (symmetry; lia).
        replace (byte_val b <? 128) with true by (symmetry; lia).
        replace ((65 <=? byte_val a) && (byte_val a <=? 90)
                 && (byte_val b =? byte_val a + 97 - 65)) with true
          by (symmetry; rewrite !andb_true_iff; lia).
        apply IH; [lia | exact Hst].
      * replace (byte_val b <? byte_val a) with true by (symmetry; lia).
        replace (byte_val a <? 128) with true by (symmetry; lia).
        replace ((65 <=? byte_val b) && (byte_val b <=? 90)
                 && (byte_val a =? byte_val b + 97 - 65)) with true
          by (symmetry; rewrite !andb_true_iff; lia).
        apply IH; [lia | exact Hst].
    + assert (Hba : b = a).
      { rewrite (@upper_ascii_high _ Ea) in Hab.
        destruct (upper_ascii_cases b) as [Hb | [Hb Hb']]; [congruence|].
        rewrite <- Hab in Hb'. apply Z.ltb_ge in Ea. unfold utf8.RuneSelf in Ea. lia. }
      subst b. rewrite Ea.
      assert (Hdec : utf8.DecodeRuneInString (a :: s') = utf8.DecodeRuneInString (a :: t')).
      { rewrite <- (@DecodeRuneInString_upper (a :: s')) by exact Ea.
        rewrite <- (@DecodeRuneInString_upper (a :: t')) by exact Ea.
        cbn [map]. now rewrite Hst. }
      pose proof (@DecodeRuneInString_size (a :: s') ltac:(discriminate)) as Hsize.
      rewrite <- Hdec. destruct (utf8.DecodeRuneInString (a :: s')) as [r size].
      cbn [snd] in Hsize. rewrite Z.eqb_refl. apply IH.
      * unfold utf8.slice_from. rewrite length_skipn. simpl length. lia.
      * unfold utf8.slice_from. rewrite <- !skipn_map. cbn [map]. now rewrite Hst.
Qed.

Lemma EqualFold_ascii_case (s t : gostring) :
  map upper_ascii s = map upper_ascii t -> strings.EqualFold SimpleFold s t = true.
Proof. intros H. now apply equal_fold_loop_ascii_case. Qed.

End AsciiCase.

(* ================================================================== *)
(** * Normalising, in the words of the specification *)

Lemma lor_ge_64_l (a b : Z) : 0 <= b -> 64 <= a -> 64 <= Z.lor a b.
Proof.
  intros Hb Ha.
  assert (H0 : 0 <= Z.lor a b) by (apply Z.lor_nonneg; lia).
  assert (Hl : 6 <= Z.log2 (Z.lor a b)).
  { rewrite Z.log2_lor by lia.
    assert (Z.log2 64 <= Z.log2 a) by (apply Z.log2_le_mono; lia).
    change (Z.log2 64) with 6 in *. lia. }
  destruct (Z.eq_dec (Z.lor a b) 0) as [E | E].
  - rewrite E in Hl. cbn in Hl. lia.
  - pose proof (Z.log2_spec (Z.lor a b) ltac:(lia)) as [Hlo _].
    assert (2 ^ 6 <= 2 ^ Z.log2 (Z.lor a b)) by (apply Z.pow_le_mono_r; lia).
    change (2 ^ 6) with 64 in *. lia.
Qed.

Lemma lor_ge_64_r (a b : Z) : 0 <= a -> 64 <= b -> 64 <= Z.lor a b.
Proof. intros Ha Hb. rewrite Z.lor_comm. now apply lor_ge_64_l. Qed.

(** The bits kept of a byte by a mask of [n] ones, shifted to their place. *)
Lemma shiftl_land_ones (v n k : Z) :
  0 <= n -> 6 <= k -> 1 <= v mod 2 ^ n ->
  64 <= Z.shiftl (Z.land v (Z.ones n)) k.
Proof.
  intros Hn Hk Hv. rewrite Z.land_ones by lia. rewrite Z.shiftl_mul_pow2 by lia.
  assert (2 ^ 6 <= 2 ^ k) by (apply Z.pow_le_mono_r; lia).
  change (2 ^ 6) with 64 in *. nia.
Qed.

Lemma shiftl_land_nonneg (v m k : Z) : 0 <= m -> 0 <= k -> 0 <= Z.shiftl (Z.land v m) k.
Proof.
  intros Hm Hk. apply Z.shiftl_nonneg. apply Z.land_nonneg. now right.
Qed.

Section Runes.

Import utf8.

(** A rune is decoded within the string. *)
Lemma DecodeRuneInString_within (u : gostring) :
  u <> [] -> snd (DecodeRuneInString u) <= len u.
Proof.
  intros Hu. pose proof (len_pos Hu) as Hlen.
  unfold DecodeRuneInString. cbv zeta.
  replace (len u <? 1) with false by (symmetry; lia).
  destruct (as_ <=? first (at_ u 0)) eqn:E; [cbn [snd]; lia|].
  pose proof (first_size _ E) as Hsz.
  destruct (len u <? Z.land (first (at_ u 0)) 7) eqn:E1; [cbn [snd]; lia|].
  repeat case_if; cbn [snd]; lia.
Qed.

Ltac nonneg :=
  repeat first
    [ apply Z.lor_nonneg; split
    | apply Z.shiftl_nonneg
    | apply Z.land_nonneg; right; vm_compute; discriminate ].

Ltac rune_big :=
  lazymatch goal with
  | |- 64 <= Z.lor _ _ =>
      first [ apply lor_ge_64_l; [solve [nonneg] | solve [rune_big]]
            | apply lor_ge_64_r; [solve [nonneg] | solve [rune_big]] ]
  | |- 64 <= Z.shiftl (Z.land _ ?m) _ =>
      let n := eval vm_compute in (Z.log2 m + 1) in
      change m with (Z.ones n);
      apply shiftl_land_ones; [lia | lia |];
      let p := eval vm_compute in (2 ^ n) in
      change (2 ^ n) with p; Z.div_mod_to_equations; lia
  end.

Ltac decoded_big :=
  repeat case_if; cbn [fst snd] in *; try assumption; try discriminate;
  repeat match goal with
         | H : (_ || _) = false |- _ => apply orb_false_iff in H; destruct H
         | H : (_ <? _) = false |- _ => apply Z.ltb_ge in H
         end;
  unfold locb, hicb in *; rune_big.

(** A rune that does not begin with a byte of ASCII is no character of
    ASCII. *)
Lemma DecodeRuneInString_past_ascii (s : gostring) :
  s <> [] -> (at_ s 0 <? RuneSelf) = false ->
  64 <= fst (DecodeRuneInString s).
Proof.
  intros Hs H0. pose proof (len_pos Hs) as Hlen.
  apply Z.ltb_ge in H0. unfold RuneSelf in H0.
  unfold DecodeRuneInString. cbv zeta.
  replace (len s <? 1) with false by (symmetry; lia).
  set (b0 := at_ s 0) in *. set (b1 := at_ s 1). set (b2 := at_ s 2).
  set (b3 := at_ s 3).
  assert (Hkind :
    first b0 = xx \/
    (first b0 = s1 /\ 1 <= b0 mod 32) \/
    (first b0 = s2 /\ b0 = 0xE0) \/
    ((first b0 = s3 \/ first b0 = s4) /\ 1 <= b0 mod 16) \/
    (first b0 = s5 /\ b0 = 0xF0) \/
    ((first b0 = s6 \/ first b0 = s7) /\ 1 <= b0 mod 8)).
  { unfold first. replace (b0 <? 128) with false by (symmetry; lia).
    repeat case_if;
      repeat match goal with
             | H : (_ <? _) = true |- _ => apply Z.ltb_lt in H
             | H : (_ <? _) = false |- _ => apply Z.ltb_ge in H
             | H : (_ =? _) = true |- _ => apply Z.eqb_eq in H
             | H : (_ =? _) = false |- _ => apply Z.eqb_neq in H
             end.
    all: try (left; reflexivity).
    all: right.
    - left. split; [reflexivity | Z.div_mod_to_equations; lia].
    - right. left. split; [reflexivity | assumption].
    - right. right. left. split; [left; reflexivity | Z.div_mod_to_equations; lia].
    - right. right. left. split; [right; reflexivity | Z.div_mod_to_equations; lia].
    - right. right. left. split; [left; reflexivity | Z.div_mod_to_equations; lia].
    - right. right. right. left. split; [reflexivity | assumption].
    - right. right. right. right. split; [left; reflexivity | Z.div_mod_to_equations; lia].
    - right. right. right. right. split; [right; reflexivity | Z.div_mod_to_equations; lia]. }
  assert (Herr : 64 <= RuneError) by (vm_compute; discriminate).
  destruct Hkind as [K | [[K Hm] | [[K Hb] | [[[K | K] Hm] | [[K Hb] | [[K | K] Hm]]]]]];
    rewrite K.
  - change (as_ <=? xx) with true. cbv iota.
    change (Z.shiftr (int32 (Z.shiftl xx 31)) 31) with (-1).
    rewrite Z.ldiff_m1_r. exact Herr.
  - change (as_ <=? s1) with false. cbv iota.
    change (Z.land s1 7) with 2.
    change (acceptRanges (Z.shiftr s1 4)) with (locb, hicb).
    decoded_big.
  - change (as_ <=? s2) with false. cbv iota.
    change (Z.land s2 7) with 3.
    change (acceptRanges (Z.shiftr s2 4)) with (0xA0, hicb).
    decoded_big.
  - change (as_ <=? s3) with false. cbv iota.
    change (Z.land s3 7) with 3.
    change (acceptRanges (Z.shiftr s3 4)) with (locb, hicb).
    decoded_big.
  - change (as_ <=? s4) with false. cbv iota.
    change (Z.land s4 7) with 3.
    change (acceptRanges (Z.shiftr s4 4)) with (locb, 0x9F).
    decoded_big.
  - change (as_ <=? s5) with false. cbv iota.
    change (Z.land s5 7) with 4.
    change (acceptRanges (Z.shiftr s5 4)) with (0x90, hicb).
    decoded_big.
  - change (as_ <=? s6) with false. cbv iota.
    change (Z.land s6 7) with 4.
    change (acceptRanges (Z.shiftr s6 4)) with (locb, hicb).
    decoded_big.
  - change (as_ <=? s7) with false. cbv iota.
    change (Z.land s7 7) with 4.
    change (acceptRanges (Z.shiftr s7 4)) with (locb, 0x8F).
    decoded_big.
Qed.

(** The bytes of a rune after the first are continuation bytes. *)
Lemma DecodeRuneInString_tail (s : gostring) (i : nat) :
  s <> [] -> (1 <= i)%nat -> Z.of_nat i < snd (DecodeRuneInString s) ->
  0x80 <= at_ s i.
Proof.
  intros Hs Hi. pose proof (len_pos Hs) as Hlen.
  unfold DecodeRuneInString. cbv zeta.
  replace (len s <? 1) with false by (symmetry; lia).
  destruct (as_ <=? first (at_ s 0)) eqn:E; [cbn [snd]; lia|].
  pose proof (lead_accept _ E) as [Hlo Hhi].
  repeat case_if; cbn [snd]; try lia;
    repeat match goal with
           | H : (_ || _) = false |- _ => apply orb_false_iff in H; destruct H
           | H : (_ <? _) = false |- _ => apply Z.ltb_ge in H
           end;
    unfold locb, hicb in *; intros Hw;
    assert (Hcases : (i = 1 \/ i = 2 \/ i = 3)%nat) by lia;
    destruct Hcases as [-> | [-> | ->]]; lia.
Qed.

End Runes.

Lemma perl_space_rune_byte (b : byte) :
  perl_space_rune (byte_val b) = regexp.perl_space b.
Proof. destruct b; reflexivity. Qed.

Lemma perl_space_ascii (b : byte) :
  regexp.perl_space b = true -> (byte_val b <? utf8.RuneSelf) = true.
Proof. destruct b; cbn; congruence. Qed.

Lemma perl_space_rune_small (r : utf8.rune) : 64 <= r -> perl_space_rune r = false.
Proof.
  intros H. unfold perl_space_rune.
  repeat (apply orb_false_iff; split); apply Z.eqb_neq; lia.
Qed.

Lemma forallb_firstn_nth (p : byte -> bool) (w : nat) (s : gostring) :
  (forall i : nat, (i < w)%nat -> (i < length s)%nat -> p (nth i s x00) = true) ->
  forallb p (firstn w s) = true.
Proof.
  revert s. induction w as [|w IH]; intros s H; [reflexivity|].
  destruct s as [|x s']; [reflexivity|].
  cbn [firstn forallb].
  pose proof (H O ltac:(lia) ltac:(simpl; lia)) as H0. cbn [nth] in H0.
  rewrite H0. cbn [andb].
  apply IH. intros i Hi Hlen. apply (H (S i)); simpl; lia.
Qed.

(** The bytes of a word stay as they are. *)
Lemma replace_runs_word (w t : gostring) (m : bool) :
  w <> [] -> forallb (fun b => negb (regexp.perl_space b)) w = true ->
  regexp.replace_runs regexp.perl_space " " m (w ++ t)
  = w ++ regexp.replace_runs regexp.perl_space " " false t.
Proof.
  revert m. induction w as [|b w IH]; intros m Hne Hw; [congruence|].
  cbn [forallb] in Hw. apply andb_prop in Hw. destruct Hw as [Hb Hw].
  apply negb_true_iff in Hb.
  cbn [app regexp.replace_runs]. rewrite Hb. f_equal.
  destruct w as [|c w']; [reflexivity|].
  apply IH; [discriminate | exact Hw].
Qed.

(** Collapsing the runs of the class [\s] rune by rune is what the
    replacement of the matches of [\s+] does byte by byte: a byte of the
    class is a rune of its own, and no byte of a longer encoding is of the
    class. *)
Lemma collapse_runs_replace_runs (fuel : nat) (s : gostring) (m : bool) :
  (length s <= fuel)%nat ->
  collapse_runs perl_space_rune fuel m s
  = regexp.replace_runs regexp.perl_space " " m s.
Proof.
  revert s m. induction fuel as [|fuel IH]; intros s m Hlen.
  - destruct s; [reflexivity | simpl in Hlen; lia].
  - destruct s as [|b rest]; [reflexivity|].
    cbn [collapse_runs].
    pose proof (@DecodeRuneInString_size (b :: rest) ltac:(discriminate)) as Hsize.
    pose proof (@DecodeRuneInString_within (b :: rest) ltac:(discriminate)) as Hin.
    pose proof (@DecodeRuneInString_tail (b :: rest)) as Htail.
    destruct (regexp.perl_space b) eqn:Hb.
    + (* a byte of the class: one rune of ASCII *)
      pose proof (perl_space_ascii _ Hb) as Hascii.
      rewrite (@DecodeRuneInString_ascii (b :: rest) ltac:(discriminate) Hascii).
      change (utf8.at_ (b :: rest) 0) with (byte_val b).
      rewrite perl_space_rune_byte, Hb.
      change (utf8.slice_from (b :: rest) 1) with rest.
      cbn [regexp.replace_runs]. rewrite Hb.
      rewrite IH by (simpl in Hlen; lia). now destruct m.
    + assert (Hclass : perl_space_rune (fst (utf8.DecodeRuneInString (b :: rest)))
                       = false).
      { destruct (byte_val b <? utf8.RuneSelf) eqn:Hascii.
        - rewrite (@DecodeRuneInString_ascii (b :: rest) ltac:(discriminate) Hascii).
          cbn [fst]. change (utf8.at_ (b :: rest) 0) with (byte_val b).
          now rewrite perl_space_rune_byte.
        - apply perl_space_rune_small.
          now apply DecodeRuneInString_past_ascii. }
      destruct (utf8.DecodeRuneInString (b :: rest)) as [r wid].
      cbn [fst snd] in *. rewrite Hclass.
      rewrite slice_0. unfold utf8.slice_from.
      set (w := Z.to_nat wid) in *.
      rewrite <- (firstn_skipn w (b :: rest)) at 3.
      rewrite replace_runs_word.
      * f_equal. apply IH. rewrite length_skipn. simpl length in *. lia.
      * destruct w eqn:Ew; [lia | discriminate].
      * apply forallb_firstn_nth. intros i Hi Hi'.
        destruct i as [|i]; [cbn [nth]; now rewrite Hb|].
        assert (H80 : 0x80 <= utf8.at_ (b :: rest) (S i)) by (apply Htail; [discriminate | lia | lia]).
        unfold utf8.at_ in H80.
        destruct (regexp.perl_space (nth (S i) (b :: rest) x00)) eqn:Hp; [|reflexivity].
        apply perl_space_ascii in Hp. unfold utf8.RuneSelf in Hp. lia.
Qed.

(** [tableNormalizeQuery] is [normalize] with the class [\s] collapsed and
    the white space of Unicode trimmed. *)
Lemma tableNormalizeQuery_as_specified (s : gostring) :
  resources.tableNormalizeQuery s
  = normalize_as_specified perl_space_rune unicode.IsSpace s.
Proof.
  unfold resources.tableNormalizeQuery, resources.tableSpace,
    regexp.ReplaceAllString, normalize_as_specified, trim_runs.
  rewrite TrimSpace_strip, collapse_runs_replace_runs by lia. reflexivity.
Qed.

Lemma perl_space_rune_IsSpace (r : utf8.rune) :
  perl_space_rune r = true -> unicode.IsSpace r = true.
Proof.
  unfold perl_space_rune. rewrite !orb_true_iff, !Z.eqb_eq.
  intros [[[[-> | ->] | ->] | ->] | ->]; reflexivity.
Qed.

(* ================================================================== *)
(** * Diff suppression *)

Section DiffSuppression.

Variable SimpleFold : utf8.rune -> utf8.rune.

Lemma equal_fold_loop_refl (fuel : nat) (s : gostring) :
  strings.equal_fold_loop SimpleFold fuel s s = true.
Proof.
  revert s. induction fuel as [|fuel IH]; intros s.
  - destruct s; apply str_eqb_refl.
  - destruct s as [|b s']; [reflexivity|].
    cbn [strings.equal_fold_loop].
    destruct (strings.first_rune (b :: s')) as [sr rest].
    rewrite Z.eqb_refl. apply IH.
Qed.

Lemma EqualFold_refl (s : gostring) : strings.EqualFold SimpleFold s s = true.
Proof. apply equal_fold_loop_refl. Qed.

(** The shape of a normalised string: whitespace of the class [\s] occurs
    in it as single spaces only, and it neither begins nor ends with a white
    space rune. *)
Lemma tableNormalizeQuery_shape (s : gostring) :
  let n := resources.tableNormalizeQuery s in
  single_spaced false n = true /\
  left_trimmed unicode.IsSpace n /\ right_trimmed unicode.IsSpace n.
Proof.
  intros n. subst n.
  unfold resources.tableNormalizeQuery, resources.tableSpace,
    regexp.ReplaceAllString.
  set (c := regexp.replace_runs regexp.perl_space " " false s).
  split; [|apply TrimSpace_trimmed].
  destruct (TrimSpace_slice c) as (i & j & Hslice). rewrite Hslice.
  apply single_spaced_firstn. apply single_spaced_skipn with false.
  apply replace_runs_single_spaced.
Qed.

(** C2, amended: [tableDiffSuppressStatement] returns true exactly when the
    normal forms of the two statements are equal under the case-insensitive
    comparison [strings.EqualFold], where normalising collapses every run
    of characters of the class [\s] of the regular expression (tab,
    newline, form feed, carriage return, space) to a single space and then
    trims the white space of Unicode ([unicode.IsSpace]) at both ends.  The
    two classes differ: every character of [\s] is white space of Unicode,
    but the vertical tab, U+0085 and U+00A0 are white space of Unicode and
    not of [\s].  A normal form holds single spaces only where it holds
    characters of [\s], and no white space at its ends.  The function holds
    of every string with itself, of any two strings whose normal forms
    differ in the case of ASCII letters only, and of [SELECT  1] (two
    spaces) with [select 1]. *)
Theorem tableDiffSuppressStatement_normalized
  (key : gostring) (d : tfschema.ResourceData) :
  (forall s : gostring,
     resources.tableNormalizeQuery s
     = normalize_as_specified perl_space_rune unicode.IsSpace s) /\
  (forall old new : gostring,
     resources.tableDiffSuppressStatement SimpleFold key old new d = true <->
     strings.EqualFold SimpleFold
       (normalize_as_specified perl_space_rune unicode.IsSpace old)
       (normalize_as_specified perl_space_rune unicode.IsSpace new) = true) /\
  ((forall r : utf8.rune, perl_space_rune r = true -> unicode.IsSpace r = true) /\
   map unicode.IsSpace [0x0B; 0x85; 0xA0] = [true; true; true] /\
   map perl_space_rune [0x0B; 0x85; 0xA0] = [false; false; false]) /\
  (forall s : gostring,
     single_spaced false (resources.tableNormalizeQuery s) = true /\
     left_trimmed unicode.IsSpace (resources.tableNormalizeQuery s) /\
     right_trimmed unicode.IsSpace (resources.tableNormalizeQuery s)) /\
  (forall s : gostring,
     resources.tableDiffSuppressStatement SimpleFold key s s d = true) /\
  (forall s t : gostring,
     map upper_ascii (resources.tableNormalizeQuery s)
     = map upper_ascii (resources.tableNormalizeQuery t) ->
     resources.tableDiffSuppressStatement SimpleFold key s t d = true) /\
  resources.tableDiffSuppressStatement SimpleFold key "SELECT  1" "select 1" d = true.
Proof.
  split; [|split; [|split; [|split; [|split; [|split]]]]].
  - apply tableNormalizeQuery_as_specified.
  - intros old new. unfold resources.tableDiffSuppressStatement.
    rewrite !tableNormalizeQuery_as_specified. tauto.
  - split; [apply perl_space_rune_IsSpace | split; reflexivity].
  - intros s. apply tableNormalizeQuery_shape.
  - intros s. unfold resources.tableDiffSuppressStatement. apply EqualFold_refl.
  - intros s t H. unfold resources.tableDiffSuppressStatement.
    now apply EqualFold_ascii_case.
  - unfold resources.tableDiffSuppressStatement.
    replace (resources.tableNormalizeQuery "SELECT  1") with ("SELECT 1" : gostring)
      by (vm_compute; reflexivity).
    replace (resources.tableNormalizeQuery "select 1") with ("select 1" : gostring)
      by (vm_compute; reflexivity).
    vm_compute. reflexivity.
Qed.

End DiffSuppression.

(** Two strings that differ in whitespace and in case only. *)
Lemma tableDiffSuppressStatement_normalized_witness :
  resources.tableDiffSuppressStatement (fun r => r) "statement"
    "Select  1" "  select 1 " (comment_change [] []).(resources.data) = true.
Proof.
  apply (proj1 (proj2 (proj2 (proj2 (proj2 (proj2
           (tableDiffSuppressStatement_normalized (fun r => r) "statement"
              (comment_change [] []).(resources.data)))))))).
  vm_compute. reflexivity.
Defined.

(* ================================================================== *)
(** * One class of whitespace for both steps *)

Section OneClass.

Variable W : utf8.rune -> bool.

(** The steps of [normalize_as_specified] on a character of ASCII. *)
Lemma collapse_runs_ascii (fuel : nat) (m : bool) (b : byte) (rest : gostring) :
  (byte_val b <? utf8.RuneSelf) = true ->
  collapse_runs W (S fuel) m (b :: rest)
  = if W (byte_val b)
    then (if m then [] else " ") ++ collapse_runs W fuel true rest
    else b :: collapse_runs W fuel false rest.
Proof.
  intros Hb. cbn [collapse_runs].
  rewrite (@DecodeRuneInString_ascii (b :: rest) ltac:(discriminate) Hb).
  reflexivity.
Qed.

Lemma without_leading_ascii (fuel : nat) (b : byte) (rest : gostring) :
  (byte_val b <? utf8.RuneSelf) = true ->
  without_leading W (S fuel) (b :: rest)
  = if W (byte_val b) then without_leading W fuel rest else b :: rest.
Proof.
  intros Hb. cbn [without_leading].
  rewrite (@DecodeRuneInString_ascii (b :: rest) ltac:(discriminate) Hb).
  reflexivity.
Qed.

Lemma without_trailing_ascii (fuel : nat) (s : gostring) (b : byte) :
  (byte_val b <? utf8.RuneSelf) = true ->
  without_trailing W (S fuel) (s ++ [b])
  = if W (byte_val b) then without_trailing W fuel s else s ++ [b].
Proof.
  intros Hb.
  rewrite without_trailing_S by (destruct s; discriminate).
  assert (Hlast : utf8.DecodeLastRuneInString (s ++ [b]) = (byte_val b, 1)).
  { unfold utf8.DecodeLastRuneInString. cbv zeta.
    rewrite len_app. pose proof (len_nonneg s) as Hlen.
    change (utf8.len [b]) with 1.
    replace (utf8.len s + 1 =? 0) with false by (symmetry; lia).
    replace (Z.to_nat (utf8.len s + 1 - 1)) with (length s) by (unfold utf8.len; lia).
    assert (Hat : utf8.at_ (s ++ [b]) (length s) = byte_val b).
    { unfold utf8.at_. rewrite app_nth2 by lia. now rewrite Nat.sub_diag. }
    rewrite Hat, Hb. reflexivity. }
  rewrite Hlast, len_app. change (utf8.len [b]) with 1.
  replace (utf8.len s + 1 - 1) with (Z.of_nat (length s)) by (unfold utf8.len; lia).
  rewrite slice_prefix, firstn_app, firstn_all, Nat.sub_diag.
  cbn [firstn]. now rewrite app_nil_r.
Qed.

End OneClass.

(** Evaluate [normalize_as_specified] on a string of ASCII, given what the
    class holds of its characters. *)
Ltac normalize_ascii :=
  unfold normalize_as_specified, trim_runs;
  repeat first
    [ progress cbn [length app]
    | rewrite collapse_runs_ascii by reflexivity
    | rewrite without_leading_ascii by reflexivity
    | match goal with
      | |- context [without_trailing ?W (S ?k) ?s] =>
          let r := eval cbv [rev app] in (rev s) in
          lazymatch r with
          | ?b :: ?t =>
              let i := eval cbv [rev app] in (rev t) in
              change (without_trailing W (S k) s)
                with (without_trailing W (S k) (i ++ [b]));
              rewrite without_trailing_ascii by reflexivity
          end
      end
    | match goal with
      | H : ?W ?r = _ |- context [?W (byte_val ?b)] =>
          change (W (byte_val b)) with (W r); rewrite H
      end
    | progress cbn [collapse_runs app] ].

(** C2 as it is worded, with one class of whitespace for both steps, fails:
    with the white space of Unicode, the vertical tab within [SELECT 1]
    would be collapsed, and the function returns false; with the class
    [\s], the vertical tab before [a] would stay, and the function returns
    true; and no class of characters at all, with any table of case
    folding, makes the function the comparison of the normal forms. *)
Lemma tableDiffSuppressStatement_one_class_refuted :
  (normalize_as_specified unicode.IsSpace unicode.IsSpace ("SELECT" ++ [x0b] ++ "1")
   = normalize_as_specified unicode.IsSpace unicode.IsSpace "SELECT 1" /\
   resources.tableDiffSuppressStatement (fun r => r) "statement"
     ("SELECT" ++ [x0b] ++ "1") "SELECT 1" (resources.data (update "T" "T" [] []))
   = false) /\
  (strings.EqualFold (fun r => r)
     (normalize_as_specified perl_space_rune perl_space_rune ([x0b] ++ "a"))
     (normalize_as_specified perl_space_rune perl_space_rune "a") = false /\
   resources.tableDiffSuppressStatement (fun r => r) "statement"
     ([x0b] ++ "a") "a" (resources.data (update "T" "T" [] []))
   = true) /\
  ~ exists (SimpleFold : utf8.rune -> utf8.rune) (whitespace : utf8.rune -> bool),
      forall (key old new : gostring) (d : tfschema.ResourceData),
        resources.tableDiffSuppressStatement SimpleFold key old new d = true <->
        strings.EqualFold SimpleFold
          (normalize_as_specified whitespace whitespace old)
          (normalize_as_specified whitespace whitespace new) = true.
Proof.
  split; [split; vm_compute; reflexivity|].
  split; [split; vm_compute; reflexivity|].
  intros (SimpleFold & W & H).
  pose (d := resources.data (update "T" "T" [] [])).
  destruct (W 0x20) eqn:Hs.
  - destruct (W 0x0B) eqn:Hv.
    + destruct (W 0x61) eqn:Ha.
      * (* the letter is taken for whitespace *)
        assert (E1 : normalize_as_specified W W "a" = []) by (normalize_ascii; reflexivity).
        assert (E2 : normalize_as_specified W W [] = []) by reflexivity.
        specialize (H "k" "a" [] d). rewrite E1, E2 in H.
        assert (Hcode : resources.tableDiffSuppressStatement SimpleFold "k" "a" [] d = false)
          by reflexivity.
        rewrite Hcode in H. destruct H as [_ H]. discriminate (H eq_refl).
      * (* the vertical tab is collapsed *)
        assert (E1 : normalize_as_specified W W ("a" ++ [x0b] ++ "a") = "a a")
          by (normalize_ascii; reflexivity).
        assert (E2 : normalize_as_specified W W "a a" = "a a")
          by (normalize_ascii; reflexivity).
        specialize (H "k" ("a" ++ [x0b] ++ "a") "a a" d). rewrite E1, E2 in H.
        assert (Hcode : resources.tableDiffSuppressStatement SimpleFold "k"
                          ("a" ++ [x0b] ++ "a") "a a" d = false)
          by (vm_compute; reflexivity).
        rewrite Hcode, EqualFold_refl in H. destruct H as [_ H]. discriminate (H eq_refl).
    + (* the vertical tab is not trimmed *)
      assert (E1 : normalize_as_specified W W [x0b] = [x0b])
        by (normalize_ascii; reflexivity).
      assert (E2 : normalize_as_specified W W [] = []) by reflexivity.
      specialize (H "k" [x0b] [] d). rewrite E1, E2 in H.
      assert (Hcode : resources.tableDiffSuppressStatement SimpleFold "k" [x0b] [] d = true)
        by (vm_compute; reflexivity).
      rewrite Hcode in H. destruct H as [H _]. discriminate (H eq_refl).
  - (* the space is not collapsed *)
    assert (E1 : normalize_as_specified W W "  " = "  ")
      by (normalize_ascii; reflexivity).
    assert (E2 : normalize_as_specified W W " " = " ")
      by (normalize_ascii; reflexivity).
    specialize (H "k" "  " " " d). rewrite E1, E2 in H.
    assert (Hcode : resources.tableDiffSuppressStatement SimpleFold "k" "  " " " d = true)
      by (vm_compute; reflexivity).
    rewrite Hcode in H. destruct H as [H _]. discriminate (H eq_refl).
Qed.

(* ================================================================== *)
(** * Reading a statement back *)

(** The text up to the first [c] is determined: two strings that hold no [c]
    and are followed by one are the same, and so is what follows. *)
Lemma cut_at_first (c : byte) (a a' r r' : gostring) :
  occurrences c a = O -> occurrences c a' = O ->
  a ++ c :: r = a' ++ c :: r' -> a = a' /\ r = r'.
Proof.
  revert a'. induction a as [|x a IH]; intros [|y a'] Ha Ha' H; cbn [app] in H.
  - injection H as H. now split.
  - injection H as Hc H. subst y. cbn [occurrences] in Ha'.
    rewrite byte_eqb_refl in Ha'. discriminate.
  - injection H as Hc H. subst x. cbn [occurrences] in Ha.
    rewrite byte_eqb_refl in Ha. discriminate.
  - injection H as Hxy H. subst y. cbn [occurrences] in Ha, Ha'.
    destruct (IH a') as [-> ->]; [lia | lia | exact H |]. now split.
Qed.

Lemma cons_eq (x y : byte) (a b : gostring) : x :: a = y :: b -> x = y /\ a = b.
Proof. intros H. injection H as -> ->. now split. Qed.

Lemma quoted_cut (a a' r r' : gostring) :
  occurrences dq a = O -> occurrences dq a' = O ->
  quoted a ++ r = quoted a' ++ r' -> a = a' /\ r = r'.
Proof.
  intros Ha Ha' H. unfold quoted in H.
  rewrite <- !app_assoc in H. cbn [app] in H. injection H as H.
  now apply cut_at_first with dq.
Qed.

Section BuilderFacts.

Import snowflake.

(** X1: a qualified name tells the database, the schema and the name it was
    made of, provided none of them holds a double quote. *)
Theorem QualifiedName_injective (vb vb' : TableBuilder) :
  occurrences dq (db vb) = O -> occurrences dq (schema vb) = O ->
  occurrences dq (name vb) = O ->
  occurrences dq (db vb') = O -> occurrences dq (schema vb') = O ->
  occurrences dq (name vb') = O ->
  returned QualifiedName vb = returned QualifiedName vb' ->
  db vb = db vb' /\ schema vb = schema vb' /\ name vb = name vb'.
Proof.
  rewrite !QualifiedName_returned.
  destruct vb as [n d s c], vb' as [n' d' s' c'].
  cbn [db schema name].
  intros Hd Hs Hn Hd' Hs' Hn' H.
  assert (Hq : forall a a', occurrences dq a = O -> occurrences dq a' = O ->
                            quoted a = quoted a' -> a = a').
  { intros a a' Ha Ha' E.
    apply (@quoted_cut a a' [] []); rewrite ?app_nil_r; assumption. }
  destruct d as [|bd d], s as [|bs s], d' as [|bd' d'], s' as [|bs' s'];
    repeat match type of H with
    | quoted _ = quoted _ => apply Hq in H; [| assumption | assumption]
    | quoted ?a ++ ?r = quoted ?a' =>
        rewrite <- (app_nil_r (quoted a')) in H
    | quoted ?a = quoted ?a' ++ ?r =>
        rewrite <- (app_nil_r (quoted a)) in H
    | quoted _ ++ _ = quoted _ ++ _ =>
        apply quoted_cut in H; [| assumption | assumption];
        destruct H as [? H]
    | (_ :: _) ++ _ = _ => cbn [app] in H
    | _ = (_ :: _) ++ _ => cbn [app] in H
    | _ :: _ = _ :: _ => apply cons_eq in H; destruct H as [? H]
    | _ :: _ = quoted _ ++ _ => unfold quoted in H; cbn [app] in H
    | quoted _ ++ _ = _ :: _ => unfold quoted in H; cbn [app] in H
    | _ :: _ = quoted _ => unfold quoted in H; cbn [app] in H
    | quoted _ = _ :: _ => unfold quoted in H; cbn [app] in H
    end;
    try discriminate; repeat split; congruence.
Qed.

(** Two builders that differ in the comment have the same qualified name. *)
Lemma QualifiedName_injective_witness :
  db (mkTableBuilder "T" "D" "S" "one") = db (mkTableBuilder "T" "D" "S" "two") /\
  schema (mkTableBuilder "T" "D" "S" "one") = schema (mkTableBuilder "T" "D" "S" "two") /\
  name (mkTableBuilder "T" "D" "S" "one") = name (mkTableBuilder "T" "D" "S" "two").
Proof.
  apply (@QualifiedName_injective (mkTableBuilder "T" "D" "S" "one")
                                  (mkTableBuilder "T" "D" "S" "two"));
    reflexivity.
Defined.

(** X2: [QualifiedName] copies its parts between double quotes as they are:
    a table name that holds [s"."n] is qualified like the table [n] of the
    schema [s]. *)
Theorem QualifiedName_copies_quotes (s n : gostring) :
  s <> [] ->
  returned QualifiedName (Table (s ++ [dq] ++ "." ++ [dq] ++ n))
  = returned QualifiedName (WithSchema s (Table n)).
Proof.
  intros Hs. rewrite !QualifiedName_returned.
  destruct s as [|b s]; [congruence|].
  cbn [Table WithSchema db schema name]. flatten_app.
Qed.

(** The table S"."T and the table T of the schema S. *)
Lemma QualifiedName_copies_quotes_witness :
  returned QualifiedName (Table ("S" ++ [dq] ++ "." ++ [dq] ++ "T"))
  = returned QualifiedName (WithSchema "S" (Table "T")).
Proof. apply (@QualifiedName_copies_quotes "S" "T"). discriminate. Defined.

(** X3: a chain of calls of [WithDB], [WithSchema] and [WithComment] on a
    builder leaves the name as it is, and each of the other fields at the
    value that the last call for it has given, or as it was when no call
    was for it: calls for different fields can be exchanged, and of two
    calls for the same field the later one counts. *)
Theorem setters_compose (calls : list setter) (vb : TableBuilder) :
  chain calls vb
  = mkTableBuilder (name vb)
      (last_given db_given calls (db vb))
      (last_given schema_given calls (schema vb))
      (last_given comment_given calls (comment vb)).
Proof.
  revert vb. induction calls as [|x calls IH]; intros vb.
  - now destruct vb.
  - cbn [chain last_given]. rewrite IH. now destruct x.
Qed.

(** X4: the statements built after a [Rename] are about the table under its
    new name: [Drop], [RemoveComment], [ChangeComment] and a second [Rename]
    all write the new qualified name. *)
Theorem statements_follow_Rename (vb : TableBuilder) (n n' c : gostring) :
  let vb' := after (Rename n) vb in
  let qn := returned QualifiedName (renamed_to n vb) in
  returned Drop vb' = "DROP TABLE " ++ qn /\
  returned RemoveComment vb' = "ALTER TABLE " ++ qn ++ " UNSET COMMENT" /\
  returned (ChangeComment c) vb'
    = "ALTER TABLE " ++ qn ++ " SET COMMENT = '" ++ c ++ "'" /\
  returned (Rename n') vb'
    = "ALTER TABLE " ++ qn ++ " RENAME TO "
      ++ returned QualifiedName (renamed_to n' vb) /\
  after (Rename n') vb' = after (Rename n') vb.
Proof.
  destruct vb as [n0 d s c0]. unfold returned, after, renamed_to.
  cbn. rewrite !app_nil_r.
  repeat split; flatten_app.
Qed.

Lemma Create_returned (vb : TableBuilder) :
  returned Create vb
  = "CREATE OR REPLACE TABLE " ++ returned QualifiedName vb
    ++ "(placeholder varchar(100))"
    ++ match comment vb with
       | [] => []
       | _ :: _ => " COMMENT = '" ++ comment vb ++ "'"
       end.
Proof.
  destruct vb as [n d s c]; unfold returned; simpl.
  destruct c as [|b c]; simpl; flatten_app.
Qed.

(** X5: the comment of the builder is written by [Create] only: the
    qualified name and the statements of [Rename], [ChangeComment],
    [RemoveComment], [Show] and [Drop] are the same whatever
    [WithComment] has set. *)
Theorem comment_read_by_Create_only (vb : TableBuilder) (c n c' : gostring) :
  returned QualifiedName (WithComment c vb) = returned QualifiedName vb /\
  returned (Rename n) (WithComment c vb) = returned (Rename n) vb /\
  returned (ChangeComment c') (WithComment c vb) = returned (ChangeComment c') vb /\
  returned RemoveComment (WithComment c vb) = returned RemoveComment vb /\
  returned Show (WithComment c vb) = returned Show vb /\
  returned Drop (WithComment c vb) = returned Drop vb /\
  (returned Create (WithComment c vb) = returned Create vb <-> c = comment vb).
Proof.
  split; [|split; [|split; [|split; [|split; [|split]]]]];
    try (destruct vb as [n0 [|b0 d] s c0]; reflexivity).
  rewrite !Create_returned.
  replace (returned QualifiedName (WithComment c vb))
    with (returned QualifiedName vb) by (destruct vb; reflexivity).
  destruct vb as [n0 d s c0]. cbn [WithComment comment name db schema].
  split; [|intros ->; reflexivity].
  intros H. apply app_inv_head in H. apply app_inv_head in H.
  apply app_inv_head in H.
  destruct c as [|b c], c0 as [|b0 c0]; try reflexivity; try discriminate.
  apply app_inv_head in H.
  change (b :: c ++ "'") with ((b :: c) ++ "'") in H.
  change (b0 :: c0 ++ "'") with ((b0 :: c0) ++ "'") in H.
  now apply app_inj_tail in H.
Qed.

End BuilderFacts.

(* ================================================================== *)
(** * Identifiers, encoded and decoded *)

Lemma Sprintf_identifier (d s n : gostring) :
  fmt.Sprintf "%v|%v|%v" [d; s; n] = d ++ "|" ++ s ++ "|" ++ n.
Proof. cbn. now rewrite app_nil_r. Qed.

Lemma occurrences_identifier (d s n : gostring) :
  occurrences "|" (d ++ "|" ++ s ++ "|" ++ n)
  = (2 + (occurrences "|" d + occurrences "|" s + occurrences "|" n))%nat.
Proof.
  rewrite !occurrences_app. cbn [occurrences]. rewrite !byte_eqb_refl. lia.
Qed.

Section Identifier.

Variables d s n : gostring.

Let bars := (occurrences "|" d + occurrences "|" s + occurrences "|" n)%nat.

Lemma identifier_accepted :
  bars = O ->
  resources.splitTableID (fmt.Sprintf "%v|%v|%v" [d; s; n]) = (d, s, n, None).
Proof.
  intros Hbars. subst bars. rewrite Sprintf_identifier, splitTableID_Split.
  destruct (Split_pieces "|" (d ++ "|" ++ s ++ "|" ++ n)) as (Hlen & Hjoin & Hall).
  rewrite occurrences_identifier, Hbars in Hlen.
  destruct (strings.Split _ "|") as [|a [|b [|c [|x l]]]]; try discriminate.
  inversion Hall as [|? ? Ha Hall1]; subst.
  inversion Hall1 as [|? ? Hb Hall2]; subst.
  cbn [joined] in Hjoin.
  apply cut_at_first in Hjoin; [| assumption | lia].
  destruct Hjoin as [-> Hjoin].
  apply cut_at_first in Hjoin; [| assumption | lia].
  destruct Hjoin as [-> ->]. reflexivity.
Qed.

Lemma identifier_refused :
  bars <> O ->
  resources.splitTableID (fmt.Sprintf "%v|%v|%v" [d; s; n])
  = ([], [], [], fmt.Errorf "ID %v is invalid" [fmt.Sprintf "%v|%v|%v" [d; s; n]]).
Proof.
  intros Hbars. subst bars. rewrite Sprintf_identifier, splitTableID_Split.
  destruct (Split_pieces "|" (d ++ "|" ++ s ++ "|" ++ n)) as (Hlen & _ & _).
  rewrite occurrences_identifier in Hlen.
  destruct (strings.Split _ "|") as [|a [|b [|c [|x l]]]]; try reflexivity.
  cbn [length] in Hlen. lia.
Qed.

End Identifier.

(** X6: the identifier [database|schema|name] that [CreateTable] and
    [UpdateTable] store is decoded by [splitTableID] to the three parts it
    was made of when none of them holds a [|], and is refused as invalid as
    soon as one of them does. *)
Theorem identifier_round_trip (d s n : gostring) :
  let v := fmt.Sprintf "%v|%v|%v" [d; s; n] in
  let bars := (occurrences "|" d + occurrences "|" s + occurrences "|" n)%nat in
  (bars = O -> resources.splitTableID v = (d, s, n, None)) /\
  (bars <> O ->
   resources.splitTableID v = ([], [], [], fmt.Errorf "ID %v is invalid" [v])).
Proof.
  intros v bars. subst v bars.
  split; [apply identifier_accepted | apply identifier_refused].
Qed.

(** An identifier that is decoded, and one whose name holds a [|]. *)
Lemma identifier_round_trip_witness :
  resources.splitTableID (fmt.Sprintf "%v|%v|%v" ["DB"; "PUBLIC"; "events"])
    = ("DB", "PUBLIC", "events", None) /\
  resources.splitTableID (fmt.Sprintf "%v|%v|%v" ["DB"; "PUBLIC"; "a|b"])
    = ([], [], [], Some "ID DB|PUBLIC|a|b is invalid").
Proof.
  split.
  - apply (proj1 (identifier_round_trip "DB" "PUBLIC" "events")). reflexivity.
  - apply (proj2 (identifier_round_trip "DB" "PUBLIC" "a|b")). simpl. lia.
Defined.

(** X7: what [splitTableID] decodes without an error is the identifier
    again when it is put together: the three parts hold no [|], and
    formatting them as [CreateTable] does gives the string that was
    decoded. *)
Theorem splitTableID_rebuilds (v a b c : gostring) :
  resources.splitTableID v = (a, b, c, None) ->
  fmt.Sprintf "%v|%v|%v" [a; b; c] = v /\
  occurrences "|" a = O /\ occurrences "|" b = O /\ occurrences "|" c = O.
Proof.
  rewrite splitTableID_Split, Sprintf_identifier.
  destruct (Split_pieces "|" v) as (_ & Hjoin & Hall).
  destruct (strings.Split v "|") as [|a' [|b' [|c' [|x l]]]]; try discriminate.
  intros H. injection H as -> -> ->.
  inversion Hall as [|? ? Ha Hall1]; subst.
  inversion Hall1 as [|? ? Hb Hall2]; subst.
  inversion Hall2 as [|? ? Hc _]; subst.
  repeat split; assumption.
Qed.

(** An identifier with an empty schema. *)
Lemma splitTableID_rebuilds_witness :
  fmt.Sprintf "%v|%v|%v" ["DB"; []; "events"] = "DB||events" /\
  occurrences "|" "DB" = O /\ occurrences "|" [] = O /\
  occurrences "|" "events" = O.
Proof.
  apply (@splitTableID_rebuilds "DB||events" "DB" [] "events"). reflexivity.
Defined.

(* ================================================================== *)
(** * The callbacks of the resource *)

(** Unfold a callback down to the resource data and the connection. *)
Ltac run_callback :=
  unfold after, returned, bind, resources.on_data, resources.on_db,
    resources.log_Print, ret, tfschema.Partial, tfschema.Id, tfschema.SetId,
    tfschema.HasChange, tfschema.GetChange, tfschema.SetPartial, tfschema.GetOk,
    tfschema.Get, tfschema.Set_, snowflake.Exec, snowflake.QueryRow, sql.Query,
    bind, ret;
  cbn [resources.data resources.sent resources.logged tfschema.id tfschema.prior
       tfschema.planned tfschema.was_set tfschema.partial tfschema.partial_keys
       snowflake.execs snowflake.queries fst snd].

(** The builder of the table that an identifier names. *)
Lemma builder_of_identifier (dbName schema table : gostring) :
  snowflake.WithSchema schema (snowflake.WithDB dbName (snowflake.Table table))
  = snowflake.mkTableBuilder table dbName schema [].
Proof. reflexivity. Qed.

Section Callbacks.

Variable meta : snowflake.DB.

(** [ReadTable] on an identifier that is refused. *)
Lemma ReadTable_refused (run : resources.Run) (e : gostring) (a b c : gostring) :
  resources.splitTableID (tfschema.id (resources.data run)) = (a, b, c, Some e) ->
  resources.ReadTable meta run = (Some e, run).
Proof.
  intros H. destruct run as [d snt lg]. unfold resources.ReadTable. run_callback.
  cbn [resources.data] in H. rewrite H. reflexivity.
Qed.

(** [ReadTable] on an identifier that is accepted: the query, the scan of
    the row, and the three attributes written. *)
Lemma ReadTable_accepted (run : resources.Run) (dbName schema table : gostring) :
  resources.splitTableID (tfschema.id (resources.data run))
    = (dbName, schema, table, None) ->
  let d := resources.data run in
  let q := returned snowflake.Show (snowflake.mkTableBuilder table dbName schema []) in
  let sent' := snowflake.mkSent (snowflake.execs (resources.sent run))
                                (snowflake.queries (resources.sent run) ++ [q]) in
  let scan := snowflake.ScanTable (snowflake.answer_query meta (resources.sent run) q) in
  resources.ReadTable meta run =
  match snd scan with
  | Some e => (Some e, resources.mkRun d sent' (resources.logged run))
  | None =>
      (None,
       resources.mkRun
         (tfschema.mkResourceData (tfschema.id d) (tfschema.prior d) (tfschema.planned d)
            (("database", snowflake.String (snowflake.DatabaseName (fst scan)))
             :: ("schema", snowflake.String (snowflake.SchemaName (fst scan)))
             :: ("name", snowflake.String (snowflake.Name (fst scan)))
             :: tfschema.was_set d)
            (tfschema.partial d) (tfschema.partial_keys d))
         sent' (resources.logged run))
  end.
Proof.
  intros H. destruct run as [d snt lg]. cbn [resources.data] in *.
  cbv zeta. unfold resources.ReadTable. run_callback.
  rewrite H. rewrite builder_of_identifier. run_callback.
  destruct (snowflake.ScanTable _) as [v [e|]]; reflexivity.
Qed.

(** What [ReadTable] leaves as it is: it runs no statement, writes no log,
    and keeps the identifier, the prior state, the plan and the
    partial-state bookkeeping. *)
Lemma ReadTable_frame (run : resources.Run) :
  let done := after (resources.ReadTable meta) run in
  snowflake.execs (resources.sent done) = snowflake.execs (resources.sent run) /\
  resources.logged done = resources.logged run /\
  tfschema.id (resources.data done) = tfschema.id (resources.data run) /\
  tfschema.prior (resources.data done) = tfschema.prior (resources.data run) /\
  tfschema.planned (resources.data done) = tfschema.planned (resources.data run) /\
  tfschema.partial (resources.data done) = tfschema.partial (resources.data run) /\
  tfschema.partial_keys (resources.data done)
    = tfschema.partial_keys (resources.data run).
Proof.
  cbv zeta. unfold after.
  destruct (resources.splitTableID (tfschema.id (resources.data run)))
    as [[[a b] c] [e|]] eqn:E.
  - rewrite (ReadTable_refused run E). repeat split.
  - rewrite (ReadTable_accepted run E). cbv zeta.
    destruct (snd (snowflake.ScanTable _)); repeat split.
Qed.

Lemma splitTableID_refuses (v : gostring) :
  occurrences "|" v <> 2%nat ->
  resources.splitTableID v = ([], [], [], fmt.Errorf "ID %v is invalid" [v]).
Proof.
  intros Hv. rewrite splitTableID_Split.
  destruct (Split_pieces "|" v) as (Hlen & _ & _).
  destruct (strings.Split v "|") as [|a [|b [|c [|d l]]]]; try reflexivity.
  simpl in Hlen. congruence.
Qed.

(** X8: an identifier that does not hold exactly two [|] stops every
    callback that decodes it before anything is sent: [ReadTable],
    [DeleteTable] and [TableExists] return the error [ID <id> is invalid] and
    leave the resource data, the connection and the log as they were;
    [UpdateTable] does too, after it has switched the partial mode on. *)
Theorem invalid_identifier_stops_callbacks
  (answer_rows : snowflake.DB -> snowflake.Sent -> gostring -> sql.Rows * error)
  (run : resources.Run) :
  let v := tfschema.id (resources.data run) in
  let err := Some ("ID " ++ v ++ " is invalid") in
  occurrences "|" v <> 2%nat ->
  resources.ReadTable meta run = (err, run) /\
  resources.DeleteTable meta run = (err, run) /\
  resources.TableExists answer_rows meta run = (false, err, run) /\
  resources.UpdateTable meta run
  = (err, resources.mkRun (after (tfschema.Partial true) (resources.data run))
                          (resources.sent run) (resources.logged run)).
Proof.
  cbv zeta. intros Hv. apply splitTableID_refuses in Hv.
  assert (Herr : fmt.Errorf "ID %v is invalid" [tfschema.id (resources.data run)]
                 = Some ("ID " ++ tfschema.id (resources.data run) ++ " is invalid")).
  { reflexivity. }
  rewrite Herr in Hv. clear Herr.
  destruct run as [d snt lg]. cbn [resources.data] in *.
  split; [|split; [|split]].
  - unfold resources.ReadTable. run_callback. rewrite Hv. reflexivity.
  - unfold resources.DeleteTable. run_callback. rewrite Hv. reflexivity.
  - unfold resources.TableExists. run_callback. rewrite Hv. reflexivity.
  - unfold resources.UpdateTable. run_callback. rewrite Hv. reflexivity.
Qed.

(** X9: on an identifier that is accepted, [ReadTable] sends one query, the
    [Show] statement of the table the identifier names, and returns the
    error of the scan of the row.  When the scan succeeds, the name, the
    schema and the database of the resource are those of the row, and every
    other attribute (the comment among them) reads as before; when it
    fails, the resource data are as before. *)
Theorem ReadTable_refreshes (run : resources.Run) (dbName schema table : gostring) :
  resources.splitTableID (tfschema.id (resources.data run))
    = (dbName, schema, table, None) ->
  let q := returned snowflake.Show (snowflake.mkTableBuilder table dbName schema []) in
  let scan := snowflake.ScanTable (snowflake.answer_query meta (resources.sent run) q) in
  let done := after (resources.ReadTable meta) run in
  snowflake.queries (resources.sent done)
    = snowflake.queries (resources.sent run) ++ [q] /\
  returned (resources.ReadTable meta) run = snd scan /\
  (snd scan = None ->
   returned (tfschema.Get "name") (resources.data done)
     = snowflake.String (snowflake.Name (fst scan)) /\
   returned (tfschema.Get "schema") (resources.data done)
     = snowflake.String (snowflake.SchemaName (fst scan)) /\
   returned (tfschema.Get "database") (resources.data done)
     = snowflake.String (snowflake.DatabaseName (fst scan)) /\
   forall key : gostring,
     key <> "name" -> key <> "schema" -> key <> "database" ->
     returned (tfschema.Get key) (resources.data done)
     = returned (tfschema.Get key) (resources.data run)) /\
  (snd scan <> None -> resources.data done = resources.data run).
Proof.
  intros H. cbv zeta. unfold after, returned at 2.
  rewrite (ReadTable_accepted run H). cbv zeta.
  destruct (snd (snowflake.ScanTable _)) as [e|].
  - repeat split; try discriminate.
  - repeat split; try congruence.
    intros key Hn Hs Hd. unfold returned, tfschema.Get.
    cbn [resources.data tfschema.was_set tfschema.planned tfschema.lookup fst snd].
    rewrite (@str_eqb_neq "database" key), (@str_eqb_neq "schema" key),
      (@str_eqb_neq "name" key) by congruence.
    reflexivity.
Qed.

(** [CreateTable], step by step: the statement, the line of the log, and
    what follows the answer of the warehouse. *)
Lemma CreateTable_steps (run : resources.Run) :
  let d := resources.data run in
  let name := returned (tfschema.Get "name") d in
  let schema := returned (tfschema.Get "schema") d in
  let database := returned (tfschema.Get "database") d in
  let comment := returned (tfschema.Get "comment") d in
  let q := returned snowflake.Create
             (snowflake.mkTableBuilder name database schema comment) in
  let sent' := snowflake.mkSent (snowflake.execs (resources.sent run) ++ [q])
                                (snowflake.queries (resources.sent run)) in
  let logged' := resources.logged run ++ ["[DEBUG] xxx " ++ q] in
  resources.CreateTable meta run =
  match snowflake.answer_exec meta (resources.sent run) q with
  | Some e =>
      (Some ("error creating table " ++ name ++ ": " ++ e),
       resources.mkRun d sent' logged')
  | None =>
      resources.ReadTable meta
        (resources.mkRun
           (after (tfschema.SetId (fmt.Sprintf "%v|%v|%v" [database; schema; name])) d)
           sent' logged')
  end.
Proof.
  destruct run as [d snt lg]. cbv zeta. cbn [resources.data resources.sent resources.logged].
  unfold resources.CreateTable. run_callback.
  set (name := match tfschema.lookup "name" _ with Some v => v | None => _ end).
  set (schema := match tfschema.lookup "schema" _ with Some v => v | None => _ end).
  set (database := match tfschema.lookup "database" _ with Some v => v | None => _ end).
  set (comment := match tfschema.lookup "comment" _ with Some v => v | None => _ end).
  assert (Hb : (if negb (str_eqb schema [])
                then snowflake.WithSchema schema
                       (if negb (str_eqb comment [])
                        then snowflake.WithComment comment
                               (snowflake.WithSchema schema
                                  (snowflake.WithDB database (snowflake.Table name)))
                        else snowflake.WithSchema schema
                               (snowflake.WithDB database (snowflake.Table name)))
                else (if negb (str_eqb comment [])
                      then snowflake.WithComment comment
                             (snowflake.WithSchema schema
                                (snowflake.WithDB database (snowflake.Table name)))
                      else snowflake.WithSchema schema
                             (snowflake.WithDB database (snowflake.Table name))))
               = snowflake.mkTableBuilder name database schema comment).
  { destruct comment, schema; reflexivity. }
  rewrite Hb. clear Hb.
  destruct (snowflake.Create _) as [q vb] eqn:Eq.
  run_callback. cbn [concat]. rewrite app_nil_r.
  destruct (snowflake.answer_exec meta snt q) as [e|]; [|reflexivity].
  unfold resources.Wrapf. cbn [fmt.Sprintf]. flatten_app.
Qed.

(** X10: [CreateTable] executes one statement whatever happens, the [Create]
    statement of the table with the name, the database, the schema and the
    comment of the configuration, and writes it to the log.  When the
    warehouse refuses it, the callback returns the error with the name of
    the table in front, sends no query, and leaves the resource data as they
    were: no identifier is set. *)
Theorem CreateTable_executes (run : resources.Run) :
  let d := resources.data run in
  let name := returned (tfschema.Get "name") d in
  let q := returned snowflake.Create
             (snowflake.mkTableBuilder name (returned (tfschema.Get "database") d)
                (returned (tfschema.Get "schema") d)
                (returned (tfschema.Get "comment") d)) in
  let done := after (resources.CreateTable meta) run in
  snowflake.execs (resources.sent done) = snowflake.execs (resources.sent run) ++ [q] /\
  resources.logged done = resources.logged run ++ ["[DEBUG] xxx " ++ q] /\
  forall e : gostring,
    snowflake.answer_exec meta (resources.sent run) q = Some e ->
    returned (resources.CreateTable meta) run
      = Some ("error creating table " ++ name ++ ": " ++ e) /\
    resources.data done = d /\
    snowflake.queries (resources.sent done) = snowflake.queries (resources.sent run).
Proof.
  pose proof (CreateTable_steps run) as Hs. cbv zeta in *.
  unfold after, returned in *. rewrite Hs. clear Hs.
  destruct (snowflake.answer_exec meta (resources.sent run) _) as [e|].
  - split; [reflexivity | split; [reflexivity|]].
    intros e' He. injection He as ->. repeat split.
  - match goal with
    | |- context [resources.ReadTable meta ?r] =>
        destruct (ReadTable_frame r) as (Hex & Hlog & _)
    end.
    unfold after in Hex, Hlog. rewrite Hex, Hlog.
    split; [reflexivity | split; [reflexivity|]]. discriminate.
Qed.

(** X11: when the warehouse accepts the statement, [CreateTable] sets the
    identifier [database|schema|name] and reads the table back.  If none of
    the three holds a [|], one query is sent, the [Show] statement of the new
    table, and the callback returns the error of the scan of its row.  If
    one of them holds a [|], the table is created all the same, but the
    callback returns the error [ID <id> is invalid] and sends no query. *)
Theorem CreateTable_identifier (run : resources.Run) :
  let d := resources.data run in
  let name := returned (tfschema.Get "name") d in
  let schema := returned (tfschema.Get "schema") d in
  let database := returned (tfschema.Get "database") d in
  let q := returned snowflake.Create
             (snowflake.mkTableBuilder name database schema
                (returned (tfschema.Get "comment") d)) in
  let v := fmt.Sprintf "%v|%v|%v" [database; schema; name] in
  let bars := (occurrences "|" database + occurrences "|" schema
               + occurrences "|" name)%nat in
  let show := returned snowflake.Show
                (snowflake.mkTableBuilder name database schema []) in
  let done := after (resources.CreateTable meta) run in
  snowflake.answer_exec meta (resources.sent run) q = None ->
  tfschema.id (resources.data done) = v /\
  (bars = O ->
   snowflake.queries (resources.sent done)
     = snowflake.queries (resources.sent run) ++ [show] /\
   returned (resources.CreateTable meta) run
     = snd (snowflake.ScanTable
              (snowflake.answer_query meta
                 (snowflake.mkSent (snowflake.execs (resources.sent run) ++ [q])
                                   (snowflake.queries (resources.sent run)))
                 show))) /\
  (bars <> O ->
   snowflake.queries (resources.sent done) = snowflake.queries (resources.sent run) /\
   returned (resources.CreateTable meta) run = Some ("ID " ++ v ++ " is invalid")).
Proof.
  pose proof (CreateTable_steps run) as Hs. cbv zeta in *. intros Hexec.
  unfold after, returned in *. rewrite Hs, Hexec. clear Hs.
  match goal with
  | |- context [resources.ReadTable meta ?r] => set (mid := r)
  end.
  split; [|split].
  - destruct (ReadTable_frame mid) as (_ & _ & Hid & _). exact Hid.
  - intros Hbars.
    pose proof (identifier_accepted _ _ _ Hbars) as Hsplit.
    pose proof (@ReadTable_accepted mid _ _ _ Hsplit) as Hread.
    cbv zeta in Hread. unfold returned in Hread. rewrite Hread.
    destruct (snd (snowflake.ScanTable _)); split; reflexivity.
  - intros Hbars.
    pose proof (identifier_refused _ _ _ Hbars) as Hsplit.
    rewrite (@ReadTable_refused mid _ _ _ _ Hsplit). split; reflexivity.
Qed.

(** The methods of the builder, as pairs of a statement and a builder. *)
Lemma Rename_pair (n : gostring) (vb : snowflake.TableBuilder) :
  snowflake.Rename n vb = (returned (snowflake.Rename n) vb, renamed_to n vb).
Proof. reflexivity. Qed.

Lemma RemoveComment_pair (vb : snowflake.TableBuilder) :
  snowflake.RemoveComment vb = (returned snowflake.RemoveComment vb, vb).
Proof. reflexivity. Qed.

Lemma ChangeComment_pair (c : gostring) (vb : snowflake.TableBuilder) :
  snowflake.ChangeComment c vb = (returned (snowflake.ChangeComment c) vb, vb).
Proof. reflexivity. Qed.

(** X12: when the name has changed, the first statement [UpdateTable]
    executes is the [Rename] from the table of the identifier to the new
    name.  If the warehouse refuses it, the callback stops there: it returns
    the error with the identifier in front, and apart from the partial mode
    switched on the resource data are as before; no statement about the
    comment is executed and no query is sent. *)
Theorem UpdateTable_rename_refused (run : resources.Run)
  (dbName schema table e : gostring) :
  let d := resources.data run in
  let q := returned (snowflake.Rename (tfschema.planned d "name"))
             (snowflake.mkTableBuilder table dbName schema []) in
  resources.splitTableID (tfschema.id d) = (dbName, schema, table, None) ->
  tfschema.prior d "name" <> tfschema.planned d "name" ->
  snowflake.answer_exec meta (resources.sent run) q = Some e ->
  resources.UpdateTable meta run
  = (Some ("error renaming table " ++ tfschema.id d ++ ": " ++ e),
     resources.mkRun (after (tfschema.Partial true) d)
       (snowflake.mkSent (snowflake.execs (resources.sent run) ++ [q])
                         (snowflake.queries (resources.sent run)))
       (resources.logged run)).
Proof.
  cbv zeta. intros Hid Hname Hexec.
  destruct run as [d snt lg]. cbn [resources.data resources.sent resources.logged] in *.
  unfold resources.UpdateTable. run_callback.
  rewrite Hid, builder_of_identifier. run_callback.
  rewrite (str_eqb_neq Hname). cbn [negb]. run_callback.
  rewrite Rename_pair. run_callback. unfold returned in Hexec. rewrite Hexec.
  run_callback. unfold resources.Wrapf. cbn [fmt.Sprintf]. flatten_app.
Qed.

(** X13: when the warehouse accepts the [Rename], the identifier of the
    resource becomes [database|schema|new name] and the name is marked as
    saved.  A change of the comment is then executed on the renamed
    table: the second statement writes the new qualified name, not the one
    the identifier had.  No other statement is executed. *)
Theorem UpdateTable_renames (run : resources.Run) (dbName schema table : gostring) :
  let d := resources.data run in
  let name := tfschema.planned d "name" in
  let c := tfschema.planned d "comment" in
  let old := snowflake.mkTableBuilder table dbName schema [] in
  let new := snowflake.mkTableBuilder name dbName schema [] in
  let q := returned (snowflake.Rename name) old in
  let done := after (resources.UpdateTable meta) run in
  resources.splitTableID (tfschema.id d) = (dbName, schema, table, None) ->
  tfschema.prior d "name" <> name ->
  snowflake.answer_exec meta (resources.sent run) q = None ->
  tfschema.id (resources.data done) = fmt.Sprintf "%v|%v|%v" [dbName; schema; name] /\
  In "name" (tfschema.partial_keys (resources.data done)) /\
  snowflake.execs (resources.sent done)
  = snowflake.execs (resources.sent run) ++
    q :: (if str_eqb (tfschema.prior d "comment") c then []
          else if str_eqb c [] then [returned snowflake.RemoveComment new]
          else [returned (snowflake.ChangeComment c) new]).
Proof.
  cbv zeta. intros Hid Hname Hexec.
  destruct run as [d snt lg]. cbn [resources.data resources.sent resources.logged] in *.
  unfold after at 1 2 3. unfold resources.UpdateTable. run_callback.
  rewrite Hid, builder_of_identifier. run_callback.
  rewrite (str_eqb_neq Hname). cbn [negb]. run_callback.
  rewrite Rename_pair. run_callback. unfold returned in Hexec. rewrite Hexec.
  clear Hexec. run_callback. unfold renamed_to. cbn [snowflake.db snowflake.schema snowflake.comment].
  destruct (str_eqb (tfschema.prior d "comment") (tfschema.planned d "comment"));
    cbn [negb]; run_callback.
  - match goal with
    | |- context [resources.ReadTable meta ?r] =>
        destruct (ReadTable_frame r) as (Hex & _ & Hi & _ & _ & _ & Hk)
    end.
    unfold after in Hex, Hi, Hk. rewrite Hex, Hi, Hk.
    cbn [resources.data resources.sent tfschema.id tfschema.partial_keys snowflake.execs].
    split; [reflexivity | split; [now left | reflexivity]].
  - destruct (str_eqb (tfschema.planned d "comment") []).
    + rewrite RemoveComment_pair. run_callback.
      destruct (snowflake.answer_exec meta _ _) as [e|]; run_callback.
      * split; [reflexivity | split; [now left |]].
        now rewrite <- app_assoc.
      * match goal with
        | |- context [resources.ReadTable meta ?r] =>
            destruct (ReadTable_frame r) as (Hex & _ & Hi & _ & _ & _ & Hk)
        end.
        unfold after in Hex, Hi, Hk. rewrite Hex, Hi, Hk.
        cbn [resources.data resources.sent tfschema.id tfschema.partial_keys
             snowflake.execs].
        split; [reflexivity | split; [right; now left |]].
        now rewrite <- app_assoc.
    + rewrite ChangeComment_pair. run_callback.
      destruct (snowflake.answer_exec meta _ _) as [e|]; run_callback.
      * split; [reflexivity | split; [now left |]].
        now rewrite <- app_assoc.
      * match goal with
        | |- context [resources.ReadTable meta ?r] =>
            destruct (ReadTable_frame r) as (Hex & _ & Hi & _ & _ & _ & Hk)
        end.
        unfold after in Hex, Hi, Hk. rewrite Hex, Hi, Hk.
        cbn [resources.data resources.sent tfschema.id tfschema.partial_keys
             snowflake.execs].
        split; [reflexivity | split; [right; now left |]].
        now rewrite <- app_assoc.
Qed.

(** X14: when neither the name nor the comment has changed, [UpdateTable]
    executes nothing: it switches the partial mode on and does what
    [ReadTable] does. *)
Theorem UpdateTable_unchanged (run : resources.Run) :
  let d := resources.data run in
  tfschema.prior d "name" = tfschema.planned d "name" ->
  tfschema.prior d "comment" = tfschema.planned d "comment" ->
  resources.UpdateTable meta run
  = resources.ReadTable meta
      (resources.mkRun (after (tfschema.Partial true) d) (resources.sent run)
                       (resources.logged run)).
Proof.
  cbv zeta. intros Hname Hcomment.
  destruct run as [d snt lg]. cbn [resources.data resources.sent resources.logged] in *.
  unfold resources.UpdateTable. run_callback.
  destruct (resources.splitTableID (tfschema.id d)) as [[[a b] c] [e|]] eqn:E.
  - symmetry. apply ReadTable_refused with a b c. exact E.
  - run_callback. rewrite Hname, str_eqb_refl. cbn [negb]. run_callback.
    rewrite Hcomment, str_eqb_refl. reflexivity.
Qed.

(** X15: when the warehouse refuses the statement about the comment,
    [UpdateTable] returns its error behind [error unsetting comment for
    table <id>] (new comment empty) or [error updating comment for table
    <id>]; the comment is not marked as saved and no query is sent. *)
Theorem UpdateTable_comment_refused (run : resources.Run)
  (dbName schema table e : gostring) :
  let d := resources.data run in
  let c := tfschema.planned d "comment" in
  let vb := snowflake.mkTableBuilder table dbName schema [] in
  let q := if str_eqb c [] then returned snowflake.RemoveComment vb
           else returned (snowflake.ChangeComment c) vb in
  resources.splitTableID (tfschema.id d) = (dbName, schema, table, None) ->
  tfschema.prior d "name" = tfschema.planned d "name" ->
  tfschema.prior d "comment" <> c ->
  snowflake.answer_exec meta (resources.sent run) q = Some e ->
  resources.UpdateTable meta run
  = (Some ((if str_eqb c [] then "error unsetting comment for table "
            else "error updating comment for table ") ++ tfschema.id d ++ ": " ++ e),
     resources.mkRun (after (tfschema.Partial true) d)
       (snowflake.mkSent (snowflake.execs (resources.sent run) ++ [q])
                         (snowflake.queries (resources.sent run)))
       (resources.logged run)).
Proof.
  cbv zeta. intros Hid Hname Hcomment Hexec.
  destruct run as [d snt lg]. cbn [resources.data resources.sent resources.logged] in *.
  unfold resources.UpdateTable. run_callback.
  rewrite Hid, builder_of_identifier. run_callback.
  rewrite Hname, str_eqb_refl. cbn [negb]. run_callback.
  rewrite (str_eqb_neq Hcomment). cbn [negb]. run_callback.
  unfold returned in Hexec.
  destruct (str_eqb (tfschema.planned d "comment") []).
  - rewrite RemoveComment_pair. run_callback. rewrite Hexec. run_callback.
    unfold resources.Wrapf. cbn [fmt.Sprintf]. flatten_app.
  - rewrite ChangeComment_pair. run_callback. rewrite Hexec. run_callback.
    unfold resources.Wrapf. cbn [fmt.Sprintf]. flatten_app.
Qed.

(** [ReadTable] sends one query at most. *)
Lemma ReadTable_queries (run : resources.Run) :
  exists qs : list gostring,
    snowflake.queries (resources.sent (after (resources.ReadTable meta) run))
    = snowflake.queries (resources.sent run) ++ qs /\ (length qs <= 1)%nat.
Proof.
  unfold after.
  destruct (resources.splitTableID (tfschema.id (resources.data run)))
    as [[[a b] c] [e|]] eqn:E.
  - rewrite (ReadTable_refused run E). exists []. rewrite app_nil_r.
    split; [reflexivity | cbn; lia].
  - rewrite (ReadTable_accepted run E). cbv zeta.
    destruct (snd (snowflake.ScanTable _)); eexists; (split; [reflexivity|]);
      cbn; lia.
Qed.

(** What is appended to a list, with a bound on its length. *)
Ltac appended :=
  first [ exists []; split; [symmetry; apply app_nil_r | cbn [length]; lia]
        | eexists; split; [rewrite <- ?app_assoc; reflexivity | cbn [length app]; lia] ].

(** X16: whatever the state of the resource and whatever the warehouse
    answers, [UpdateTable] executes two statements at most and sends one
    query at most, after what was sent before; it leaves the partial mode
    switched on, and changes neither the prior state, nor the plan, nor the
    log. *)
Theorem UpdateTable_bounds (run : resources.Run) :
  let done := after (resources.UpdateTable meta) run in
  (exists stmts : list gostring,
     snowflake.execs (resources.sent done)
     = snowflake.execs (resources.sent run) ++ stmts /\ (length stmts <= 2)%nat) /\
  (exists qs : list gostring,
     snowflake.queries (resources.sent done)
     = snowflake.queries (resources.sent run) ++ qs /\ (length qs <= 1)%nat) /\
  tfschema.partial (resources.data done) = true /\
  tfschema.prior (resources.data done) = tfschema.prior (resources.data run) /\
  tfschema.planned (resources.data done) = tfschema.planned (resources.data run) /\
  resources.logged done = resources.logged run.
Proof.
  cbv zeta. destruct run as [d snt lg].
  cbn [resources.data resources.sent resources.logged].
  unfold resources.UpdateTable. run_callback.
  destruct (resources.splitTableID (tfschema.id d)) as [[[dbName schema] table] [e|]].
  { run_callback. repeat split; appended. }
  run_callback.
  assert (Hread : forall r : resources.Run,
    tfschema.partial (resources.data r) = true ->
    tfschema.prior (resources.data r) = tfschema.prior d ->
    tfschema.planned (resources.data r) = tfschema.planned d ->
    resources.logged r = lg ->
    snowflake.queries (resources.sent r) = snowflake.queries snt ->
    forall stmts : list gostring,
    snowflake.execs (resources.sent r) = snowflake.execs snt ++ stmts ->
    (length stmts <= 2)%nat ->
    let done := snd (resources.ReadTable meta r) in
    (exists stmts : list gostring,
       snowflake.execs (resources.sent done) = snowflake.execs snt ++ stmts /\
       (length stmts <= 2)%nat) /\
    (exists qs : list gostring,
       snowflake.queries (resources.sent done) = snowflake.queries snt ++ qs /\
       (length qs <= 1)%nat) /\
    tfschema.partial (resources.data done) = true /\
    tfschema.prior (resources.data done) = tfschema.prior d /\
    tfschema.planned (resources.data done) = tfschema.planned d /\
    resources.logged done = lg).
  { intros r Hpa Hpr Hpl Hlg Hqs stmts Hex Hlen. cbv zeta.
    destruct (ReadTable_frame r) as (Hex' & Hlg' & _ & Hpr' & Hpl' & Hpa' & _).
    destruct (ReadTable_queries r) as (qs & Hqs' & Hqlen).
    unfold after in *.
    rewrite Hex', Hlg', Hpr', Hpl', Hpa', Hqs', Hex, Hqs.
    repeat split; try assumption; eauto. }
  destruct (negb (str_eqb (tfschema.prior d "name") (tfschema.planned d "name")));
    run_callback.
  - rewrite Rename_pair. run_callback.
    destruct (snowflake.answer_exec meta snt _) as [e|]; run_callback.
    { split; [appended | split; [appended | repeat split]]. }
    destruct (negb (str_eqb (tfschema.prior d "comment") (tfschema.planned d "comment")));
      run_callback.
    + destruct (str_eqb (tfschema.planned d "comment") []).
      * rewrite RemoveComment_pair. run_callback.
        destruct (snowflake.answer_exec meta _ _) as [e|]; run_callback.
        { split; [appended | split; [appended | repeat split]]. }
        eapply Hread; try reflexivity;
          [cbn [resources.sent snowflake.execs]; rewrite <- app_assoc; reflexivity
          | cbn [length app]; lia].
      * rewrite ChangeComment_pair. run_callback.
        destruct (snowflake.answer_exec meta _ _) as [e|]; run_callback.
        { split; [appended | split; [appended | repeat split]]. }
        eapply Hread; try reflexivity;
          [cbn [resources.sent snowflake.execs]; rewrite <- app_assoc; reflexivity
          | cbn [length app]; lia].
    + eapply Hread; try reflexivity; cbn [length]; lia.
  - destruct (negb (str_eqb (tfschema.prior d "comment") (tfschema.planned d "comment")));
      run_callback.
    + destruct (str_eqb (tfschema.planned d "comment") []).
      * rewrite RemoveComment_pair. run_callback.
        destruct (snowflake.answer_exec meta _ _) as [e|]; run_callback.
        { split; [appended | split; [appended | repeat split]]. }
        eapply Hread; try reflexivity; cbn [length]; lia.
      * rewrite ChangeComment_pair. run_callback.
        destruct (snowflake.answer_exec meta _ _) as [e|]; run_callback.
        { split; [appended | split; [appended | repeat split]]. }
        eapply Hread; try reflexivity; cbn [length]; lia.
    + eapply Hread with (stmts := []); try reflexivity;
        [cbn [resources.sent]; now rewrite app_nil_r | cbn [length]; lia].
Qed.

(** X17: on an identifier that is accepted, [DeleteTable] executes one
    statement, the [Drop] of the table the identifier names, and sends no
    query.  When the warehouse accepts it, the identifier of the resource is
    cleared and no error is returned; when it refuses, the error comes back
    behind [error deleting table <id>] and the resource keeps its
    identifier. *)
Theorem DeleteTable_drops (run : resources.Run) (dbName schema table : gostring) :
  let d := resources.data run in
  let q := "DROP TABLE "
           ++ returned snowflake.QualifiedName
                (snowflake.mkTableBuilder table dbName schema []) in
  let sent' := snowflake.mkSent (snowflake.execs (resources.sent run) ++ [q])
                                (snowflake.queries (resources.sent run)) in
  resources.splitTableID (tfschema.id d) = (dbName, schema, table, None) ->
  resources.DeleteTable meta run =
  match snowflake.answer_exec meta (resources.sent run) q with
  | Some e =>
      (Some ("error deleting table " ++ tfschema.id d ++ ": " ++ e),
       resources.mkRun d sent' (resources.logged run))
  | None =>
      (None,
       resources.mkRun
         (tfschema.mkResourceData [] (tfschema.prior d) (tfschema.planned d)
            (tfschema.was_set d) (tfschema.partial d) (tfschema.partial_keys d))
         sent' (resources.logged run))
  end.
Proof.
  cbv zeta. intros Hid.
  destruct run as [d snt lg]. cbn [resources.data resources.sent resources.logged] in *.
  unfold resources.DeleteTable. run_callback.
  rewrite Hid, builder_of_identifier. run_callback.
  replace (fst (snowflake.Drop (snowflake.mkTableBuilder table dbName schema [])))
    with ("DROP TABLE " ++ returned snowflake.QualifiedName
                             (snowflake.mkTableBuilder table dbName schema []))
    by (unfold returned; cbn; now rewrite app_nil_r).
  destruct (snowflake.answer_exec meta snt _) as [e|]; run_callback.
  - unfold resources.Wrapf. cbn [fmt.Sprintf]. flatten_app.
  - reflexivity.
Qed.

(** X18: with the name unchanged and the comment changed, when the warehouse
    accepts the statement about the comment, it is the one statement
    [UpdateTable] executes; then the comment is marked as saved, the
    identifier is as before, and the callback goes on as [ReadTable]
    does. *)
Theorem UpdateTable_comment_accepted (run : resources.Run)
  (dbName schema table : gostring) :
  let d := resources.data run in
  let c := tfschema.planned d "comment" in
  let vb := snowflake.mkTableBuilder table dbName schema [] in
  let q := if str_eqb c [] then returned snowflake.RemoveComment vb
           else returned (snowflake.ChangeComment c) vb in
  resources.splitTableID (tfschema.id d) = (dbName, schema, table, None) ->
  tfschema.prior d "name" = tfschema.planned d "name" ->
  tfschema.prior d "comment" <> c ->
  snowflake.answer_exec meta (resources.sent run) q = None ->
  resources.UpdateTable meta run
  = resources.ReadTable meta
      (resources.mkRun
         (tfschema.mkResourceData (tfschema.id d) (tfschema.prior d) (tfschema.planned d)
            (tfschema.was_set d) true ("comment" :: tfschema.partial_keys d))
         (snowflake.mkSent (snowflake.execs (resources.sent run) ++ [q])
                           (snowflake.queries (resources.sent run)))
         (resources.logged run)).
Proof.
  cbv zeta. intros Hid Hname Hcomment Hexec.
  destruct run as [d snt lg]. cbn [resources.data resources.sent resources.logged] in *.
  unfold resources.UpdateTable. run_callback.
  rewrite Hid, builder_of_identifier. run_callback.
  rewrite Hname, str_eqb_refl. cbn [negb]. run_callback.
  rewrite (str_eqb_neq Hcomment). cbn [negb]. run_callback.
  unfold returned in Hexec.
  destruct (str_eqb (tfschema.planned d "comment") []).
  - rewrite RemoveComment_pair. run_callback. rewrite Hexec. reflexivity.
  - rewrite ChangeComment_pair. run_callback. rewrite Hexec. reflexivity.
Qed.

(** [DeleteTable] on an identifier that is accepted. *)
Lemma DeleteTable_accepted (run : resources.Run) (dbName schema table : gostring) :
  resources.splitTableID (tfschema.id (resources.data run))
    = (dbName, schema, table, None) ->
  snowflake.execs (resources.sent (after (resources.DeleteTable meta) run))
  = snowflake.execs (resources.sent run)
    ++ ["DROP TABLE " ++ returned snowflake.QualifiedName
                           (snowflake.mkTableBuilder table dbName schema [])].
Proof.
  intros Hid. destruct run as [d snt lg]. cbn [resources.data resources.sent] in *.
  unfold after, resources.DeleteTable. run_callback.
  rewrite Hid, builder_of_identifier. run_callback.
  replace (fst (snowflake.Drop (snowflake.mkTableBuilder table dbName schema [])))
    with ("DROP TABLE " ++ returned snowflake.QualifiedName
                             (snowflake.mkTableBuilder table dbName schema []))
    by (unfold returned; cbn; now rewrite app_nil_r).
  destruct (snowflake.answer_exec meta snt _) as [e|]; reflexivity.
Qed.

(** X19: [DeleteTable] drops the table that [CreateTable] has created: when
    the database, the schema and the name hold no [|] and the warehouse
    accepts the creation, the two callbacks one after the other execute the
    [CREATE OR REPLACE TABLE] and the [DROP TABLE] of one and the same
    qualified name, whatever the reading back of the table gives. *)
Theorem DeleteTable_drops_created (run : resources.Run) :
  let d := resources.data run in
  let name := returned (tfschema.Get "name") d in
  let schema := returned (tfschema.Get "schema") d in
  let database := returned (tfschema.Get "database") d in
  let comment := returned (tfschema.Get "comment") d in
  let qn := returned snowflake.QualifiedName
              (snowflake.mkTableBuilder name database schema comment) in
  let create := returned snowflake.Create
                  (snowflake.mkTableBuilder name database schema comment) in
  let created := after (resources.CreateTable meta) run in
  (occurrences "|" database + occurrences "|" schema + occurrences "|" name)%nat = O ->
  snowflake.answer_exec meta (resources.sent run) create = None ->
  snowflake.execs (resources.sent (after (resources.DeleteTable meta) created))
  = snowflake.execs (resources.sent run) ++ [create; "DROP TABLE " ++ qn] /\
  exists rest : gostring, create = "CREATE OR REPLACE TABLE " ++ qn ++ rest.
Proof.
  cbv zeta. intros Hbars Hexec. split.
  - pose proof (CreateTable_steps run) as Hs. cbv zeta in Hs.
    assert (Hid : tfschema.id (resources.data (after (resources.CreateTable meta) run))
                  = fmt.Sprintf "%v|%v|%v"
                      [returned (tfschema.Get "database") (resources.data run);
                       returned (tfschema.Get "schema") (resources.data run);
                       returned (tfschema.Get "name") (resources.data run)]).
    { unfold after at 1. rewrite Hs, Hexec.
      match goal with
      | |- context [resources.ReadTable meta ?r] =>
          destruct (ReadTable_frame r) as (_ & _ & Hi & _)
      end.
      exact Hi. }
    assert (Hex : snowflake.execs
                    (resources.sent (after (resources.CreateTable meta) run))
                  = snowflake.execs (resources.sent run)
                    ++ [returned snowflake.Create
                          (snowflake.mkTableBuilder
                             (returned (tfschema.Get "name") (resources.data run))
                             (returned (tfschema.Get "database") (resources.data run))
                             (returned (tfschema.Get "schema") (resources.data run))
                             (returned (tfschema.Get "comment") (resources.data run)))]).
    { unfold after at 1. rewrite Hs, Hexec.
      match goal with
      | |- context [resources.ReadTable meta ?r] =>
          destruct (ReadTable_frame r) as (He & _)
      end.
      exact He. }
    pose proof (identifier_accepted _ _ _ Hbars) as Hsplit. rewrite <- Hid in Hsplit.
    rewrite (DeleteTable_accepted _ Hsplit), Hex, <- app_assoc. reflexivity.
  - rewrite Create_returned. eexists. reflexivity.
Qed.

Section Exists.

Variable answer_rows : snowflake.DB -> snowflake.Sent -> gostring -> sql.Rows * error.

(** X20: [TableExists] only asks: it changes neither the resource data nor
    the log, executes no statement, and sends what [ReadTable] sends for the
    same identifier, the [Show] statement of the table or nothing. *)
Theorem TableExists_only_asks (run : resources.Run) :
  let done := after (resources.TableExists answer_rows meta) run in
  resources.data done = resources.data run /\
  resources.logged done = resources.logged run /\
  snowflake.execs (resources.sent done) = snowflake.execs (resources.sent run) /\
  snowflake.queries (resources.sent done)
  = snowflake.queries (resources.sent (after (resources.ReadTable meta) run)).
Proof.
  cbv zeta. unfold after.
  destruct (resources.splitTableID (tfschema.id (resources.data run)))
    as [[[a b] c] [e|]] eqn:E.
  - rewrite (ReadTable_refused run E).
    destruct run as [d snt lg]. cbn [resources.data] in E.
    unfold resources.TableExists. run_callback. rewrite E. repeat split.
  - rewrite (ReadTable_accepted run E). cbv zeta.
    destruct run as [d snt lg]. cbn [resources.data] in E.
    unfold resources.TableExists. run_callback.
    rewrite E, builder_of_identifier. run_callback.
    destruct (answer_rows meta snt _) as [rows [e|]]; run_callback.
    + destruct (snd (snowflake.ScanTable _)); repeat split.
    + destruct (sql.Next rows) as [[|] rows'];
        destruct (snd (snowflake.ScanTable _)); repeat split.
Qed.

(** X21: on an identifier that is accepted, [TableExists] reports that the
    table exists exactly when the query succeeds and its result has a row;
    an error of the query is returned as it is, with [false]. *)
Theorem TableExists_reports (run : resources.Run) (dbName schema table : gostring) :
  let q := returned snowflake.Show (snowflake.mkTableBuilder table dbName schema []) in
  resources.splitTableID (tfschema.id (resources.data run))
    = (dbName, schema, table, None) ->
  returned (resources.TableExists answer_rows meta) run =
  match answer_rows meta (resources.sent run) q with
  | (_, Some e) => (false, Some e)
  | (rows, None) =>
      (negb (sql.closed rows) && negb (Nat.eqb (length (sql.unread rows)) 0), None)
  end.
Proof.
  cbv zeta. intros Hid.
  destruct run as [d snt lg]. cbn [resources.data resources.sent] in *.
  unfold resources.TableExists. run_callback.
  rewrite Hid, builder_of_identifier. run_callback.
  destruct (answer_rows meta snt _) as [[unread closed] [e|]]; run_callback.
  - reflexivity.
  - unfold sql.Next. cbn [sql.closed sql.unread].
    destruct closed, unread; reflexivity.
Qed.

End Exists.

End Callbacks.

(** The identifier of a resource that was never created is empty, and stops
    the four callbacks. *)
Lemma invalid_identifier_stops_callbacks_witness :
  let run := creation "T" "D" "S" [] in
  resources.ReadTable obliging_db run = (Some "ID  is invalid", run) /\
  resources.DeleteTable obliging_db run = (Some "ID  is invalid", run) /\
  resources.TableExists (fun _ _ _ => (sql.mkRows [] false, None)) obliging_db run
    = (false, Some "ID  is invalid", run) /\
  resources.UpdateTable obliging_db run
  = (Some "ID  is invalid",
     resources.mkRun (after (tfschema.Partial true) (resources.data run))
                     (resources.sent run) (resources.logged run)).
Proof.
  apply (@invalid_identifier_stops_callbacks obliging_db
           (fun _ _ _ => (sql.mkRows [] false, None)) (creation "T" "D" "S" [])).
  simpl. lia.
Defined.

(** [ReadTable] on the resource D|PUBLIC|T: the query, and the name read
    back. *)
Lemma ReadTable_refreshes_witness :
  snowflake.queries
    (resources.sent (after (resources.ReadTable obliging_db) (update "T" "T" [] [])))
  = [] ++ ["SHOW TABLES LIKE 'T' IN DATABASE " ++ quoted "D"] /\
  returned (resources.ReadTable obliging_db) (update "T" "T" [] []) = None.
Proof.
  split.
  - exact (proj1 (@ReadTable_refreshes obliging_db (update "T" "T" [] [])
                    "D" "PUBLIC" "T" eq_refl)).
  - exact (proj1 (proj2 (@ReadTable_refreshes obliging_db (update "T" "T" [] [])
                           "D" "PUBLIC" "T" eq_refl))).
Defined.

(** The creation of table T is refused. *)
Lemma CreateTable_executes_witness :
  returned (resources.CreateTable refusing_db) (creation "T" "D" "PUBLIC" [])
    = Some "error creating table T: denied" /\
  resources.data (after (resources.CreateTable refusing_db) (creation "T" "D" "PUBLIC" []))
    = resources.data (creation "T" "D" "PUBLIC" []) /\
  snowflake.queries
    (resources.sent (after (resources.CreateTable refusing_db)
                           (creation "T" "D" "PUBLIC" [])))
    = [].
Proof.
  exact (proj2 (proj2 (@CreateTable_executes refusing_db (creation "T" "D" "PUBLIC" [])))
               "denied" eq_refl).
Defined.

(** The creation of table T, and of a table whose name holds a [|]. *)
Lemma CreateTable_identifier_witness :
  tfschema.id (resources.data (after (resources.CreateTable obliging_db)
                                     (creation "T" "D" "PUBLIC" [])))
    = "D|PUBLIC|T" /\
  returned (resources.CreateTable obliging_db) (creation "a|b" "D" "PUBLIC" [])
    = Some "ID D|PUBLIC|a|b is invalid".
Proof.
  split.
  - exact (proj1 (@CreateTable_identifier obliging_db (creation "T" "D" "PUBLIC" [])
                    eq_refl)).
  - refine (proj2 (proj2 (proj2 (@CreateTable_identifier obliging_db
                                   (creation "a|b" "D" "PUBLIC" []) eq_refl)) _)).
    simpl. lia.
Defined.

(** The table T is to be renamed to U, and the warehouse refuses. *)
Lemma UpdateTable_rename_refused_witness :
  resources.UpdateTable refusing_db (update "T" "U" "hi" "ho")
  = (Some "error renaming table D|PUBLIC|T: denied",
     resources.mkRun
       (after (tfschema.Partial true) (resources.data (update "T" "U" "hi" "ho")))
       (snowflake.mkSent
          ["ALTER TABLE " ++ quoted "D" ++ "." ++ quoted "PUBLIC" ++ "." ++ quoted "T"
           ++ " RENAME TO " ++ quoted "D" ++ "." ++ quoted "PUBLIC" ++ "." ++ quoted "U"]
          [])
       []).
Proof.
  refine (@UpdateTable_rename_refused refusing_db (update "T" "U" "hi" "ho")
            "D" "PUBLIC" "T" "denied" eq_refl _ eq_refl).
  simpl. discriminate.
Defined.

(** The table T is renamed to U and its comment changed from [hi] to [ho]. *)
Lemma UpdateTable_renames_witness :
  snowflake.execs
    (resources.sent (after (resources.UpdateTable obliging_db) (update "T" "U" "hi" "ho")))
  = ["ALTER TABLE " ++ quoted "D" ++ "." ++ quoted "PUBLIC" ++ "." ++ quoted "T"
     ++ " RENAME TO " ++ quoted "D" ++ "." ++ quoted "PUBLIC" ++ "." ++ quoted "U";
     "ALTER TABLE " ++ quoted "D" ++ "." ++ quoted "PUBLIC" ++ "." ++ quoted "U"
     ++ " SET COMMENT = 'ho'"].
Proof.
  refine (proj2 (proj2 (@UpdateTable_renames obliging_db (update "T" "U" "hi" "ho")
                          "D" "PUBLIC" "T" eq_refl _ eq_refl))).
  simpl. discriminate.
Defined.

(** An update that changes nothing. *)
Lemma UpdateTable_unchanged_witness :
  resources.UpdateTable obliging_db (update "T" "T" "hi" "hi")
  = resources.ReadTable obliging_db
      (resources.mkRun
         (after (tfschema.Partial true) (resources.data (update "T" "T" "hi" "hi")))
         (snowflake.mkSent [] []) []).
Proof.
  exact (@UpdateTable_unchanged obliging_db (update "T" "T" "hi" "hi") eq_refl eq_refl).
Defined.

(** The comment of T is to be removed, and the warehouse refuses. *)
Lemma UpdateTable_comment_refused_witness :
  returned (resources.UpdateTable refusing_db) (update "T" "T" "hi" [])
  = Some "error unsetting comment for table D|PUBLIC|T: denied".
Proof.
  refine (f_equal fst (@UpdateTable_comment_refused refusing_db (update "T" "T" "hi" [])
                         "D" "PUBLIC" "T" "denied" eq_refl eq_refl _ eq_refl)).
  simpl. discriminate.
Defined.

(** The table T is dropped. *)
Lemma DeleteTable_drops_witness :
  resources.DeleteTable obliging_db (update "T" "T" [] [])
  = (None,
     resources.mkRun
       (tfschema.mkResourceData [] (attributes "T" "D" "PUBLIC" [])
          (attributes "T" "D" "PUBLIC" []) [] false [])
       (snowflake.mkSent
          ["DROP TABLE " ++ quoted "D" ++ "." ++ quoted "PUBLIC" ++ "." ++ quoted "T"] [])
       []).
Proof.
  exact (@DeleteTable_drops obliging_db (update "T" "T" [] []) "D" "PUBLIC" "T" eq_refl).
Defined.

(** The comment of T goes from [hi] to [ho]. *)
Lemma UpdateTable_comment_accepted_witness :
  snowflake.execs
    (resources.sent (after (resources.UpdateTable obliging_db) (update "T" "T" "hi" "ho")))
  = ["ALTER TABLE " ++ quoted "D" ++ "." ++ quoted "PUBLIC" ++ "." ++ quoted "T"
     ++ " SET COMMENT = 'ho'"].
Proof.
  refine (f_equal (fun r => snowflake.execs (resources.sent (snd r)))
            (@UpdateTable_comment_accepted obliging_db (update "T" "T" "hi" "ho")
               "D" "PUBLIC" "T" eq_refl eq_refl _ eq_refl)).
  simpl. discriminate.
Defined.

(** The table T is created and dropped. *)
Lemma DeleteTable_drops_created_witness :
  snowflake.execs
    (resources.sent
       (after (resources.DeleteTable obliging_db)
              (after (resources.CreateTable obliging_db) (creation "T" "D" "PUBLIC" "hi"))))
  = ["CREATE OR REPLACE TABLE " ++ quoted "D" ++ "." ++ quoted "PUBLIC" ++ "."
     ++ quoted "T" ++ "(placeholder varchar(100)) COMMENT = 'hi'";
     "DROP TABLE " ++ quoted "D" ++ "." ++ quoted "PUBLIC" ++ "." ++ quoted "T"].
Proof.
  exact (proj1 (@DeleteTable_drops_created obliging_db (creation "T" "D" "PUBLIC" "hi")
                  eq_refl eq_refl)).
Defined.

(** The table T is there. *)
Lemma TableExists_reports_witness :
  returned (resources.TableExists one_row obliging_db) (update "T" "T" [] [])
  = (true, None).
Proof.
  exact (@TableExists_reports obliging_db one_row (update "T" "T" [] [])
           "D" "PUBLIC" "T" eq_refl).
Defined.

(* ================================================================== *)
(** * Whitespace that normalising ignores *)

(** A run of whitespace in front of [t] is replaced by one space, or by
    nothing when it goes on a run already replaced. *)
Lemma replace_runs_run (ws t : gostring) (m : bool) :
  ws <> [] -> forallb regexp.perl_space ws = true ->
  regexp.replace_runs regexp.perl_space " " m (ws ++ t)
  = (if m then [] else " ") ++ regexp.replace_runs regexp.perl_space " " true t.
Proof.
  intros Hne Hws. destruct ws as [|b ws]; [congruence|].
  cbn [forallb] in Hws. apply andb_prop in Hws. destruct Hws as [Hb Hws].
  cbn [app regexp.replace_runs]. rewrite Hb.
  rewrite (replace_runs_skips_run _ _ Hws). now destruct m.
Qed.

Lemma replace_runs_inner (a ws ws' b : gostring) (m : bool) :
  ws <> [] -> forallb regexp.perl_space ws = true ->
  ws' <> [] -> forallb regexp.perl_space ws' = true ->
  regexp.replace_runs regexp.perl_space " " m (a ++ ws ++ b)
  = regexp.replace_runs regexp.perl_space " " m (a ++ ws' ++ b).
Proof.
  intros Hne Hws Hne' Hws'. revert m.
  induction a as [|x a IH]; intros m.
  - cbn [app]. now rewrite !replace_runs_run.
  - cbn [app regexp.replace_runs]. destruct (regexp.perl_space x).
    + destruct m; now rewrite IH.
    + now rewrite IH.
Qed.

(** X22: the length and the make-up of a run of whitespace do not count: two
    statements that differ in one run of the class [\s] (tabs, newlines,
    form feeds, carriage returns, spaces), wherever it stands, have the same
    normal form. *)
Theorem tableNormalizeQuery_run (a ws ws' b : gostring) :
  ws <> [] -> forallb regexp.perl_space ws = true ->
  ws' <> [] -> forallb regexp.perl_space ws' = true ->
  resources.tableNormalizeQuery (a ++ ws ++ b)
  = resources.tableNormalizeQuery (a ++ ws' ++ b).
Proof.
  intros Hne Hws Hne' Hws'.
  unfold resources.tableNormalizeQuery, resources.tableSpace, regexp.ReplaceAllString.
  now rewrite (@replace_runs_inner a ws ws' b false).
Qed.

(** A space, a tab and a newline in the place of one space. *)
Lemma tableNormalizeQuery_run_witness :
  resources.tableNormalizeQuery ("select" ++ [x20; x09; x0a] ++ "1")
  = resources.tableNormalizeQuery ("select" ++ " " ++ "1").
Proof.
  apply (@tableNormalizeQuery_run "select" [x20; x09; x0a] " " "1");
    (discriminate || reflexivity).
Defined.

(** A string of the shape of a normal form is left as it is. *)
Lemma normal_form_fixed (s : gostring) :
  single_spaced false s = true ->
  left_trimmed unicode.IsSpace s -> right_trimmed unicode.IsSpace s ->
  resources.tableNormalizeQuery s = s.
Proof.
  intros Hsingle Hleft Hright.
  unfold resources.tableNormalizeQuery, resources.tableSpace,
    regexp.ReplaceAllString.
  rewrite (single_spaced_fixed _ _ Hsingle), TrimSpace_strip. cbv zeta.
  rewrite (without_leading_fixed Hleft). now apply without_trailing_fixed.
Qed.

Lemma tableNormalizeQuery_twice (s : gostring) :
  resources.tableNormalizeQuery (resources.tableNormalizeQuery s)
  = resources.tableNormalizeQuery s.
Proof.
  destruct (tableNormalizeQuery_shape s) as (H1 & H2 & H3).
  now apply normal_form_fixed.
Qed.

(** X23: the normal forms are the strings that normalising leaves as they
    are, and they are the strings in which whitespace of the class [\s]
    occurs as single spaces only and which neither begin nor end with a
    white space rune. *)
Theorem tableNormalizeQuery_fixed_points (s : gostring) :
  resources.tableNormalizeQuery s = s <->
  single_spaced false s = true /\
  left_trimmed unicode.IsSpace s /\ right_trimmed unicode.IsSpace s.
Proof.
  split.
  - intros H. rewrite <- H. apply tableNormalizeQuery_shape.
  - intros (Hsingle & Hleft & Hright). now apply normal_form_fixed.
Qed.

(* ================================================================== *)
(** * Decoding before bytes that start afresh *)

Section DecodeAfresh.
Import utf8.

Lemma at_past (u z : gostring) : at_ (u ++ z) (length u) = at_ z 0.
Proof. unfold at_. rewrite app_nth2 by lia. now rewrite Nat.sub_diag. Qed.

Lemma starts_afresh_at (z : gostring) :
  starts_afresh z -> continuation (at_ z 0) = false.
Proof. destruct z as [|c z]; [reflexivity | trivial]. Qed.

(** Bytes that do not go on an encoding do not change the rune decoded
    before them. *)
Lemma DecodeRuneInString_afresh (u z : gostring) :
  u <> [] -> starts_afresh z ->
  DecodeRuneInString (u ++ z) = DecodeRuneInString u.
Proof.
  intros Hu Hz. apply starts_afresh_at in Hz.
  unfold continuation in Hz. apply andb_false_iff in Hz.
  pose proof (len_pos Hu) as Hlen. pose proof (len_nonneg z) as Hlz.
  pose proof (len_app u z) as Happ. pose proof (at_app u z) as Hat.
  pose proof (at_past u z) as Hpast.
  unfold DecodeRuneInString. cbv zeta.
  replace (len u <? 1) with false by (symmetry; lia).
  replace (len (u ++ z) <? 1) with false by (symmetry; lia).
  rewrite (Hat 0%nat) by lia.
  destruct (as_ <=? first (at_ u 0)) eqn:E; [reflexivity|].
  pose proof (first_size _ E) as Hsz. pose proof (lead_accept _ E) as [Hlo Hhi].
  set (sz := Z.land (first (at_ u 0)) 7) in *.
  set (lo := fst (acceptRanges (Z.shiftr (first (at_ u 0)) 4))) in *.
  set (hi := snd (acceptRanges (Z.shiftr (first (at_ u 0)) 4))) in *.
  assert (Hbad : forall l h, 0x80 <= l -> h <= 0xBF ->
                   ((at_ z 0 <? l) || (h <? at_ z 0)) = true).
  { intros l h Hl Hh. apply orb_true_iff.
    destruct Hz as [H | H]; [left | right]; lia. }
  destruct (len u <? sz) eqn:Eshort.
  - (* the encoding is cut short by the end of [u] *)
    destruct (len (u ++ z) <? sz); [reflexivity|].
    destruct (Z.eq_dec (len u) 1) as [H1 | H1].
    { replace 1%nat with (length u) by (unfold len in H1; lia).
      rewrite Hpast, Hbad by assumption. reflexivity. }
    rewrite (Hat 1%nat) by lia.
    case_if; [reflexivity|].
    replace (sz <=? 2) with false by (symmetry; lia).
    destruct (Z.eq_dec (len u) 2) as [H2 | H2].
    { replace 2%nat with (length u) by (unfold len in H2; lia).
      rewrite Hpast, Hbad by (unfold locb, hicb; lia). reflexivity. }
    rewrite (Hat 2%nat) by lia.
    case_if; [reflexivity|].
    replace (sz <=? 3) with false by (symmetry; lia).
    replace 3%nat with (length u) by (unfold len in *; lia).
    rewrite Hpast, Hbad by (unfold locb, hicb; lia). reflexivity.
  - replace (len (u ++ z) <? sz) with false by (symmetry; lia).
    rewrite (Hat 1%nat) by lia.
    case_if; [reflexivity|]. case_if; [reflexivity|].
    rewrite (Hat 2%nat) by lia.
    case_if; [reflexivity|]. case_if; [reflexivity|].
    rewrite (Hat 3%nat) by lia.
    reflexivity.
Qed.

End DecodeAfresh.

(* ================================================================== *)
(** * Trimming before and after a space *)

Section TrimAtEnds.
Import utf8.

Section StripAtEnds.
Variable f : rune -> bool.

Lemma slice_from_app (u z : gostring) (wid : Z) :
  0 <= wid <= len u -> slice_from (u ++ z) wid = slice_from u wid ++ z.
Proof.
  intros H. unfold slice_from, len in *. rewrite skipn_app.
  replace (Z.to_nat wid - length u)%nat with O by lia. reflexivity.
Qed.

(** What follows the string stays behind what is left of it, as long as
    something is left. *)
Lemma without_leading_app (fuel : nat) (u z : gostring) :
  (length u <= fuel)%nat -> starts_afresh z ->
  without_leading f fuel u <> [] ->
  without_leading f (fuel + length z) (u ++ z) = without_leading f fuel u ++ z.
Proof.
  intros Hlen Hz. revert u Hlen.
  induction fuel as [|fuel IH]; intros u Hlen Hleft.
  - destruct u; [cbn in Hleft; congruence | simpl in Hlen; lia].
  - destruct u as [|b u']; [cbn in Hleft; congruence|].
    cbn [Nat.add]. change ((b :: u') ++ z) with (b :: (u' ++ z)) at 1.
    cbn [without_leading] in *.
    change (b :: (u' ++ z)) with ((b :: u') ++ z).
    rewrite (@DecodeRuneInString_afresh (b :: u') z ltac:(discriminate) Hz).
    pose proof (@DecodeRuneInString_size (b :: u') ltac:(discriminate)) as Hsize.
    pose proof (@DecodeRuneInString_within (b :: u') ltac:(discriminate)) as Hin.
    destruct (DecodeRuneInString (b :: u')) as [r wid]. cbn [snd] in Hsize, Hin.
    destruct (f r); [|reflexivity].
    rewrite slice_from_app by lia.
    apply IH; [|exact Hleft].
    unfold slice_from. rewrite length_skipn. simpl length in *. lia.
Qed.

End StripAtEnds.

(** A space after white space only goes with it. *)
Lemma without_leading_all (fuel : nat) (u : gostring) :
  (length u <= fuel)%nat ->
  without_leading unicode.IsSpace fuel u = [] ->
  without_leading unicode.IsSpace (fuel + 1) (u ++ " ") = [].
Proof.
  revert u. induction fuel as [|fuel IH]; intros u Hlen Hnil.
  - destruct u; [reflexivity | simpl in Hlen; lia].
  - destruct u as [|b u'].
    + cbn [app Nat.add]. destruct fuel; reflexivity.
    + cbn [Nat.add]. change ((b :: u') ++ " ") with (b :: (u' ++ " ")) at 1.
      cbn [without_leading] in *.
      change (b :: (u' ++ " ")) with ((b :: u') ++ " ").
      rewrite (@DecodeRuneInString_afresh (b :: u') " " ltac:(discriminate)
                 ltac:(reflexivity)).
      pose proof (@DecodeRuneInString_size (b :: u') ltac:(discriminate)) as Hsize.
      pose proof (@DecodeRuneInString_within (b :: u') ltac:(discriminate)) as Hin.
      destruct (DecodeRuneInString (b :: u')) as [r wid]. cbn [snd] in Hsize, Hin.
      destruct (unicode.IsSpace r); [|discriminate].
      rewrite slice_from_app by lia.
      apply IH; [|exact Hnil].
      unfold slice_from. rewrite length_skipn. simpl length in *. lia.
Qed.

Lemma DecodeLastRuneInString_space_last (t : gostring) :
  DecodeLastRuneInString (t ++ " ") = (0x20, 1).
Proof.
  unfold DecodeLastRuneInString. cbv zeta.
  rewrite len_app. pose proof (len_nonneg t) as Hlen.
  change (len " ") with 1.
  replace (len t + 1 =? 0) with false by (symmetry; lia).
  replace (Z.to_nat (len t + 1 - 1)) with (length t) by (unfold len; lia).
  rewrite at_past. reflexivity.
Qed.

(** [TrimSpace] takes a space off either end. *)
Lemma TrimSpace_space_left (r : gostring) :
  strings.TrimSpace (" " ++ r) = strings.TrimSpace r.
Proof.
  rewrite !TrimSpace_strip. cbv zeta. cbn [app length without_leading].
  rewrite (@DecodeRuneInString_ascii (x20 :: r) ltac:(discriminate) eq_refl).
  reflexivity.
Qed.

Lemma TrimSpace_space_right (r : gostring) :
  strings.TrimSpace (r ++ " ") = strings.TrimSpace r.
Proof.
  rewrite !TrimSpace_strip. cbv zeta. rewrite length_app. cbn [length].
  destruct (without_leading unicode.IsSpace (length r) r) as [|b t] eqn:E.
  - rewrite without_leading_all by (lia || exact E). reflexivity.
  - pose proof (@without_leading_app unicode.IsSpace (length r) r " "
                  ltac:(lia) ltac:(reflexivity)) as Happ.
    cbn [length] in Happ. rewrite Happ by (rewrite E; discriminate).
    rewrite E. rewrite length_app. cbn [length]. rewrite Nat.add_1_r.
    rewrite without_trailing_S by (destruct t; discriminate).
    rewrite DecodeLastRuneInString_space_last.
    change (unicode.IsSpace 32) with true. cbv iota.
    rewrite len_app. change (len " ") with 1.
    replace (len (b :: t) + 1 - 1) with (Z.of_nat (length (b :: t)))
      by (unfold len; lia).
    rewrite slice_prefix, firstn_app, firstn_all, Nat.sub_diag.
    cbn [firstn]. now rewrite app_nil_r.
Qed.

End TrimAtEnds.

(* ================================================================== *)
(** * Whitespace at the ends *)

Lemma replace_runs_leading (ws s : gostring) :
  forallb regexp.perl_space ws = true ->
  let r := regexp.replace_runs regexp.perl_space " " false s in
  regexp.replace_runs regexp.perl_space " " false (ws ++ s) = r \/
  regexp.replace_runs regexp.perl_space " " false (ws ++ s) = " " ++ r.
Proof.
  intros Hws. cbv zeta. destruct ws as [|w ws']; [left; reflexivity|].
  rewrite (@replace_runs_run (w :: ws') s false ltac:(discriminate) Hws).
  destruct s as [|b s']; [right; reflexivity|].
  cbn [regexp.replace_runs]. destruct (regexp.perl_space b); [left | right];
    reflexivity.
Qed.

Lemma replace_runs_trailing (ws s : gostring) (m : bool) :
  forallb regexp.perl_space ws = true ->
  let r := regexp.replace_runs regexp.perl_space " " m s in
  regexp.replace_runs regexp.perl_space " " m (s ++ ws) = r \/
  regexp.replace_runs regexp.perl_space " " m (s ++ ws) = r ++ " ".
Proof.
  intros Hws. cbv zeta. revert m. induction s as [|b s IH]; intros m.
  - cbn [app]. destruct ws as [|w ws']; [left; reflexivity|].
    rewrite <- (app_nil_r (w :: ws')).
    rewrite (@replace_runs_run (w :: ws') [] m ltac:(discriminate) Hws).
    destruct m; [left | right]; reflexivity.
  - cbn [app regexp.replace_runs]. destruct (regexp.perl_space b).
    + destruct m.
      * apply IH.
      * destruct (IH true) as [-> | ->]; [left | right]; reflexivity.
    + destruct (IH false) as [-> | ->]; [left | right]; reflexivity.
Qed.

Lemma tableNormalizeQuery_leading (ws s : gostring) :
  forallb regexp.perl_space ws = true ->
  resources.tableNormalizeQuery (ws ++ s) = resources.tableNormalizeQuery s.
Proof.
  intros Hws.
  unfold resources.tableNormalizeQuery, resources.tableSpace, regexp.ReplaceAllString.
  destruct (replace_runs_leading ws s Hws) as [-> | ->];
    [reflexivity | apply TrimSpace_space_left].
Qed.

Lemma tableNormalizeQuery_trailing (ws s : gostring) :
  forallb regexp.perl_space ws = true ->
  resources.tableNormalizeQuery (s ++ ws) = resources.tableNormalizeQuery s.
Proof.
  intros Hws.
  unfold resources.tableNormalizeQuery, resources.tableSpace, regexp.ReplaceAllString.
  destruct (replace_runs_trailing ws s false Hws) as [-> | ->];
    [reflexivity | apply TrimSpace_space_right].
Qed.

(* ================================================================== *)
(** * What diff suppression lets through *)

Lemma byte_val_inj (a b : byte) : byte_val a = byte_val b -> a = b.
Proof.
  unfold byte_val. intros H. apply N2Z.inj in H.
  pose proof (Byte.of_to_N a) as Ha. pose proof (Byte.of_to_N b) as Hb.
  rewrite H in Ha. congruence.
Qed.

Lemma upper_ascii_small (b : byte) :
  0x61 <= byte_val b <= 0x7A -> byte_val (upper_ascii b) = byte_val b - 32.
Proof.
  destruct (upper_ascii_cases b) as [H | [_ H]]; [|intros _; exact H].
  destruct b; try reflexivity; vm_compute; intuition congruence.
Qed.

Lemma upper_ascii_capital (b : byte) :
  0x41 <= byte_val b <= 0x5A -> upper_ascii b = b.
Proof.
  destruct (upper_ascii_cases b) as [H | [H _]]; [intros _; exact H | lia].
Qed.

Section Suppression.

Variable SimpleFold : utf8.rune -> utf8.rune.

(** On ASCII, [EqualFold] holds of no other strings than those that differ
    in the case of letters. *)
Lemma equal_fold_loop_ascii_only (fuel : nat) (s t : gostring) :
  forallb is_ascii s = true -> forallb is_ascii t = true ->
  (length s <= fuel)%nat ->
  strings.equal_fold_loop SimpleFold fuel s t = true ->
  map upper_ascii s = map upper_ascii t.
Proof.
  revert s t. induction fuel as [|fuel IH]; intros s t Hs Ht Hlen H.
  - destruct s; [|simpl in Hlen; lia]. destruct t; [reflexivity | discriminate].
  - destruct s as [|a s'], t as [|b t']; try discriminate; [reflexivity|].
    cbn [forallb] in Hs, Ht. apply andb_prop in Hs, Ht.
    destruct Hs as [Ha Hs], Ht as [Hb Ht]. unfold is_ascii in Ha, Hb.
    simpl in Hlen.
    cbn [strings.equal_fold_loop] in H. unfold strings.first_rune in H.
    change (utf8.at_ (a :: s') 0) with (byte_val a) in H.
    change (utf8.at_ (b :: t') 0) with (byte_val b) in H.
    change (utf8.slice_from (a :: s') 1) with s' in H.
    change (utf8.slice_from (b :: t') 1) with t' in H.
    rewrite Ha, Hb in H. cbn [map].
    apply Z.ltb_lt in Ha, Hb. unfold utf8.RuneSelf in *.
    destruct (byte_val b =? byte_val a) eqn:E.
    + apply Z.eqb_eq, byte_val_inj in E. subst b.
      f_equal. apply IH; [assumption | assumption | lia | exact H].
    + destruct (byte_val b <? byte_val a) eqn:Elt.
      * replace (byte_val a <? 128) with true in H by (symmetry; lia).
        destruct ((65 <=? byte_val b) && (byte_val b <=? 90)
                  && (byte_val a =? byte_val b + 97 - 65)) eqn:Ec; [|discriminate].
        rewrite !andb_true_iff in Ec. destruct Ec as [[E1 E2] E3].
        f_equal; [|apply IH; [assumption | assumption | lia | exact H]].
        apply byte_val_inj.
        rewrite (@upper_ascii_capital b) by lia.
        rewrite upper_ascii_small by lia. lia.
      * replace (byte_val b <? 128) with true in H by (symmetry; lia).
        destruct ((65 <=? byte_val a) && (byte_val a <=? 90)
                  && (byte_val b =? byte_val a + 97 - 65)) eqn:Ec; [|discriminate].
        rewrite !andb_true_iff in Ec. destruct Ec as [[E1 E2] E3].
        f_equal; [|apply IH; [assumption | assumption | lia | exact H]].
        apply byte_val_inj.
        rewrite (@upper_ascii_capital a) by lia.
        rewrite upper_ascii_small by lia. lia.
Qed.

Lemma forallb_firstn (A : Type) (p : A -> bool) (k : nat) (l : list A) :
  forallb p l = true -> forallb p (firstn k l) = true.
Proof.
  revert l. induction k as [|k IH]; intros [|x l] H; try reflexivity.
  cbn [firstn forallb] in *. apply andb_prop in H. destruct H as [-> H].
  now apply IH.
Qed.

Lemma forallb_skipn (A : Type) (p : A -> bool) (k : nat) (l : list A) :
  forallb p l = true -> forallb p (skipn k l) = true.
Proof.
  revert l. induction k as [|k IH]; intros [|x l] H; try reflexivity; try exact H.
  cbn [skipn forallb] in *. apply andb_prop in H. destruct H as [_ H].
  now apply IH.
Qed.

Lemma replace_runs_ascii (s : gostring) (m : bool) :
  forallb is_ascii s = true ->
  forallb is_ascii (regexp.replace_runs regexp.perl_space " " m s) = true.
Proof.
  revert m. induction s as [|b s IH]; intros m H; [reflexivity|].
  cbn [forallb] in H. apply andb_prop in H. destruct H as [Hb H].
  cbn [regexp.replace_runs]. destruct (regexp.perl_space b).
  - destruct m; [now apply IH|]. cbn [app forallb]. now rewrite IH.
  - cbn [forallb]. now rewrite Hb, IH.
Qed.

Lemma tableNormalizeQuery_ascii (s : gostring) :
  forallb is_ascii s = true ->
  forallb is_ascii (resources.tableNormalizeQuery s) = true.
Proof.
  intros H.
  unfold resources.tableNormalizeQuery, resources.tableSpace, regexp.ReplaceAllString.
  destruct (TrimSpace_slice (regexp.replace_runs regexp.perl_space " " false s))
    as (i & j & ->).
  apply forallb_firstn, forallb_skipn. now apply replace_runs_ascii.
Qed.

(** X24: between statements of ASCII, [tableDiffSuppressStatement]
    suppresses a difference in the case of letters between the normal
    forms, and no other: it returns true exactly when the normal forms are
    the same once their small letters are made capitals. *)
Theorem tableDiffSuppressStatement_ascii
  (key old new : gostring) (d : tfschema.ResourceData) :
  forallb is_ascii old = true -> forallb is_ascii new = true ->
  resources.tableDiffSuppressStatement SimpleFold key old new d = true <->
  map upper_ascii (resources.tableNormalizeQuery old)
  = map upper_ascii (resources.tableNormalizeQuery new).
Proof.
  intros Hold Hnew. unfold resources.tableDiffSuppressStatement. split.
  - apply equal_fold_loop_ascii_only;
      [now apply tableNormalizeQuery_ascii | now apply tableNormalizeQuery_ascii | lia].
  - apply EqualFold_ascii_case.
Qed.

(** X25: whitespace of the class [\s] before and after a statement does not
    count: the normal form is that of the statement without it, so that
    the difference is suppressed; a statement of such whitespace only has
    the empty normal form. *)
Theorem tableNormalizeQuery_ends (ws s ws' : gostring) :
  forallb regexp.perl_space ws = true -> forallb regexp.perl_space ws' = true ->
  resources.tableNormalizeQuery (ws ++ s ++ ws') = resources.tableNormalizeQuery s /\
  resources.tableNormalizeQuery ws = [] /\
  forall (key : gostring) (d : tfschema.ResourceData),
    resources.tableDiffSuppressStatement SimpleFold key (ws ++ s ++ ws') s d = true.
Proof.
  intros Hws Hws'.
  assert (H : resources.tableNormalizeQuery (ws ++ s ++ ws')
              = resources.tableNormalizeQuery s).
  { rewrite tableNormalizeQuery_leading by exact Hws.
    now apply tableNormalizeQuery_trailing. }
  split; [exact H | split].
  - rewrite <- (app_nil_r ws). now rewrite tableNormalizeQuery_leading.
  - intros key d. unfold resources.tableDiffSuppressStatement. rewrite H.
    apply EqualFold_refl.
Qed.

(** X26: a statement and its normal form are taken for the same: putting the
    normal form in the place of the old or of the new statement does not
    change what [tableDiffSuppressStatement] returns. *)
Theorem tableDiffSuppressStatement_normal_form
  (key old new : gostring) (d : tfschema.ResourceData) :
  resources.tableDiffSuppressStatement SimpleFold key
    (resources.tableNormalizeQuery old) new d
  = resources.tableDiffSuppressStatement SimpleFold key old new d /\
  resources.tableDiffSuppressStatement SimpleFold key old
    (resources.tableNormalizeQuery new) d
  = resources.tableDiffSuppressStatement SimpleFold key old new d /\
  resources.tableDiffSuppressStatement SimpleFold key old
    (resources.tableNormalizeQuery old) d = true.
Proof.
  unfold resources.tableDiffSuppressStatement.
  rewrite !tableNormalizeQuery_twice. repeat split. apply EqualFold_refl.
Qed.

End Suppression.

(** A difference in a digit is not suppressed; a difference in case is. *)
Lemma tableDiffSuppressStatement_ascii_witness :
  resources.tableDiffSuppressStatement (fun r => r) "statement"
    "select 1" "select 2" (resources.data (update "T" "T" [] [])) <> true /\
  resources.tableDiffSuppressStatement (fun r => r) "statement"
    "select 1" "SELECT 1" (resources.data (update "T" "T" [] [])) = true.
Proof.
  split.
  - intros H.
    apply (proj1 (@tableDiffSuppressStatement_ascii (fun r => r) "statement"
                    "select 1" "select 2" (resources.data (update "T" "T" [] []))
                    eq_refl eq_refl)) in H.
    vm_compute in H. discriminate.
  - apply (proj2 (@tableDiffSuppressStatement_ascii (fun r => r) "statement"
                    "select 1" "SELECT 1" (resources.data (update "T" "T" [] []))
                    eq_refl eq_refl)).
    vm_compute. reflexivity.
Defined.

(** A statement between a newline and spaces. *)
Lemma tableNormalizeQuery_ends_witness :
  resources.tableNormalizeQuery ([x0a] ++ "select 1" ++ "  ")
  = resources.tableNormalizeQuery "select 1".
Proof.
  exact (proj1 (@tableNormalizeQuery_ends (fun r => r) [x0a] "select 1" "  "
                  eq_refl eq_refl)).
Defined.
